(** * Wallet service: a shallow embedding and its verification

    The development follows the NestJS wallet service module by module:

    - [Num], [JSON]                 JavaScript numbers and plain objects
    - [Sha256]                      the digest used by the idempotency layer
    - [Wallet], [Transaction]       the two entities
    - [WalletRepository]            the in-memory ledger store
    - [TransactionRepository]       the transaction log and its queries
    - [TransactionService]          transaction records and their references
    - [IdempotencyService]          request de-duplication
    - [WalletService]               funding and transfers

    Conventions of the embedding.

    - A JavaScript number that is printed ([Number.prototype.toString],
      [JSON.stringify]) is a [Num]: the decimal [mantissa * 10 ^ exponent]
      that the printing algorithm works from.  Balances are the exact
      rationals [Q] these decimals denote; rounding of IEEE doubles is not
      modelled: a sum or a difference is the one of the code where the
      code's is exact, as it is over integers below 2^53.  The guards and
      comparisons of balances are those of the code; the statements about
      sums of balances are made over integers.
    - A [Date] is its epoch time in milliseconds.
    - An [async] method is a computation over a [World]: the state of the
      process ([Sys]) and the work that other tasks get to do at the
      suspension points of this one ([pending]).  Every [await] of the source
      is one suspension point.  A world with nothing pending runs the method
      without interleaving.
    - Values drawn from outside ([uuidv4()], [Math.random()]) are arguments.
    - Logging has no effect on any result and is left out. *)

From Stdlib Require Import ZArith QArith Lqa Ascii String List Sorted.
From stdpp Require Import gmap strings list fin_maps pretty.

Open Scope Z_scope.

(** ** Strings *)

Definition dquote : string := String "034"%char EmptyString.
Definition backslash : string := String "092"%char EmptyString.

Fixpoint repeatString (s : string) (n : nat) : string :=
  match n with
  | O => EmptyString
  | S n' => s +:+ repeatString s n'
  end.

(** [String.prototype.split] with a one-character separator. *)
Fixpoint String_split (sep : ascii) (s : string) : list string :=
  match s with
  | EmptyString => [EmptyString]
  | String c r =>
      let parts := String_split sep r in
      if Ascii.eqb c sep then EmptyString :: parts
      else match parts with
           | h :: t => String c h :: t
           | [] => [String c EmptyString]
           end
  end.

(** [String.prototype.substring(start, end)] for [start <= end]. *)
Definition substring (s : string) (start stop : nat) : string :=
  String.substring start (stop - start) s.

Definition toUpperCaseChar (c : ascii) : ascii :=
  let n := nat_of_ascii c in
  if (97 <=? n)%nat && (n <=? 122)%nat then ascii_of_nat (n - 32) else c.

Fixpoint toUpperCase (s : string) : string :=
  match s with
  | EmptyString => EmptyString
  | String c r => String (toUpperCaseChar c) (toUpperCase r)
  end.

(** [String.prototype.padStart(n, "0")]. *)
Definition padStart0 (n : nat) (s : string) : string :=
  repeatString "0" (n - String.length s) +:+ s.

(** ** Numbers

    [mkNum m e] is the number [m * 10 ^ e]. *)

Record Num := mkNum { mantissa : Z; exponent : Z }.

Definition value (x : Num) : Q :=
  match exponent x with
  | Zneg p => mantissa x # (10 ^ p)%positive
  | e => (mantissa x * 10 ^ e) # 1
  end.

Definition ofZ (z : Z) : Num := mkNum z 0.

Fixpoint dropTrailingZeros (s : string) : string :=
  match s with
  | EmptyString => EmptyString
  | String c r =>
      match dropTrailingZeros r with
      | EmptyString => if Ascii.eqb c "0" then EmptyString else String c EmptyString
      | r' => String c r'
      end
  end.

(** [Number::toString] in radix 10 (ECMA-262, 6.1.6.1.20): with [s] the [k]
    significant digits of the number and [n] the position of its decimal
    point, plain notation is used for [-6 < n <= 21] and exponent notation
    otherwise. *)
Definition Number_toString (x : Num) : string :=
  if mantissa x =? 0 then "0" else
  let all := pretty (Z.abs (mantissa x)) in
  let s := dropTrailingZeros all in
  let k := String.length s in
  let n := exponent x + Z.of_nat (String.length all) in
  (if mantissa x <? 0 then "-" else "") +:+
  (if (-6 <? n) && (n <=? 21) then
     if Z.of_nat k <=? n then s +:+ repeatString "0" (Z.to_nat n - k)
     else if 0 <? n then
       substring s 0 (Z.to_nat n) +:+ "." +:+ substring s (Z.to_nat n) k
     else "0." +:+ repeatString "0" (Z.to_nat (- n)) +:+ s
   else
     let e := n - 1 in
     let es := (if e <? 0 then "-" else "+") +:+ pretty (Z.abs e) in
     if (k =? 1)%nat then s +:+ "e" +:+ es
     else substring s 0 1 +:+ "." +:+ substring s 1 k +:+ "e" +:+ es).

(** The number of digits after the decimal point in the decimal expansion
    of the number: what "fractional digits" means for a value. *)
Definition fractionalDigits (x : Num) : Z :=
  if mantissa x =? 0 then 0 else
  let all := pretty (Z.abs (mantissa x)) in
  let tz := Z.of_nat (String.length all) - Z.of_nat (String.length (dropTrailingZeros all)) in
  Z.max 0 (- (exponent x + tz)).

Definition Qltb (x y : Q) : bool := negb (Qle_bool y x).

(** ** Plain objects

    The [any] of request parameters and metadata: JSON values, an object
    being the list of its own properties in insertion order. *)

#[warnings="-register-all"]
Inductive JSON :=
| JNull
| JBool (b : bool)
| JNumber (n : Num)
| JString (s : string)
| JArray (items : list JSON)
| JObject (props : list (string * JSON)).

Fixpoint insertProp (p : string * JSON) (l : list (string * JSON)) : list (string * JSON) :=
  match l with
  | [] => [p]
  | q :: l' => if String.leb (fst p) (fst q) then p :: l else q :: insertProp p l'
  end.

(** [Object.keys(obj).sort()]: the properties in the order of their keys
    as strings. *)
Definition sortProps (l : list (string * JSON)) : list (string * JSON) :=
  foldr insertProp [] l.

(** The number a string of decimal digits denotes. *)
Fixpoint parseDigits (acc : Z) (s : string) : Z :=
  match s with
  | EmptyString => acc
  | String c r => parseDigits (10 * acc + Z.of_nat (nat_of_ascii c) - 48) r
  end.

(** An array index (ECMA-262, 6.1.7): a key that is the canonical decimal
    of an integer from 0 to 2^32 - 2. *)
Definition arrayIndex (key : string) : option Z :=
  let n := parseDigits 0 key in
  if (0 <=? n) && (n <=? 4294967294) && String.eqb (pretty n) key then Some n else None.

Fixpoint insertIndex (p : string * JSON) (l : list (string * JSON)) : list (string * JSON) :=
  match l with
  | [] => [p]
  | q :: l' =>
      if default 0 (arrayIndex (fst p)) <=? default 0 (arrayIndex (fst q)) then p :: l
      else q :: insertIndex p l'
  end.

(** The own properties of the object that the assignments [sorted[key] =
    value], made in the order of [created] under keys that differ, leave
    ([OrdinaryOwnPropertyKeys], ECMA-262, 10.1.11.1): the array indices in
    ascending order, then the other keys in the order of their creation. *)
Definition ownProperties (created : list (string * JSON)) : list (string * JSON) :=
  foldr insertIndex [] (List.filter (fun p => bool_decide (is_Some (arrayIndex (fst p)))) created)
  ++ List.filter (fun p => bool_decide (arrayIndex (fst p) = None)) created.

Definition hexDigit (n : nat) : string :=
  String.substring n 1 "0123456789abcdef".

(** [QuoteJSONString]. *)
Definition escapeChar (c : ascii) : string :=
  let n := nat_of_ascii c in
  if (n =? 34)%nat then backslash +:+ dquote
  else if (n =? 92)%nat then backslash +:+ backslash
  else if (n =? 8)%nat then backslash +:+ "b"
  else if (n =? 9)%nat then backslash +:+ "t"
  else if (n =? 10)%nat then backslash +:+ "n"
  else if (n =? 12)%nat then backslash +:+ "f"
  else if (n =? 13)%nat then backslash +:+ "r"
  else if (n <? 32)%nat then backslash +:+ "u00" +:+ hexDigit (n / 16) +:+ hexDigit (n mod 16)
  else String c EmptyString.

Fixpoint escapeString (s : string) : string :=
  match s with
  | EmptyString => EmptyString
  | String c r => escapeChar c +:+ escapeString r
  end.

Definition quoteJSONString (s : string) : string :=
  dquote +:+ escapeString s +:+ dquote.

Fixpoint JSON_stringify (j : JSON) : string :=
  match j with
  | JNull => "null"
  | JBool b => if b then "true" else "false"
  | JNumber n => Number_toString n
  | JString s => quoteJSONString s
  | JArray items => "[" +:+ String.concat "," (map JSON_stringify items) +:+ "]"
  | JObject props =>
      "{" +:+ String.concat ","
                (map (fun p => quoteJSONString (fst p) +:+ ":" +:+ JSON_stringify (snd p)) props)
          +:+ "}"
  end.

(** ** SHA-256

    [crypto.createHash('sha256').update(input).digest('hex')], after
    FIPS 180-4: 32-bit words are integers below [2 ^ 32]. *)

Module Sha256.

Definition word (z : Z) : Z := z mod 2 ^ 32.

Definition rotr (n x : Z) : Z :=
  Z.lor (Z.shiftr x n) (word (Z.shiftl x (32 - n))).

Definition Ch (x y z : Z) : Z :=
  Z.lxor (Z.land x y) (Z.land (Z.lxor x 0xffffffff) z).

Definition Maj (x y z : Z) : Z :=
  Z.lxor (Z.lxor (Z.land x y) (Z.land x z)) (Z.land y z).

Definition Sigma0 (x : Z) : Z := Z.lxor (Z.lxor (rotr 2 x) (rotr 13 x)) (rotr 22 x).
Definition Sigma1 (x : Z) : Z := Z.lxor (Z.lxor (rotr 6 x) (rotr 11 x)) (rotr 25 x).
Definition sigma0 (x : Z) : Z := Z.lxor (Z.lxor (rotr 7 x) (rotr 18 x)) (Z.shiftr x 3).
Definition sigma1 (x : Z) : Z := Z.lxor (Z.lxor (rotr 17 x) (rotr 19 x)) (Z.shiftr x 10).

(** The constants are the first 32 bits of the fractional parts of the
    cube roots (for [K]) and square roots (for [H0]) of the first primes. *)

Definition isPrime (n : Z) : bool :=
  forallb (fun d => negb (n mod d =? 0)) (map Z.of_nat (seq 2 (Z.to_nat n - 2))).

Definition firstPrimes (count : nat) : list Z :=
  firstn count (List.filter isPrime (map Z.of_nat (seq 2 400))).

(** The largest [x + y] with [y < 2 ^ bits] and [(x + y) ^ k <= n]. *)
Fixpoint rootFrom (k : Z) (bits : nat) (n x : Z) : Z :=
  match bits with
  | O => x
  | S bits' =>
      let candidate := x + 2 ^ Z.of_nat bits' in
      if candidate ^ k <=? n then rootFrom k bits' n candidate else rootFrom k bits' n x
  end.

Definition fractionOfRoot (k p : Z) : Z :=
  word (rootFrom k 40 (p * 2 ^ (32 * k)) 0).

Definition K : list Z := Eval vm_compute in map (fractionOfRoot 3) (firstPrimes 64).

Definition H0 : list Z := Eval vm_compute in map (fractionOfRoot 2) (firstPrimes 8).

Fixpoint bytesOf (s : string) : list Z :=
  match s with
  | EmptyString => []
  | String c r => Z.of_nat (nat_of_ascii c) :: bytesOf r
  end.

(** The bytes of [z], most significant first, on [n] bytes. *)
Fixpoint bigEndian (n : nat) (z : Z) : list Z :=
  match n with
  | O => []
  | S n' => (Z.shiftr z (8 * Z.of_nat n')) mod 256 :: bigEndian n' z
  end.

(** The message, a [1] bit, zeros up to 56 modulo 64 bytes, and the length
    of the message in bits on 64 bits. *)
Definition pad (msg : list Z) : list Z :=
  let len := Z.of_nat (length msg) in
  let zeros := Z.to_nat ((55 - len) mod 64) in
  msg ++ [0x80] ++ repeat 0 zeros ++ bigEndian 8 (8 * len).

Fixpoint wordsOf (n : nat) (bytes : list Z) : list Z :=
  match n, bytes with
  | S n', b0 :: b1 :: b2 :: b3 :: rest =>
      (Z.shiftl b0 24 + Z.shiftl b1 16 + Z.shiftl b2 8 + b3) :: wordsOf n' rest
  | _, _ => []
  end.

(** The message schedule, latest word first: [extend n w] adds [n] words
    to the schedule [w]. *)
Fixpoint extend (n : nat) (w : list Z) : list Z :=
  match n with
  | O => w
  | S n' =>
      let wt := word (sigma1 (nth 1 w 0) + nth 6 w 0 + sigma0 (nth 14 w 0) + nth 15 w 0) in
      extend n' (wt :: w)
  end.

Definition schedule (block : list Z) : list Z :=
  rev (extend 48 (rev (wordsOf 16 block))).

Record Vars := mkVars { va : Z; vb : Z; vc : Z; vd : Z; ve : Z; vf : Z; vg : Z; vh : Z }.

Definition round (v : Vars) (kw : Z * Z) : Vars :=
  let t1 := word (vh v + Sigma1 (ve v) + Ch (ve v) (vf v) (vg v) + fst kw + snd kw) in
  let t2 := word (Sigma0 (va v) + Maj (va v) (vb v) (vc v)) in
  mkVars (word (t1 + t2)) (va v) (vb v) (vc v) (word (vd v + t1)) (ve v) (vf v) (vg v).

Definition compress (h : Vars) (block : list Z) : Vars :=
  let v := fold_left round (combine K (schedule block)) h in
  mkVars (word (va h + va v)) (word (vb h + vb v)) (word (vc h + vc v)) (word (vd h + vd v))
         (word (ve h + ve v)) (word (vf h + vf v)) (word (vg h + vg v)) (word (vh h + vh v)).

Fixpoint blocks (n : nat) (h : Vars) (bytes : list Z) : Vars :=
  match n with
  | O => h
  | S n' => blocks n' (compress h (firstn 64 bytes)) (skipn 64 bytes)
  end.

Definition initial : Vars :=
  mkVars (nth 0 H0 0) (nth 1 H0 0) (nth 2 H0 0) (nth 3 H0 0)
         (nth 4 H0 0) (nth 5 H0 0) (nth 6 H0 0) (nth 7 H0 0).

Definition hexByte (b : Z) : string :=
  hexDigit (Z.to_nat (b / 16)) +:+ hexDigit (Z.to_nat (b mod 16)).

Definition hexWord (w : Z) : string :=
  String.concat "" (map hexByte (bigEndian 4 w)).

Definition digest (input : string) : string :=
  let bytes := pad (bytesOf input) in
  let h := blocks (length bytes / 64) initial bytes in
  String.concat ""
    (map hexWord [va h; vb h; vc h; vd h; ve h; vf h; vg h; vh h]).

End Sha256.

(** ** Dates

    A [Date] is the number of milliseconds since the epoch; the calendar
    fields of [toISOString] are those of the proleptic Gregorian calendar
    in UTC. *)

Definition msPerDay : Z := 86400000.

(** Year, month and day of the day number [days] (days since 1970-01-01). *)
Definition civilFromDays (days : Z) : Z * Z * Z :=
  let z := days + 719468 in
  let era := z / 146097 in
  let doe := z - era * 146097 in
  let yoe := (doe - doe / 1460 + doe / 36524 - doe / 146096) / 365 in
  let doy := doe - (365 * yoe + yoe / 4 - yoe / 100) in
  let mp := (5 * doy + 2) / 153 in
  let d := doy - (153 * mp + 2) / 5 + 1 in
  let m := if mp <? 10 then mp + 3 else mp - 9 in
  let y := yoe + era * 400 + (if m <=? 2 then 1 else 0) in
  (y, m, d).

Definition padZ (n : nat) (z : Z) : string := padStart0 n (pretty z).

(** Four digits for the years 0 to 9999, a sign and six digits otherwise. *)
Definition yearString (y : Z) : string :=
  if (0 <=? y) && (y <=? 9999) then padZ 4 y
  else (if y <? 0 then "-" else "+") +:+ padZ 6 (Z.abs y).

Definition Date_toISOString (t : Z) : string :=
  let ms := t mod msPerDay in
  let '(y, m, d) := civilFromDays (t / msPerDay) in
  yearString y +:+ "-" +:+ padZ 2 m +:+ "-" +:+ padZ 2 d +:+ "T" +:+
  padZ 2 (ms / 3600000) +:+ ":" +:+ padZ 2 (ms / 60000 mod 60) +:+ ":" +:+
  padZ 2 (ms / 1000 mod 60) +:+ "." +:+ padZ 3 (ms mod 1000) +:+ "Z".

(** ** Errors *)

(** The plain [Error]s thrown by the entities, one constructor for each
    [throw new Error(...)] of the source. *)
Inductive PlainError :=
| NegativeBalance (balance : Q)
| FundAmountNotPositive (amount : Q)
| DeductAmountNotPositive (amount : Q)
| DeductInsufficientBalance (required available : Q)
| TransactionAmountNotPositive (amount : Q)
| FundingWithSourceWallet
| TransferWithoutSourceWallet.

(** The domain errors of [domain.errors], with the arguments of their
    constructors, and the plain errors. *)
Inductive Error :=
| WalletNotFoundError (walletId : string)
| WalletAlreadyExistsError (walletId : string)
| InsufficientBalanceError (walletId : string) (required available : Q)
| DuplicateTransactionError (idempotencyKey : string) (originalRequest : JSON)
| InvalidTransactionAmountError (amount : Num) (reason : string)
| SameWalletTransferError (walletId : string)
| ConcurrentModificationError (resource resourceId : string)
| JsError (e : PlainError).

Inductive Outcome (A : Type) :=
| Return (a : A)
| Throw (e : Error).

Arguments Return {A} a.
Arguments Throw {A} e.

(** [instanceof ConcurrentModificationError]. *)
Definition isConcurrentModificationError (e : Error) : bool :=
  match e with
  | ConcurrentModificationError _ _ => true
  | _ => false
  end.

(** ** Entities *)

Inductive Currency := USD.

Definition Currency_toString (c : Currency) : string :=
  match c with USD => "USD" end.

Module Wallet.

Record t := mk {
  id : string;
  currency : Currency;
  balance : Q;
  version : Z;
  createdAt : Z;
  updatedAt : Z;
}.

Definition validateBalance (balance : Q) : Outcome unit :=
  if Qltb balance 0 then Throw (JsError (NegativeBalance balance)) else Return tt.

(** [new Wallet(id, currency, balance)] at the time [now]. *)
Definition new (now : Z) (id : string) (currency : Currency) (balance : Q) : Outcome t :=
  match validateBalance balance with
  | Throw e => Throw e
  | Return _ => Return (mk id currency balance 1 now now)
  end.

(** [fund] and [deduct]: the guards, then [this.balance += amount] and
    [this.balance -= amount].  The sum and the difference are exact here;
    the code computes them on doubles and so rounds a result that is not a
    double (0.1 + 0.2), which leaves the guards as they are. *)
Definition fund (now : Z) (amount : Q) (w : t) : Outcome t :=
  if Qle_bool amount 0 then Throw (JsError (FundAmountNotPositive amount))
  else Return (mk (id w) (currency w) (balance w + amount) (version w + 1) (createdAt w) now).

Definition deduct (now : Z) (amount : Q) (w : t) : Outcome t :=
  if Qle_bool amount 0 then Throw (JsError (DeductAmountNotPositive amount))
  else if Qltb (balance w) amount then
    Throw (JsError (DeductInsufficientBalance amount (balance w)))
  else Return (mk (id w) (currency w) (balance w - amount) (version w + 1) (createdAt w) now).

Definition hasSufficientBalance (amount : Q) (w : t) : bool :=
  Qle_bool amount (balance w).

(** The assignments [wallet.balance = b; wallet.version = v]. *)
Definition assign (b : Q) (v : Z) (w : t) : t :=
  mk (id w) (currency w) b v (createdAt w) (updatedAt w).

End Wallet.

Inductive TransactionType := FUNDING | TRANSFER | WITHDRAWAL.

Inductive TransactionStatus := PENDING | COMPLETED | FAILED | REVERSED.

Definition TransactionType_toString (t : TransactionType) : string :=
  match t with FUNDING => "FUNDING" | TRANSFER => "TRANSFER" | WITHDRAWAL => "WITHDRAWAL" end.

Definition TransactionStatus_toString (s : TransactionStatus) : string :=
  match s with
  | PENDING => "PENDING" | COMPLETED => "COMPLETED" | FAILED => "FAILED" | REVERSED => "REVERSED"
  end.

Module Transaction.

Record t := mk {
  id : string;
  reference : string;
  type : TransactionType;
  sourceWalletId : option string;
  targetWalletId : string;
  amount : Q;
  currency : string;
  status : TransactionStatus;
  metadata : option JSON;
  createdAt : Z;
  updatedAt : Z;
}.

Definition validateAmount (amount : Q) : Outcome unit :=
  if Qle_bool amount 0 then Throw (JsError (TransactionAmountNotPositive amount)) else Return tt.

(** A [string | null] in a condition: [null] and the empty string are
    falsy. *)
Definition truthy (s : option string) : bool :=
  match s with
  | None => false
  | Some EmptyString => false
  | Some _ => true
  end.

Definition validateTransactionType (type : TransactionType) (sourceWalletId : option string)
  : Outcome unit :=
  match type with
  | FUNDING => if truthy sourceWalletId then Throw (JsError FundingWithSourceWallet) else Return tt
  | TRANSFER =>
      if negb (truthy sourceWalletId) then Throw (JsError TransferWithoutSourceWallet)
      else Return tt
  | WITHDRAWAL => Return tt
  end.

(** [new Transaction(params)] at the time [now]; [status] is what
    [params.status || COMPLETED] evaluates to. *)
Definition new (now : Z) (id reference : string) (type : TransactionType)
    (sourceWalletId : option string) (targetWalletId : string) (amount : Q)
    (currency : string) (status : TransactionStatus) (metadata : option JSON) : Outcome t :=
  match validateAmount amount with
  | Throw e => Throw e
  | Return _ =>
      match validateTransactionType type sourceWalletId with
      | Throw e => Throw e
      | Return _ =>
          Return (mk id reference type sourceWalletId targetWalletId amount currency
                     status metadata now now)
      end
  end.

Definition markAsFailed (now : Z) (tx : t) : t :=
  mk (id tx) (reference tx) (type tx) (sourceWalletId tx) (targetWalletId tx) (amount tx)
     (currency tx) FAILED (metadata tx) (createdAt tx) now.

Definition markAsCompleted (now : Z) (tx : t) : t :=
  mk (id tx) (reference tx) (type tx) (sourceWalletId tx) (targetWalletId tx) (amount tx)
     (currency tx) COMPLETED (metadata tx) (createdAt tx) now.

(** [a === b] for [a : string | null] and a string [b]. *)
Definition strictEquals (a : option string) (b : string) : bool :=
  match a with
  | Some a' => String.eqb a' b
  | None => false
  end.

Definition involvesWallet (walletId : string) (tx : t) : bool :=
  strictEquals (sourceWalletId tx) walletId || String.eqb (targetWalletId tx) walletId.

(** The results ['credit'] and ['debit'] of [getImpactForWallet]; [null]
    is [None]. *)
Inductive Impact := Credit | Debit.

Definition getImpactForWallet (walletId : string) (tx : t) : option Impact :=
  if String.eqb (targetWalletId tx) walletId && negb (strictEquals (sourceWalletId tx) walletId)
  then Some Credit
  else if strictEquals (sourceWalletId tx) walletId
          && negb (String.eqb (targetWalletId tx) walletId)
  then Some Debit
  else None.

End Transaction.

(** ** Requests and responses *)

Record CreateWalletDto := {
  cw_currency : option Currency;
  cw_initialBalance : option Q;
}.

Record FundWalletDto := {
  fw_amount : Num;
  fw_idempotencyKey : string;
  fw_metadata : option JSON;
}.

Record TransferFundsDto := {
  tf_targetWalletId : string;
  tf_amount : Num;
  tf_idempotencyKey : string;
  tf_metadata : option JSON;
}.

Record WalletResponseDto := {
  wr_id : string;
  wr_currency : string;
  wr_balance : Q;
  wr_version : Z;
  wr_createdAt : string;
  wr_updatedAt : string;
}.

Record TransactionResponseDto := {
  tr_id : string;
  tr_reference : string;
  tr_type : string;
  tr_sourceWalletId : option string;
  tr_targetWalletId : string;
  tr_amount : Q;
  tr_currency : string;
  tr_status : string;
  tr_metadata : option JSON;
  tr_createdAt : string;
  tr_updatedAt : string;
}.

Record TransferResponseDto := {
  sourceWallet : WalletResponseDto;
  targetWallet : WalletResponseDto;
  transaction : TransactionResponseDto;
}.

Record WalletDetailsResponseDto := {
  wd_wallet : WalletResponseDto;
  wd_transactions : list TransactionResponseDto;
  wd_totalTransactions : Z;
}.

(** What an idempotent operation resolves to, and what the cache keeps as
    [response: any]. *)
Inductive Response :=
| WalletResponse (r : WalletResponseDto)
| TransferResponse (r : TransferResponseDto).

Record IdempotencyRecord := {
  ir_key : string;
  ir_operation : string;
  ir_hash : string;
  ir_requestData : JSON;
  ir_response : Response;
  ir_createdAt : Z;
  ir_expiresAt : Z;
}.

(** ** State of the process *)

Record Sys := mkSys {
  wallets : gmap string Wallet.t;            (* WalletRepository.wallets *)
  transactions : list Transaction.t;         (* TransactionRepository.transactions, oldest first *)
  transactionIndex : gmap string Transaction.t;  (* TransactionRepository.transactionIndex *)
  transactionCounter : Z;                    (* TransactionService.transactionCounter *)
  cache : gmap string IdempotencyRecord;     (* IdempotencyService.cache *)
  timers : list (Z * string);                (* pending cleanup timeouts: due time, argument *)
  now : Z;                                   (* the clock, what new Date() reads *)
  NODE_ENV : option string;                  (* process.env.NODE_ENV *)
}.

Definition setWallets (m : gmap string Wallet.t) (s : Sys) : Sys :=
  mkSys m (transactions s) (transactionIndex s) (transactionCounter s) (cache s) (timers s)
        (now s) (NODE_ENV s).

Definition setTransactions (l : list Transaction.t) (s : Sys) : Sys :=
  mkSys (wallets s) l (transactionIndex s) (transactionCounter s) (cache s) (timers s)
        (now s) (NODE_ENV s).

Definition setTransactionIndex (m : gmap string Transaction.t) (s : Sys) : Sys :=
  mkSys (wallets s) (transactions s) m (transactionCounter s) (cache s) (timers s)
        (now s) (NODE_ENV s).

Definition setTransactionCounter (c : Z) (s : Sys) : Sys :=
  mkSys (wallets s) (transactions s) (transactionIndex s) c (cache s) (timers s)
        (now s) (NODE_ENV s).

Definition setCache (c : gmap string IdempotencyRecord) (s : Sys) : Sys :=
  mkSys (wallets s) (transactions s) (transactionIndex s) (transactionCounter s) c (timers s)
        (now s) (NODE_ENV s).

Definition setTimers (t : list (Z * string)) (s : Sys) : Sys :=
  mkSys (wallets s) (transactions s) (transactionIndex s) (transactionCounter s) (cache s) t
        (now s) (NODE_ENV s).

Definition setNow (t : Z) (s : Sys) : Sys :=
  mkSys (wallets s) (transactions s) (transactionIndex s) (transactionCounter s) (cache s)
        (timers s) t (NODE_ENV s).

(** What the other tasks of the process do while this one is suspended. *)
Definition Task := Sys -> Sys.

Record World := mkWorld {
  sys : Sys;
  pending : list Task;
}.

(** A fresh process in which nothing else runs. *)
Definition emptySys (t : Z) (env : option string) : Sys :=
  mkSys ∅ [] ∅ 0 ∅ [] t env.

Definition alone (s : Sys) : World := mkWorld s [].

(** ** Computations: state and exceptions *)

Definition SE (S A : Type) : Type := S -> Outcome A * S.

Definition ret {S A} (a : A) : SE S A := fun s => (Return a, s).

Definition throw {S A} (e : Error) : SE S A := fun s => (Throw e, s).

Definition bind {S A B} (m : SE S A) (k : A -> SE S B) : SE S B :=
  fun s =>
    match m s with
    | (Return a, s') => k a s'
    | (Throw e, s') => (Throw e, s')
    end.

Definition tryCatch {S A} (body : SE S A) (handler : Error -> SE S A) : SE S A :=
  fun s =>
    match body s with
    | (Throw e, s') => handler e s'
    | r => r
    end.

Definition outcome {S A} (o : Outcome A) : SE S A := fun s => (o, s).

Notation "'do' x <- m 'in' k" := (bind m (fun x => k))
  (at level 10, x name, m at level 100, k at level 200, only parsing).
Notation "'do' ' pat <- m 'in' k" := (bind m (fun x => match x with pat => k end))
  (at level 10, pat pattern, m at level 100, k at level 200, only parsing).

(** A method body without suspension point runs on the state of the
    process; an [async] method that awaits runs on the world. *)
Definition Sync (A : Type) : Type := SE Sys A.
Definition Async (A : Type) : Type := SE World A.

Definition run {A} (m : Sync A) : Async A :=
  fun w => let (r, s) := m (sys w) in (r, mkWorld s (pending w)).

(** The suspension point: the next piece of pending work of the other
    tasks runs. *)
Definition suspend (w : World) : World :=
  match pending w with
  | [] => w
  | task :: rest => mkWorld (task (sys w)) rest
  end.

(** [await p]: the call [p] runs up to its result, then this task is
    suspended, whether [p] is fulfilled or rejected. *)
Definition await {A} (p : Async A) : Async A :=
  fun w => let (r, w') := p w in (r, suspend w').

Definition newDate : Async Z := fun w => (Return (now (sys w)), w).

(** ** WalletRepository (in memory) *)

Module WalletRepository.

(** [cloneWallet]: the clone is built by the constructor, which validates
    the balance and stamps [createdAt]; [version] and [updatedAt] are
    copied. *)
Definition cloneWallet (wallet : Wallet.t) (s : Sys) : Outcome Wallet.t :=
  match Wallet.new (now s) (Wallet.id wallet) (Wallet.currency wallet) (Wallet.balance wallet) with
  | Throw e => Throw e
  | Return cloned =>
      Return (Wallet.mk (Wallet.id cloned) (Wallet.currency cloned) (Wallet.balance cloned)
                        (Wallet.version wallet) (Wallet.createdAt cloned) (Wallet.updatedAt wallet))
  end.

Definition create (wallet : Wallet.t) : Sync Wallet.t :=
  fun s =>
    match wallets s !! Wallet.id wallet with
    | Some _ => (Throw (WalletAlreadyExistsError (Wallet.id wallet)), s)
    | None =>
        match cloneWallet wallet s with
        | Throw e => (Throw e, s)
        | Return stored =>
            let s' := setWallets (<[Wallet.id wallet := stored]> (wallets s)) s in
            (cloneWallet wallet s', s')
        end
    end.

Definition findById (id : string) : Sync (option Wallet.t) :=
  fun s =>
    match wallets s !! id with
    | None => (Return None, s)
    | Some wallet =>
        match cloneWallet wallet s with
        | Throw e => (Throw e, s)
        | Return c => (Return (Some c), s)
        end
    end.

Fixpoint findByIds_loop (ids : list string) (result : gmap string Wallet.t) (s : Sys)
  : Outcome (gmap string Wallet.t) :=
  match ids with
  | [] => Return result
  | id :: rest =>
      match wallets s !! id with
      | None => findByIds_loop rest result s
      | Some wallet =>
          match cloneWallet wallet s with
          | Throw e => Throw e
          | Return c => findByIds_loop rest (<[id := c]> result) s
          end
      end
  end.

Definition findByIds (ids : list string) : Sync (gmap string Wallet.t) :=
  fun s => (findByIds_loop ids ∅ s, s).

(** [update] assigns [version] and [updatedAt] of its argument before it
    stores the clone: the result carries the argument as the caller sees
    it afterwards. *)
Definition update (wallet : Wallet.t) (expectedVersion : Z) : Sync (bool * Wallet.t) :=
  fun s =>
    match wallets s !! Wallet.id wallet with
    | None => (Return (false, wallet), s)
    | Some existingWallet =>
        if negb (Wallet.version existingWallet =? expectedVersion) then
          (Return (false, wallet), s)
        else
          let wallet' :=
            Wallet.mk (Wallet.id wallet) (Wallet.currency wallet) (Wallet.balance wallet)
                      (expectedVersion + 1) (Wallet.createdAt wallet) (now s) in
          match cloneWallet wallet' s with
          | Throw e => (Throw e, s)
          | Return stored =>
              (Return (true, wallet'),
               setWallets (<[Wallet.id wallet := stored]> (wallets s)) s)
          end
    end.

Definition delete (id : string) : Sync bool :=
  fun s =>
    match wallets s !! id with
    | None => (Return false, s)
    | Some _ => (Return true, setWallets (base.delete id (wallets s)) s)
    end.

Definition exists_ (id : string) : Sync bool :=
  fun s => (Return (bool_decide (is_Some (wallets s !! id))), s).

(** [wallets.map((w) => this.cloneWallet(w))]. *)
Fixpoint cloneAll (stored : list Wallet.t) (s : Sys) : Outcome (list Wallet.t) :=
  match stored with
  | [] => Return []
  | wallet :: rest =>
      match cloneWallet wallet s with
      | Throw e => Throw e
      | Return c =>
          match cloneAll rest s with
          | Throw e => Throw e
          | Return cs => Return (c :: cs)
          end
      end
  end.

(** [findAll] clones [Array.from(this.wallets.values())].  A [Map] is
    walked in the order of insertion, which the store of the model does not
    record: [stored] is the list of the stored wallets in that order. *)
Definition findAll (stored : list Wallet.t) : Sync (list Wallet.t) :=
  fun s => (cloneAll stored s, s).

Definition clear : Sync unit :=
  fun s => (Return tt, setWallets ∅ s).

Definition count : Sync Z :=
  fun s => (Return (Z.of_nat (size (wallets s))), s).

End WalletRepository.

(** ** TransactionRepository *)

Module TransactionRepository.

(** The class is listed in [README.md].  [this.transactions] is the log,
    oldest first, and [this.transactionIndex] the map from ids to logged
    transactions.

    [cloneTransaction] builds the clone with the constructor, at the time
    of [s]: the constructor validates again and stamps the clone. *)
Definition cloneTransaction (transaction : Transaction.t) (s : Sys) : Outcome Transaction.t :=
  Transaction.new (now s) (Transaction.id transaction) (Transaction.reference transaction)
    (Transaction.type transaction) (Transaction.sourceWalletId transaction)
    (Transaction.targetWalletId transaction) (Transaction.amount transaction)
    (Transaction.currency transaction) (Transaction.status transaction)
    (Transaction.metadata transaction).

(** A clone of the transaction is pushed to the log and set in the index
    under the id, and a clone of that clone is returned.  An id that is
    already logged is not refused: the log then holds both transactions,
    and the index the later one. *)
Definition create (transaction : Transaction.t) : Sync Transaction.t :=
  fun s =>
    match cloneTransaction transaction s with
    | Throw e => (Throw e, s)
    | Return cloned =>
        let s' :=
          setTransactionIndex (<[Transaction.id transaction := cloned]> (transactionIndex s))
            (setTransactions (transactions s ++ [cloned]) s) in
        (cloneTransaction cloned s', s')
    end.

Definition findById (id : string) : Sync (option Transaction.t) :=
  fun s =>
    match transactionIndex s !! id with
    | Some transaction =>
        match cloneTransaction transaction s with
        | Throw e => (Throw e, s)
        | Return c => (Return (Some c), s)
        end
    | None => (Return None, s)
    end.

(** [items.map((t) => this.cloneTransaction(t))]. *)
Fixpoint cloneTransactions (items : list Transaction.t) (s : Sys)
  : Outcome (list Transaction.t) :=
  match items with
  | [] => Return []
  | transaction :: rest =>
      match cloneTransaction transaction s with
      | Throw e => Throw e
      | Return c =>
          match cloneTransactions rest s with
          | Throw e => Throw e
          | Return cs => Return (c :: cs)
          end
      end
  end.

Definition findByReference (reference : string) : Sync (option Transaction.t) :=
  fun s =>
    match find (fun t => String.eqb (Transaction.reference t) reference) (transactions s) with
    | Some transaction =>
        match cloneTransaction transaction s with
        | Throw e => (Throw e, s)
        | Return c => (Return (Some c), s)
        end
    | None => (Return None, s)
    end.

(** [Array.prototype.sort(compare)] is stable: [a] comes before [b] when
    [compare(a, b) < 0], and elements that compare equal keep their order.
    The insertion of each element before the sorted rest gives that
    order. *)
Fixpoint insertSorted (compare : Transaction.t -> Transaction.t -> Z) (a : Transaction.t)
    (sorted : list Transaction.t) : list Transaction.t :=
  match sorted with
  | [] => [a]
  | b :: rest =>
      if compare a b <=? 0 then a :: sorted else b :: insertSorted compare a rest
  end.

Definition Array_sort (compare : Transaction.t -> Transaction.t -> Z)
    (items : list Transaction.t) : list Transaction.t :=
  foldr (insertSorted compare) [] items.

Definition newestFirst (a b : Transaction.t) : Z :=
  Transaction.createdAt b - Transaction.createdAt a.

Definition oldestFirst (a b : Transaction.t) : Z :=
  Transaction.createdAt a - Transaction.createdAt b.

Inductive SortOrder := asc | desc.

(** The [options] of the queries; [limit] and [offset] are counts. *)
Record QueryOptions := {
  limit : option nat;
  offset : option nat;
  sortOrder : option SortOrder;
}.

Definition findByWalletId (walletId : string) (options : option QueryOptions)
  : Sync (list Transaction.t) :=
  fun s =>
    let limit := options ≫= limit in
    let offset := default O (options ≫= offset) in
    let sortOrder := default desc (options ≫= sortOrder) in
    let filtered := List.filter (Transaction.involvesWallet walletId) (transactions s) in
    let filtered :=
      match sortOrder with
      | desc => Array_sort newestFirst filtered
      | asc => Array_sort oldestFirst filtered
      end in
    let filtered := drop offset filtered in
    let filtered :=
      match limit with
      | Some limit => take limit filtered
      | None => filtered
      end in
    (cloneTransactions filtered s, s).

(** [if (limit)]: a limit that is absent or zero does not paginate. *)
Definition findByType (type : string) (options : option QueryOptions)
  : Sync (list Transaction.t) :=
  fun s =>
    let limit := options ≫= limit in
    let offset := default O (options ≫= offset) in
    let filtered :=
      List.filter (fun t => String.eqb (TransactionType_toString (Transaction.type t)) type)
                  (transactions s) in
    let filtered :=
      match limit with
      | Some (S limit') => take (S limit') (drop offset filtered)
      | _ => filtered
      end in
    (cloneTransactions filtered s, s).

Definition findAll (options : option QueryOptions) : Sync (list Transaction.t) :=
  fun s =>
    let limit := options ≫= limit in
    let offset := default O (options ≫= offset) in
    let sortOrder := default desc (options ≫= sortOrder) in
    let result := transactions s in
    let result :=
      match sortOrder with
      | desc => Array_sort newestFirst result
      | asc => result
      end in
    let result :=
      match limit with
      | Some (S limit') => take (S limit') (drop offset result)
      | _ => result
      end in
    (cloneTransactions result s, s).

Definition countByWalletId (walletId : string) : Sync Z :=
  fun s =>
    (Return (Z.of_nat (length (List.filter (Transaction.involvesWallet walletId)
                                           (transactions s)))), s).

(** [findIndex] and [splice(index, 1)]: the first logged transaction
    with the id leaves the log. *)
Fixpoint removeFirst (id : string) (log : list Transaction.t) : option (list Transaction.t) :=
  match log with
  | [] => None
  | t :: rest =>
      if String.eqb (Transaction.id t) id then Some rest
      else match removeFirst id rest with
           | Some rest' => Some (t :: rest')
           | None => None
           end
  end.

Definition delete (id : string) : Sync bool :=
  fun s =>
    match removeFirst id (transactions s) with
    | None => (Return false, s)
    | Some log =>
        (Return true,
         setTransactionIndex (base.delete id (transactionIndex s)) (setTransactions log s))
    end.

Definition clear : Sync unit :=
  fun s => (Return tt, setTransactionIndex ∅ (setTransactions [] s)).

Definition count : Sync Z :=
  fun s => (Return (Z.of_nat (length (transactions s))), s).

End TransactionRepository.

(** ** TransactionService *)

(** What one operation draws from outside the process: the result of
    [uuidv4()] and the string [Math.random().toString(36)]. *)
Record Entropy := {
  uuid : string;
  random36 : string;
}.

Module TransactionService.

(** [.replace(/[-:T.Z]/g, '')]. *)
Fixpoint removeSeparators (s : string) : string :=
  match s with
  | EmptyString => EmptyString
  | String c r =>
      if existsb (Ascii.eqb c) ["-"; ":"; "T"; "."; "Z"]%char then removeSeparators r
      else String c (removeSeparators r)
  end.

Definition generateTransactionReference (rnd : Entropy) : Sync string :=
  fun s =>
    let timestamp := substring (removeSeparators (Date_toISOString (now s))) 0 14 in
    let transactionCounter' := Z.rem (transactionCounter s) 1000 + 1 in
    let counter := padStart0 3 (pretty transactionCounter') in
    let random := toUpperCase (substring (random36 rnd) 2 6) in
    (Return ("TXN-" +:+ timestamp +:+ "-" +:+ counter +:+ "-" +:+ random),
     setTransactionCounter transactionCounter' s).

Definition createFundingTransaction (rnd : Entropy) (targetWalletId : string) (amount : Q)
    (currency : string) (metadata : option JSON) : Async Transaction.t :=
  do reference <- run (generateTransactionReference rnd) in
  do date <- newDate in
  do transaction <- outcome (Transaction.new date (uuid rnd) reference FUNDING None
                               targetWalletId amount currency COMPLETED metadata) in
  do created <- await (run (TransactionRepository.create transaction)) in
  ret created.

Definition createTransferTransaction (rnd : Entropy) (sourceWalletId targetWalletId : string)
    (amount : Q) (currency : string) (metadata : option JSON) : Async Transaction.t :=
  do reference <- run (generateTransactionReference rnd) in
  do date <- newDate in
  do transaction <- outcome (Transaction.new date (uuid rnd) reference TRANSFER
                               (Some sourceWalletId) targetWalletId amount currency
                               COMPLETED metadata) in
  do created <- await (run (TransactionRepository.create transaction)) in
  ret created.

Definition getWalletTransactions (walletId : string)
    (options : option TransactionRepository.QueryOptions) : Async (list Transaction.t) :=
  await (run (TransactionRepository.findByWalletId walletId options)).

Definition countWalletTransactions (walletId : string) : Async Z :=
  await (run (TransactionRepository.countByWalletId walletId)).

Definition mapToTransactionResponse (transaction : Transaction.t) : TransactionResponseDto :=
  {| tr_id := Transaction.id transaction;
     tr_reference := Transaction.reference transaction;
     tr_type := TransactionType_toString (Transaction.type transaction);
     tr_sourceWalletId := Transaction.sourceWalletId transaction;
     tr_targetWalletId := Transaction.targetWalletId transaction;
     tr_amount := Transaction.amount transaction;
     tr_currency := Transaction.currency transaction;
     tr_status := TransactionStatus_toString (Transaction.status transaction);
     tr_metadata := Transaction.metadata transaction;
     tr_createdAt := Date_toISOString (Transaction.createdAt transaction);
     tr_updatedAt := Date_toISOString (Transaction.updatedAt transaction) |}.

End TransactionService.

(** ** IdempotencyService *)

Module IdempotencyService.

Definition TTL_MS : Z := 24 * 60 * 60 * 1000.

Fixpoint sortObjectKeys (obj : JSON) : JSON :=
  match obj with
  | JArray items => JArray (map sortObjectKeys items)
  | JObject props =>
      JObject (ownProperties (sortProps (map (fun p => (fst p, sortObjectKeys (snd p))) props)))
  | _ => obj
  end.

Definition generateHash (idempotencyKey operation : string) (requestData : JSON) : string :=
  let sortedData := sortObjectKeys requestData in
  let dataString := JSON_stringify sortedData in
  let input := idempotencyKey +:+ "|" +:+ operation +:+ "|" +:+ dataString in
  Sha256.digest input.

Definition requestDataMatches (data1 data2 : JSON) : bool :=
  String.eqb (JSON_stringify (sortObjectKeys data1)) (JSON_stringify (sortObjectKeys data2)).

Definition cleanupExpired (hash : string) (s : Sys) : Sys :=
  match cache s !! hash with
  | Some record =>
      if ir_expiresAt record <? now s then setCache (base.delete hash (cache s)) s else s
  | None => s
  end.

(** The cleanup is scheduled with [setTimeout] unless the process runs
    under test; the callback is called with the idempotency key. *)
Definition cacheResponse (hash idempotencyKey operation : string) (requestData : JSON)
    (response : Response) : Sync unit :=
  fun s =>
    let expiresAt := now s + TTL_MS in
    let record :=
      {| ir_key := idempotencyKey; ir_operation := operation; ir_hash := hash;
         ir_requestData := requestData; ir_response := response;
         ir_createdAt := now s; ir_expiresAt := expiresAt |} in
    let s1 := setCache (<[hash := record]> (cache s)) s in
    let s2 :=
      if bool_decide (NODE_ENV s = Some "test") then s1
      else setTimers (timers s1 ++ [(now s + TTL_MS, idempotencyKey)]) s1 in
    (Return tt, s2).

Definition processWithIdempotency (idempotencyKey operation : string) (requestData : JSON)
    (fn : Async Response) : Async Response :=
  fun w =>
    let hash := generateHash idempotencyKey operation requestData in
    match cache (sys w) !! hash with
    | Some cached =>
        if negb (requestDataMatches requestData (ir_requestData cached)) then
          throw (DuplicateTransactionError idempotencyKey (ir_requestData cached)) w
        else ret (ir_response cached) w
    | None =>
        tryCatch
          (do response <- await fn in
           do _ <- run (cacheResponse hash idempotencyKey operation requestData response) in
           ret response)
          (fun error => throw error) w
    end.

(** [getCached] walks [this.cache.values()] and returns the response of
    the first record of the key that has not expired.  A [Map] is walked in
    the order of insertion, which the cache of the model does not record:
    [records] is the list of the cached records in that order. *)
Definition getCached (records : list IdempotencyRecord) (idempotencyKey : string)
  : Sync (option Response) :=
  fun s =>
    (Return (ir_response <$>
               find (fun record =>
                       String.eqb (ir_key record) idempotencyKey
                       && (now s <? ir_expiresAt record))
                    records),
     s).

Definition clear : Sync unit :=
  fun s => (Return tt, setCache ∅ s).

Definition count : Sync Z :=
  fun s => (Return (Z.of_nat (size (cache s))), s).

End IdempotencyService.

(** ** Timers

    The event loop runs the callbacks of the timeouts that are due. *)

Definition runTimers (s : Sys) : Sys :=
  let due := filter (fun t => fst t <= now s) (timers s) in
  let later := filter (fun t => ~ fst t <= now s) (timers s) in
  foldl (fun s' t => IdempotencyService.cleanupExpired (snd t) s') (setTimers later s) due.

(** The clock advances by [ms] milliseconds. *)
Definition advanceClock (ms : Z) : Task :=
  fun s => runTimers (setNow (now s + ms) s).

(** ** WalletService *)

Module WalletService.

Definition MAX_RETRY_ATTEMPTS : Z := 3.

Definition MAX_AMOUNT : Num := ofZ 1000000.

Definition mapToWalletResponse (wallet : Wallet.t) : WalletResponseDto :=
  {| wr_id := Wallet.id wallet;
     wr_currency := Currency_toString (Wallet.currency wallet);
     wr_balance := Wallet.balance wallet;
     wr_version := Wallet.version wallet;
     wr_createdAt := Date_toISOString (Wallet.createdAt wallet);
     wr_updatedAt := Date_toISOString (Wallet.updatedAt wallet) |}.

Definition validateAmount (amount : Num) : Outcome unit :=
  if Qle_bool (value amount) 0 then
    Throw (InvalidTransactionAmountError amount "Amount must be positive")
  else if Qltb (value MAX_AMOUNT) (value amount) then
    Throw (InvalidTransactionAmountError amount
             ("Amount cannot exceed " +:+ Number_toString MAX_AMOUNT))
  else
    let decimals :=
      String.length (nth 1 (String_split "." (Number_toString amount)) EmptyString) in
    if (2 <? decimals)%nat then
      Throw (InvalidTransactionAmountError amount
               "Amount cannot have more than 2 decimal places")
    else Return tt.

Definition getWalletOrThrow (walletId : string) : Async Wallet.t :=
  do wallet <- await (run (WalletRepository.findById walletId)) in
  match wallet with
  | None => throw (WalletNotFoundError walletId)
  | Some wallet => ret wallet
  end.

(** [uuidv4()] is [walletId]. *)
Definition createWallet (walletId : string) (dto : CreateWalletDto)
  : Async WalletResponseDto :=
  do date <- newDate in
  do wallet <- outcome (Wallet.new date walletId
                          (default USD (cw_currency dto))
                          (default 0%Q (cw_initialBalance dto))) in
  do createdWallet <- await (run (WalletRepository.create wallet)) in
  ret (mapToWalletResponse createdWallet).

(** The [catch] blocks of [executeFunding] and [executeTransfer] reset
    the fields of the local wallet objects, which nothing reads
    afterwards, and rethrow. *)
Definition executeFunding (rnd : Entropy) (walletId : string) (dto : FundWalletDto)
  : Async WalletResponseDto :=
  do wallet <- await (getWalletOrThrow walletId) in
  let originalVersion := Wallet.version wallet in
  tryCatch
    (do date <- newDate in
     do wallet <- outcome (Wallet.fund date (value (fw_amount dto)) wallet) in
     do '(updated, wallet) <- await (run (WalletRepository.update wallet originalVersion)) in
     if negb updated then throw (ConcurrentModificationError "Wallet" walletId)
     else
       do _ <- await (TransactionService.createFundingTransaction rnd walletId
                        (value (fw_amount dto)) (Currency_toString (Wallet.currency wallet))
                        (fw_metadata dto)) in
       ret (mapToWalletResponse wallet))
    (fun error => throw error).

Definition fundWallet (rnd : Entropy) (walletId : string) (dto : FundWalletDto)
  : Async Response :=
  do _ <- outcome (validateAmount (fw_amount dto)) in
  await (IdempotencyService.processWithIdempotency
           (fw_idempotencyKey dto) "FUND_WALLET"
           (JObject [("walletId", JString walletId); ("amount", JNumber (fw_amount dto))])
           (do r <- executeFunding rnd walletId dto in ret (WalletResponse r))).

(** The rollback catches what its update throws; what the update
    returns is not looked at. *)
Definition rollbackSourceWallet (sourceWallet : Wallet.t) (originalBalance : Q)
    (currentVersion : Z) : Async unit :=
  tryCatch
    (let sourceWallet := Wallet.assign originalBalance currentVersion sourceWallet in
     do _ <- await (run (WalletRepository.update sourceWallet currentVersion)) in
     ret tt)
    (fun error => ret tt).

Definition executeTransfer (rnd : Entropy) (sourceWalletId : string) (dto : TransferFundsDto)
  : Async TransferResponseDto :=
  let amount := value (tf_amount dto) in
  do found <- await (run (WalletRepository.findByIds [sourceWalletId; tf_targetWalletId dto])) in
  match found !! sourceWalletId, found !! tf_targetWalletId dto with
  | None, _ => throw (WalletNotFoundError sourceWalletId)
  | Some _, None => throw (WalletNotFoundError (tf_targetWalletId dto))
  | Some sourceWallet, Some targetWallet =>
      if negb (Wallet.hasSufficientBalance amount sourceWallet) then
        throw (InsufficientBalanceError sourceWalletId amount (Wallet.balance sourceWallet))
      else
        let sourceOriginalVersion := Wallet.version sourceWallet in
        let sourceOriginalBalance := Wallet.balance sourceWallet in
        let targetOriginalVersion := Wallet.version targetWallet in
        tryCatch
          (do date <- newDate in
           do sourceWallet <- outcome (Wallet.deduct date amount sourceWallet) in
           do '(sourceUpdated, sourceWallet) <-
                await (run (WalletRepository.update sourceWallet sourceOriginalVersion)) in
           if negb sourceUpdated then
             throw (ConcurrentModificationError "Wallet" sourceWalletId)
           else
             do date <- newDate in
             do targetWallet <- outcome (Wallet.fund date amount targetWallet) in
             do '(targetUpdated, targetWallet) <-
                  await (run (WalletRepository.update targetWallet targetOriginalVersion)) in
             if negb targetUpdated then
               do _ <- await (rollbackSourceWallet sourceWallet sourceOriginalBalance
                                (sourceOriginalVersion + 1)) in
               throw (ConcurrentModificationError "Wallet" (tf_targetWalletId dto))
             else
               do transaction <-
                    await (TransactionService.createTransferTransaction rnd sourceWalletId
                             (tf_targetWalletId dto) amount
                             (Currency_toString (Wallet.currency sourceWallet))
                             (tf_metadata dto)) in
               ret {| sourceWallet := mapToWalletResponse sourceWallet;
                      targetWallet := mapToWalletResponse targetWallet;
                      transaction := TransactionService.mapToTransactionResponse transaction |})
          (fun error => throw error)
  end.

(** [setTimeout(resolve, ms)]: the promise resolves once the clock has
    advanced by [ms]. *)
Definition sleep (ms : Z) : Async unit :=
  fun w => (Return tt, mkWorld (advanceClock ms (sys w)) (pending w)).

(** The recursion of [executeTransferWithRetry] is on [attempt], which
    grows up to [MAX_RETRY_ATTEMPTS]; [remaining] bounds the attempts
    that can still follow this one. *)
Fixpoint executeTransferWithRetry_from (remaining : nat) (rnd : Entropy)
    (sourceWalletId : string) (dto : TransferFundsDto) (attempt : Z)
  : Async TransferResponseDto :=
  tryCatch
    (await (executeTransfer rnd sourceWalletId dto))
    (fun error =>
       if isConcurrentModificationError error && (attempt <? MAX_RETRY_ATTEMPTS) then
         match remaining with
         | S remaining' =>
             let backoffMs := attempt * 10 in
             do _ <- await (sleep backoffMs) in
             executeTransferWithRetry_from remaining' rnd sourceWalletId dto (attempt + 1)
         | O => throw error
         end
       else throw error).

Definition executeTransferWithRetry (rnd : Entropy) (sourceWalletId : string)
    (dto : TransferFundsDto) (attempt : Z) : Async TransferResponseDto :=
  executeTransferWithRetry_from (Z.to_nat (MAX_RETRY_ATTEMPTS - attempt))
    rnd sourceWalletId dto attempt.

Definition transferFunds (rnd : Entropy) (sourceWalletId : string) (dto : TransferFundsDto)
  : Async Response :=
  do _ <- outcome (validateAmount (tf_amount dto)) in
  if String.eqb sourceWalletId (tf_targetWalletId dto) then
    throw (SameWalletTransferError sourceWalletId)
  else
    await (IdempotencyService.processWithIdempotency
             (tf_idempotencyKey dto) "TRANSFER_FUNDS"
             (JObject [("sourceWalletId", JString sourceWalletId);
                       ("targetWalletId", JString (tf_targetWalletId dto));
                       ("amount", JNumber (tf_amount dto))])
             (do r <- executeTransferWithRetry rnd sourceWalletId dto 1 in
              ret (TransferResponse r))).

Definition getWalletDetails (walletId : string) : Async WalletDetailsResponseDto :=
  do wallet <- await (getWalletOrThrow walletId) in
  do transactions <-
       await (TransactionService.getWalletTransactions walletId
                (Some {| TransactionRepository.limit := Some 50%nat;
                         TransactionRepository.offset := None;
                         TransactionRepository.sortOrder := Some TransactionRepository.desc |})) in
  do totalTransactions <- await (TransactionService.countWalletTransactions walletId) in
  ret {| wd_wallet := mapToWalletResponse wallet;
         wd_transactions := map TransactionService.mapToTransactionResponse transactions;
         wd_totalTransactions := totalTransactions |}.

Definition getWallet (walletId : string) : Async WalletResponseDto :=
  do wallet <- await (getWalletOrThrow walletId) in
  ret (mapToWalletResponse wallet).

(** [stored] is the list that [findAll] walks. *)
Definition listWallets (stored : list Wallet.t) : Async (list WalletResponseDto) :=
  do wallets <- await (run (WalletRepository.findAll stored)) in
  ret (map mapToWalletResponse wallets).

End WalletService.

(** * Vocabulary of the statements *)

(** ** The ledger store *)

(** The clone of a wallet at the time of [s]. *)
Definition cloneOf (wallet : Wallet.t) (s : Sys) : Wallet.t :=
  Wallet.mk (Wallet.id wallet) (Wallet.currency wallet) (Wallet.balance wallet)
            (Wallet.version wallet) (now s) (Wallet.updatedAt wallet).

(** The argument of [update] as the caller sees it after a successful
    update at the time of [s]. *)
Definition updated (wallet : Wallet.t) (expectedVersion : Z) (s : Sys) : Wallet.t :=
  Wallet.mk (Wallet.id wallet) (Wallet.currency wallet) (Wallet.balance wallet)
            (expectedVersion + 1) (Wallet.createdAt wallet) (now s).

(** The version check of [update]. *)
Definition versionMatches (wallet : Wallet.t) (expectedVersion : Z) (s : Sys) : Prop :=
  exists existingWallet,
    wallets s !! Wallet.id wallet = Some existingWallet /\
    Wallet.version existingWallet = expectedVersion.

#[global] Instance versionMatches_dec wallet expectedVersion s :
  Decision (versionMatches wallet expectedVersion s).
Proof.
  unfold versionMatches.
  destruct (wallets s !! Wallet.id wallet) as [e|] eqn:E.
  - destruct (decide (Wallet.version e = expectedVersion)) as [Hv|Hv].
    + left. eauto.
    + right. intros (e' & He' & Hv'). congruence.
  - right. intros (e' & He' & _). discriminate.
Defined.

(** A run of [update] calls, counting the successful updates of the
    wallet [id]. *)
Fixpoint applyUpdates (id : string) (calls : list (Wallet.t * Z)) (s : Sys) : nat * Sys :=
  match calls with
  | [] => (O, s)
  | (wallet, expectedVersion) :: rest =>
      let (r, s') := WalletRepository.update wallet expectedVersion s in
      let (n, s'') := applyUpdates id rest s' in
      (match r with
       | Return (true, _) => if String.eqb (Wallet.id wallet) id then S n else n
       | _ => n
       end, s'')
  end.

(** ** Balances *)

(** A property of every stored wallet, under the key it is stored
    at. *)
Definition Holds (P : string -> Wallet.t -> Prop) (s : Sys) : Prop :=
  forall id wallet, wallets s !! id = Some wallet -> P id wallet.

(** The other tasks keep it so. *)
Definition keeps (P : string -> Wallet.t -> Prop) (task : Task) : Prop :=
  forall s, Holds P s -> Holds P (task s).

Definition Safe (P : string -> Wallet.t -> Prop) (w : World) : Prop :=
  Holds P (sys w) /\ Forall (keeps P) (pending w).

Definition preservesHolds (P : string -> Wallet.t -> Prop) {A} (m : Sync A) : Prop :=
  forall s, Holds P s -> Holds P (snd (m s)).

Definition preservesSafe (P : string -> Wallet.t -> Prop) {A} (m : Async A) : Prop :=
  forall w, Safe P w -> Safe P (snd (m w)).

(** Every stored wallet has a balance of at least zero. *)
Definition nonNegative : string -> Wallet.t -> Prop :=
  fun _ wallet => (0 <= Wallet.balance wallet)%Q.

Definition NonNegative : Sys -> Prop := Holds nonNegative.

(** Every wallet is stored under its id. *)
Definition keyed : string -> Wallet.t -> Prop :=
  fun id wallet => Wallet.id wallet = id.

Definition WellKeyed : Sys -> Prop := Holds keyed.

(** The operations of the service that change the state. *)
Inductive Operation :=
| CreateWallet (walletId : string) (dto : CreateWalletDto)
| FundWallet (rnd : Entropy) (walletId : string) (dto : FundWalletDto)
| TransferFunds (rnd : Entropy) (sourceWalletId : string) (dto : TransferFundsDto).

(** The world after an operation, whether it returns or throws. *)
Definition perform (op : Operation) (w : World) : World :=
  match op with
  | CreateWallet walletId dto => snd (WalletService.createWallet walletId dto w)
  | FundWallet rnd walletId dto => snd (WalletService.fundWallet rnd walletId dto w)
  | TransferFunds rnd sourceWalletId dto =>
      snd (WalletService.transferFunds rnd sourceWalletId dto w)
  end.

Definition performAll (ops : list Operation) (w : World) : World :=
  foldl (fun w op => perform op w) w ops.


(** ** Idempotent requests *)

(** The parameters under which [fundWallet] and [transferFunds] register
    a request, and the fingerprints of the requests. *)
Definition fundRequest (walletId : string) (dto : FundWalletDto) : JSON :=
  JObject [("walletId", JString walletId); ("amount", JNumber (fw_amount dto))].

Definition transferRequest (sourceWalletId : string) (dto : TransferFundsDto) : JSON :=
  JObject [("sourceWalletId", JString sourceWalletId);
           ("targetWalletId", JString (tf_targetWalletId dto));
           ("amount", JNumber (tf_amount dto))].

Definition fundHash (walletId : string) (dto : FundWalletDto) : string :=
  IdempotencyService.generateHash (fw_idempotencyKey dto) "FUND_WALLET" (fundRequest walletId dto).

Definition transferHash (sourceWalletId : string) (dto : TransferFundsDto) : string :=
  IdempotencyService.generateHash (tf_idempotencyKey dto) "TRANSFER_FUNDS"
    (transferRequest sourceWalletId dto).

(** The state after [cacheResponse]. *)
Definition cached (key operation : string) (requestData : JSON) (response : Response) (w : World)
  : World :=
  mkWorld
    (snd (IdempotencyService.cacheResponse
            (IdempotencyService.generateHash key operation requestData)
            key operation requestData response (sys w)))
    (pending w).

(** ** Worlds of the examples

    A process started at 2025-01-15T12:30:45Z in which two wallets are
    created: [alice] with an initial balance of 50 and [bob] with none. *)

Definition startTime : Z := 1736944245000.

Definition world0 : World := alone (emptySys startTime None).

Definition openAccounts : list Operation :=
  [ CreateWallet "alice" {| cw_currency := None; cw_initialBalance := Some 50%Q |};
    CreateWallet "bob" {| cw_currency := Some USD; cw_initialBalance := None |} ].

Definition world1 : World := performAll openAccounts world0.

Definition entropy1 : Entropy := {| uuid := "tx-0001"; random36 := "0.a7f3k2m9" |}.
Definition entropy2 : Entropy := {| uuid := "tx-0002"; random36 := "0.zz91q0b4" |}.
Definition entropy3 : Entropy := {| uuid := "tx-0003"; random36 := "0.4kd82hs1" |}.

Definition transferTo (target : string) (amount : Num) (key : string) : TransferFundsDto :=
  {| tf_targetWalletId := target; tf_amount := amount; tf_idempotencyKey := key;
     tf_metadata := None |}.

Definition fundOf (amount : Num) (key : string) : FundWalletDto :=
  {| fw_amount := amount; fw_idempotencyKey := key; fw_metadata := None |}.

(** ** Transfers *)

(** The source and the target as a committed transfer stores them. *)
Definition debit (amount : Q) (wallet : Wallet.t) (s : Sys) : Wallet.t :=
  Wallet.mk (Wallet.id wallet) (Wallet.currency wallet) (Wallet.balance wallet - amount)
            (Wallet.version wallet + 1) (now s) (now s).

Definition credit (amount : Q) (wallet : Wallet.t) (s : Sys) : Wallet.t :=
  Wallet.mk (Wallet.id wallet) (Wallet.currency wallet) (Wallet.balance wallet + amount)
            (Wallet.version wallet + 1) (now s) (now s).

(** [m'] is the store of [s] after [amount] has moved from [source] to
    [target]: both wallets are stored, the amount is positive and covered
    by the balance of the source, and nothing but the two wallets differs. *)
Definition committed (source target : string) (amount : Q) (s : Sys)
    (m' : gmap string Wallet.t) : Prop :=
  exists sw tw,
    wallets s !! source = Some sw /\ wallets s !! target = Some tw /\
    (0 < amount)%Q /\ (amount <= Wallet.balance sw)%Q /\
    m' = <[target := credit amount tw s]> (<[source := debit amount sw s]> (wallets s)).

(** Nothing but the transaction log and its counter differs. *)
Definition unchangedButLog (s s' : Sys) : Prop :=
  wallets s' = wallets s /\ cache s' = cache s /\ timers s' = timers s /\
  now s' = now s /\ NODE_ENV s' = NODE_ENV s.

(** ** Runs without interleaving *)

(** A computation started with nothing pending ends with nothing pending. *)
Definition quiet {A} (m : Async A) : Prop :=
  forall w, pending w = [] -> pending (snd (m w)) = [].

(** ** References *)

Definition isDigit (c : ascii) : bool :=
  let n := nat_of_ascii c in (48 <=? n)%nat && (n <=? 57)%nat.

Definition isUpperAlnum (c : ascii) : bool :=
  let n := nat_of_ascii c in isDigit c || ((65 <=? n)%nat && (n <=? 90)%nat).

Fixpoint allChars (p : ascii -> bool) (s : string) : bool :=
  match s with
  | EmptyString => true
  | String c r => p c && allChars p r
  end.

(** The pattern [PREFIX-14digits-3digits-4alnum] with the prefix [TXN]:
    27 characters. *)
Definition matchesReferenceFormat (ref : string) : bool :=
  (String.length ref =? 27)%nat &&
  String.eqb (substring ref 0 4) "TXN-" &&
  allChars isDigit (substring ref 4 18) &&
  String.eqb (substring ref 18 19) "-" &&
  allChars isDigit (substring ref 19 22) &&
  String.eqb (substring ref 22 23) "-" &&
  allChars isUpperAlnum (substring ref 23 27).

(** ** Worlds of the examples, continued *)

(** [bob] is funded with 100 under the key [k1]. *)
Definition funded : Outcome Response * World :=
  WalletService.fundWallet entropy1 "bob" (fundOf (ofZ 100) "k1") world1.

(** More than 24 hours later, the timeouts that are due having run. *)
Definition dayLater : World :=
  mkWorld (advanceClock (IdempotencyService.TTL_MS + 1) (sys (snd funded))) [].

(** The references of [n] transactions created one after the other, the
    random part being that of [rnd] each time. *)
Fixpoint generateReferences (n : nat) (rnd : Entropy) (s : Sys) : list string * Sys :=
  match n with
  | O => ([], s)
  | S n' =>
      match TransactionService.generateTransactionReference rnd s with
      | (Return reference, s') =>
          let (rest, s'') := generateReferences n' rnd s' in (reference :: rest, s'')
      | (Throw _, s') => ([], s')
      end
  end.

(** ** Interleavings *)

(** The world in which the next attempt of a transfer starts after the
    attempt number [attempt] was rejected in [w]: the rejection is awaited,
    the backoff of [attempt * 10] milliseconds passes and is awaited. *)
Definition backoff (attempt : Z) (w : World) : World :=
  suspend (snd (WalletService.sleep (attempt * 10) (suspend w))).

(** Another task runs the whole of [op] while this one is suspended. *)
Definition during {A} (op : Async A) : Task :=
  fun s => sys (snd (op (alone s))).

(** What the source is stored as by the first update of a transfer
    committed in [s]. *)
Definition deducted (amount : Q) (wallet : Wallet.t) (s : Sys) : gmap string Wallet.t :=
  <[Wallet.id wallet := debit amount wallet s]> (wallets s).


(** While an operation that credits [bob] is suspended after its fetch,
    [bob] is funded with 5, and nothing else happens. *)
Definition overtaken : World :=
  mkWorld (sys world1)
    [ during (WalletService.fundWallet entropy1 "bob" (fundOf (ofZ 5) "k-bob")) ].




(** What the source is stored as by a rollback applied in [s]: the balance
    of before the transfer at the third version. *)
Definition restored (wallet : Wallet.t) (s : Sys) : gmap string Wallet.t :=
  <[Wallet.id wallet :=
      Wallet.mk (Wallet.id wallet) (Wallet.currency wallet) (Wallet.balance wallet)
                (Wallet.version wallet + 1 + 1) (now s) (now s)]> (wallets s).

(** While a transfer from [alice] is suspended after the fetch of its first
    attempt, [alice] is funded with 1; while it is suspended after the fetch
    of its second attempt, [alice] is funded with 2.  Nothing else happens
    at the three suspension points in between. *)
Definition contended : World :=
  mkWorld (sys world1)
    [ during (WalletService.fundWallet entropy1 "alice" (fundOf (ofZ 1) "k-one"));
      (fun s => s); (fun s => s); (fun s => s);
      during (WalletService.fundWallet entropy2 "alice" (fundOf (ofZ 2) "k-two")) ].

(** ** Enumerations of the maps *)

(** [stored] lists the wallets of the store, each once, in some order:
    what [this.wallets.values()] can yield in [s]. *)
Definition enumerates (stored : list Wallet.t) (s : Sys) : Prop :=
  stored ≡ₚ (map_to_list (wallets s)).*2.

(** [records] lists the records of the cache, each once, in some order:
    what [this.cache.values()] can yield in [s]. *)
Definition enumeratesCache (records : list IdempotencyRecord) (s : Sys) : Prop :=
  records ≡ₚ (map_to_list (cache s)).*2.
(** ** The transaction log *)

(** What the constructor of [Transaction] accepts: a positive amount, no
    source for a funding and a source for a transfer. *)
Definition accepted (tx : Transaction.t) : bool :=
  negb (Qle_bool (Transaction.amount tx) 0) &&
  match Transaction.validateTransactionType (Transaction.type tx)
          (Transaction.sourceWalletId tx) with
  | Return _ => true
  | Throw _ => false
  end.

(** The clone of a transaction at the time of [s]. *)
Definition copyOf (tx : Transaction.t) (s : Sys) : Transaction.t :=
  Transaction.mk (Transaction.id tx) (Transaction.reference tx) (Transaction.type tx)
    (Transaction.sourceWalletId tx) (Transaction.targetWalletId tx) (Transaction.amount tx)
    (Transaction.currency tx) (Transaction.status tx) (Transaction.metadata tx) (now s) (now s).

(** The order of a history: newest first unless [asc] is asked for. *)
Definition precedes (order : option TransactionRepository.SortOrder) (a b : Transaction.t)
  : Prop :=
  match default TransactionRepository.desc order with
  | TransactionRepository.desc => Transaction.createdAt b <= Transaction.createdAt a
  | TransactionRepository.asc => Transaction.createdAt a <= Transaction.createdAt b
  end.

(** The transactions created at [time]. *)
Definition createdAtTime (time : Z) (tx : Transaction.t) : bool :=
  Transaction.createdAt tx =? time.

(** One second later, the timeouts that are due having run. *)
Definition aSecondLater (w : World) : World :=
  alone (advanceClock 1000 (sys w)).

(** [bob] is funded with 100; a second later 20 are transferred from
    [alice] to [bob]; a second later [alice] is funded with 5. *)
Definition history : World :=
  let w1 := snd (WalletService.fundWallet entropy1 "bob" (fundOf (ofZ 100) "k1") world1) in
  let w2 := snd (WalletService.transferFunds entropy2 "alice" (transferTo "bob" (ofZ 20) "k2")
                   (aSecondLater w1)) in
  snd (WalletService.fundWallet entropy3 "alice" (fundOf (ofZ 5) "k3") (aSecondLater w2)).
(** ** Characters of printed numbers *)

(** A digit of [Number.prototype.toString(36)]: [0-9a-z]. *)
Definition isBase36Digit (c : ascii) : bool :=
  let n := nat_of_ascii c in isDigit c || ((97 <=? n)%nat && (n <=? 122)%nat).

Definition isNot (sep : ascii) (c : ascii) : bool := negb (Ascii.eqb c sep).

(** [Date.prototype.getUTCFullYear]. *)
Definition Date_getUTCFullYear (t : Z) : Z :=
  fst (fst (civilFromDays (t / msPerDay))).

(** The counters of [n] references made one after the other from the
    counter state [c]. *)
Fixpoint countersFrom (n : nat) (c : Z) : list Z :=
  match n with
  | O => []
  | S n' => let c' := Z.rem c 1000 + 1 in c' :: countersFrom n' c'
  end.

(** The reference made at the time of [s] with the counter [counter]. *)
Definition referenceOf (rnd : Entropy) (s : Sys) (counter : Z) : string :=
  "TXN-" +:+ substring (TransactionService.removeSeparators (Date_toISOString (now s))) 0 14
  +:+ "-" +:+ padStart0 3 (pretty counter)
  +:+ "-" +:+ toUpperCase (substring (random36 rnd) 2 6).

(** [n] decimal digits. *)
Definition isDigits (n : nat) (s : string) : bool :=
  allChars isDigit s && (String.length s =? n)%nat.
(** ** Properties of the state that every operation keeps *)

(** The other tasks keep the property [Inv] of the state. *)
Definition maintains (Inv : Sys -> Prop) (task : Task) : Prop :=
  forall s, Inv s -> Inv (task s).

Definition Steady (Inv : Sys -> Prop) (w : World) : Prop :=
  Inv (sys w) /\ Forall (maintains Inv) (pending w).

Definition steadySync (Inv : Sys -> Prop) {A} (m : Sync A) : Prop :=
  forall s, Inv s -> Inv (snd (m s)).

Definition steady (Inv : Sys -> Prop) {A} (m : Async A) : Prop :=
  forall w, Steady Inv w -> Steady Inv (snd (m w)).

(** Every transaction of the log is one that the constructor accepts. *)
Definition LogAccepted (s : Sys) : Prop :=
  forallb accepted (transactions s) = true.

(** The record that [cacheResponse] files at the time [time]. *)
Definition recordOf (key operation : string) (requestData : JSON) (response : Response)
    (time : Z) : IdempotencyRecord :=
  {| ir_key := key; ir_operation := operation;
     ir_hash := IdempotencyService.generateHash key operation requestData;
     ir_requestData := requestData; ir_response := response;
     ir_createdAt := time; ir_expiresAt := time + IdempotencyService.TTL_MS |}.

(** Every record of the cache is filed under the fingerprint of its own
    key, operation and request data, and expires 24 hours after its
    creation. *)
Definition Fingerprinted (s : Sys) : Prop :=
  forall hash record,
    cache s !! hash = Some record ->
    hash = IdempotencyService.generateHash (ir_key record) (ir_operation record)
             (ir_requestData record) /\
    ir_hash record = hash /\
    ir_expiresAt record = ir_createdAt record + IdempotencyService.TTL_MS.

(** What is hashed for a request. *)
Definition fingerprintInput (key operation : string) (requestData : JSON) : string :=
  key +:+ "|" +:+ operation +:+ "|" +:+
  JSON_stringify (IdempotencyService.sortObjectKeys requestData).

(** The log of [s] starts with [log]. *)
Definition LogExtends (log : list Transaction.t) (s : Sys) : Prop :=
  exists appended, transactions s = log ++ appended.

(** * Verification *)

(** ** Evaluation *)

(** The value an expression computes to is given as the witness. *)
Ltac exists_returned :=
  match goal with
  | |- exists r, ?t = Return r /\ _ =>
      let v := eval vm_compute in t in
      match v with
      | Return ?x => exists x; split; [vm_compute; reflexivity|]
      end
  end.

Lemma pair_of_fst {A B} (p : A * B) (a : A) : fst p = a -> p = (a, snd p).
Proof. destruct p as [x y]. simpl. intros ->. reflexivity. Qed.


Lemma versionMatches_decide wallet expectedVersion s :
  bool_decide (versionMatches wallet expectedVersion s) = true ->
  versionMatches wallet expectedVersion s.
Proof. apply bool_decide_eq_true_1. Qed.

Lemma not_versionMatches_decide wallet expectedVersion s :
  bool_decide (versionMatches wallet expectedVersion s) = false ->
  ~ versionMatches wallet expectedVersion s.
Proof. apply bool_decide_eq_false_1. Qed.


(** ** Comparisons of rationals *)

Lemma Qltb_true (x y : Q) : Qltb x y = true <-> (x < y)%Q.
Proof.
  unfold Qltb. rewrite negb_true_iff. split.
  - intros H. apply Qnot_le_lt. intros Hle. apply Qle_bool_iff in Hle. congruence.
  - intros H. destruct (Qle_bool y x) eqn:E; [|reflexivity].
    apply Qle_bool_iff in E. exfalso. exact (Qlt_not_le _ _ H E).
Qed.

Lemma Qltb_false (x y : Q) : Qltb x y = false <-> (y <= x)%Q.
Proof.
  unfold Qltb. rewrite negb_false_iff. apply Qle_bool_iff.
Qed.

Lemma Qle_bool_false (x y : Q) : Qle_bool x y = false <-> (y < x)%Q.
Proof.
  split.
  - intros H. apply Qnot_le_lt. intros Hle. apply Qle_bool_iff in Hle. congruence.
  - intros H. destruct (Qle_bool x y) eqn:E; [|reflexivity].
    apply Qle_bool_iff in E. exfalso. exact (Qlt_not_le _ _ H E).
Qed.

(** ** The ledger store *)

Section Store.

Import WalletRepository.

Lemma cloneWallet_nonneg wallet s :
  (0 <= Wallet.balance wallet)%Q -> cloneWallet wallet s = Return (cloneOf wallet s).
Proof.
  intros H. unfold cloneWallet, Wallet.new, Wallet.validateBalance.
  apply Qltb_false in H. rewrite H. reflexivity.
Qed.

Lemma cloneWallet_negative wallet s :
  (Wallet.balance wallet < 0)%Q ->
  cloneWallet wallet s = Throw (JsError (NegativeBalance (Wallet.balance wallet))).
Proof.
  intros H. unfold cloneWallet, Wallet.new, Wallet.validateBalance.
  apply Qltb_true in H. rewrite H. reflexivity.
Qed.

Lemma cloneWallet_Return wallet s c :
  cloneWallet wallet s = Return c ->
  c = cloneOf wallet s /\ (0 <= Wallet.balance wallet)%Q.
Proof.
  intros H. destruct (Qlt_le_dec (Wallet.balance wallet) 0) as [Hneg|Hpos].
  - rewrite cloneWallet_negative in H by assumption. discriminate.
  - rewrite cloneWallet_nonneg in H by assumption. split; congruence.
Qed.

Lemma cloneWallet_cases wallet s :
  (cloneWallet wallet s = Return (cloneOf wallet s) /\ (0 <= Wallet.balance wallet)%Q) \/
  (cloneWallet wallet s = Throw (JsError (NegativeBalance (Wallet.balance wallet))) /\
   (Wallet.balance wallet < 0)%Q).
Proof.
  destruct (Qlt_le_dec (Wallet.balance wallet) 0) as [Hneg|Hpos].
  - right. split; [apply cloneWallet_negative|]; assumption.
  - left. split; [apply cloneWallet_nonneg|]; assumption.
Qed.

Lemma update_mismatch wallet expectedVersion s :
  ~ versionMatches wallet expectedVersion s ->
  update wallet expectedVersion s = (Return (false, wallet), s).
Proof.
  intros H. unfold update.
  destruct (wallets s !! Wallet.id wallet) as [e|] eqn:E; [|reflexivity].
  destruct (Wallet.version e =? expectedVersion) eqn:Ev; [|reflexivity].
  exfalso. apply H. exists e. split; [assumption|]. apply Z.eqb_eq. assumption.
Qed.

Lemma update_match wallet expectedVersion s :
  versionMatches wallet expectedVersion s ->
  (0 <= Wallet.balance wallet)%Q ->
  update wallet expectedVersion s =
    (Return (true, updated wallet expectedVersion s),
     setWallets (<[Wallet.id wallet := cloneOf (updated wallet expectedVersion s) s]> (wallets s)) s).
Proof.
  intros (e & He & Hv) Hb. unfold update. rewrite He.
  apply Z.eqb_eq in Hv. rewrite Hv. simpl.
  rewrite cloneWallet_nonneg by exact Hb. reflexivity.
Qed.

Lemma update_match_negative wallet expectedVersion s :
  versionMatches wallet expectedVersion s ->
  (Wallet.balance wallet < 0)%Q ->
  update wallet expectedVersion s =
    (Throw (JsError (NegativeBalance (Wallet.balance wallet))), s).
Proof.
  intros (e & He & Hv) Hb. unfold update. rewrite He.
  apply Z.eqb_eq in Hv. rewrite Hv. simpl.
  rewrite cloneWallet_negative by exact Hb. reflexivity.
Qed.

(** The three ways [update] ends. *)
Lemma update_cases wallet expectedVersion s :
  (versionMatches wallet expectedVersion s /\ (0 <= Wallet.balance wallet)%Q /\
   update wallet expectedVersion s =
     (Return (true, updated wallet expectedVersion s),
      setWallets (<[Wallet.id wallet := cloneOf (updated wallet expectedVersion s) s]>
                    (wallets s)) s)) \/
  (~ versionMatches wallet expectedVersion s /\
   update wallet expectedVersion s = (Return (false, wallet), s)) \/
  (versionMatches wallet expectedVersion s /\ (Wallet.balance wallet < 0)%Q /\
   update wallet expectedVersion s =
     (Throw (JsError (NegativeBalance (Wallet.balance wallet))), s)).
Proof.
  destruct (decide (versionMatches wallet expectedVersion s)) as [Hm|Hm].
  - destruct (Qlt_le_dec (Wallet.balance wallet) 0) as [Hneg|Hpos].
    + right. right. auto using update_match_negative.
    + left. auto using update_match.
  - right. left. auto using update_mismatch.
Qed.

Lemma applyUpdates_version id calls : forall s w0,
  wallets s !! id = Some w0 ->
  exists w,
    wallets (snd (applyUpdates id calls s)) !! id = Some w /\
    Wallet.version w = Wallet.version w0 + Z.of_nat (fst (applyUpdates id calls s)).
Proof.
  induction calls as [|[wallet ev] rest IH]; intros s w0 H0; simpl.
  - exists w0. split; [assumption|lia].
  - destruct (update_cases wallet ev s) as [(Hm & Hb & E)|[(Hm & E)|(Hm & Hb & E)]];
      rewrite E.
    + destruct (String.eqb_spec (Wallet.id wallet) id) as [Hid|Hid].
      * destruct Hm as (e & He & Hv). rewrite Hid in He.
        assert (e = w0) by congruence. subst e.
        edestruct (IH (setWallets (<[Wallet.id wallet :=
                         cloneOf (updated wallet ev s) s]> (wallets s)) s))
          as (w & Hw & Hvw).
        { simpl. rewrite Hid. apply lookup_insert_eq. }
        destruct (applyUpdates id rest _) as [n s''] eqn:En. simpl in *.
        exists w. split; [assumption|]. rewrite Hvw. lia.
      * edestruct (IH (setWallets (<[Wallet.id wallet :=
                         cloneOf (updated wallet ev s) s]> (wallets s)) s))
          as (w & Hw & Hvw).
        { simpl. rewrite lookup_insert_ne by assumption. eassumption. }
        destruct (applyUpdates id rest _) as [n s''] eqn:En. simpl in *.
        exists w. split; assumption.
    + destruct (IH s w0 H0) as (w & Hw & Hvw).
      destruct (applyUpdates id rest s) as [n s''] eqn:En. simpl in *. eauto.
    + destruct (IH s w0 H0) as (w & Hw & Hvw).
      destruct (applyUpdates id rest s) as [n s''] eqn:En. simpl in *. eauto.
Qed.

End Store.

(** The store used in the examples: the wallet [acct] with balance 100
    at version 1. *)
Example store_example_lookup :
  wallets (setWallets {[ "acct" := Wallet.mk "acct" USD 100 1 0 0 ]} (emptySys 5 None)) !! "acct"
  = Some (Wallet.mk "acct" USD 100 1 0 0).
Proof. reflexivity. Qed.

(** C3, as amended: for every wallet argument with a non-negative balance
    and every expected version, [update] returns [true] if and only if a
    wallet with that id is stored and its stored version equals the expected
    version; it then stores the argument (its balance, version
    [expectedVersion + 1], update time the current time) under that id and
    leaves every other wallet and the rest of the state as they were.
    Otherwise it returns [false] and the state is unchanged.  Consequently,
    over any run of [update] calls, the stored version of a wallet is its
    initial version plus the number of successful updates of that wallet. *)
Theorem update_optimistic_lock_contract :
  forall (s : Sys) (wallet : Wallet.t) (expectedVersion : Z),
    (0 <= Wallet.balance wallet)%Q ->
    ((exists wallet', fst (WalletRepository.update wallet expectedVersion s) = Return (true, wallet'))
     <-> versionMatches wallet expectedVersion s) /\
    (versionMatches wallet expectedVersion s ->
     exists stored,
       let s' := snd (WalletRepository.update wallet expectedVersion s) in
       wallets s' !! Wallet.id wallet = Some stored /\
       Wallet.version stored = expectedVersion + 1 /\
       Wallet.updatedAt stored = now s /\
       Wallet.balance stored = Wallet.balance wallet /\
       (forall other, other <> Wallet.id wallet -> wallets s' !! other = wallets s !! other) /\
       s' = setWallets (wallets s') s) /\
    (~ versionMatches wallet expectedVersion s ->
     WalletRepository.update wallet expectedVersion s = (Return (false, wallet), s)) /\
    (forall (id : string) (calls : list (Wallet.t * Z)) (w0 : Wallet.t),
       wallets s !! id = Some w0 ->
       exists w,
         wallets (snd (applyUpdates id calls s)) !! id = Some w /\
         Wallet.version w = Wallet.version w0 + Z.of_nat (fst (applyUpdates id calls s))).
Proof.
  intros s wallet ev Hb. repeat split.
  - intros [w' Hw'].
    destruct (decide (versionMatches wallet ev s)) as [Hm|Hm]; [assumption|].
    rewrite update_mismatch in Hw' by assumption. simpl in Hw'. congruence.
  - intros Hm. rewrite update_match by assumption. simpl. eauto.
  - intros Hm. rewrite update_match by assumption. simpl.
    eexists. rewrite lookup_insert_eq. repeat split.
    intros other Hne. apply lookup_insert_ne. congruence.
  - apply update_mismatch.
  - intros id calls w0. apply applyUpdates_version.
Qed.

Lemma update_optimistic_lock_contract_witness :
  let s := setWallets {[ "acct" := Wallet.mk "acct" USD 100 1 0 0 ]} (emptySys 5 None) in
  let wallet := Wallet.mk "acct" USD 150 1 0 0 in
  let calls := [(wallet, 1); (Wallet.mk "acct" USD 160 1 0 0, 1);
                (Wallet.mk "acct" USD 170 2 0 0, 2)] in
  (0 <= Wallet.balance wallet)%Q /\
  versionMatches wallet 1 s /\
  (exists wallet', fst (WalletRepository.update wallet 1 s) = Return (true, wallet')) /\
  (exists stored,
     wallets (snd (WalletRepository.update wallet 1 s)) !! "acct" = Some stored /\
     Wallet.version stored = 2) /\
  ~ versionMatches wallet 7 s /\
  WalletRepository.update wallet 7 s = (Return (false, wallet), s) /\
  fst (applyUpdates "acct" calls s) = 2%nat /\
  exists w,
    wallets (snd (applyUpdates "acct" calls s)) !! "acct" = Some w /\
    Wallet.version w = 1 + Z.of_nat (fst (applyUpdates "acct" calls s)).
Proof.
  intros s wallet calls.
  assert (Hb : (0 <= Wallet.balance wallet)%Q) by (vm_compute; discriminate).
  assert (Hm : versionMatches wallet 1 s) by (eexists; split; reflexivity).
  assert (Hn : ~ versionMatches wallet 7 s)
    by (apply not_versionMatches_decide; vm_compute; reflexivity).
  destruct (update_optimistic_lock_contract s wallet 1 Hb) as (Hiff & Hok & _ & Hrun).
  destruct (update_optimistic_lock_contract s wallet 7 Hb) as (_ & _ & Hno & _).
  split; [exact Hb|]. split; [exact Hm|]. split; [apply Hiff; exact Hm|].
  split.
  { destruct (Hok Hm) as (stored & Hs & Hv & _). exists stored. split; [exact Hs | exact Hv]. }
  split; [exact Hn|]. split; [exact (Hno Hn)|]. split; [vm_compute; reflexivity|].
  exact (Hrun "acct" calls (Wallet.mk "acct" USD 100 1 0 0) eq_refl).
Defined.

(** C3 as stated fails for a wallet argument with a negative balance: the
    stored version equals the expected version, and [update] neither
    returns [true] nor [false] but throws, the clone it would store being
    refused by the constructor of [Wallet]. *)
Lemma update_negative_balance_throws :
  let s := setWallets {[ "acct" := Wallet.mk "acct" USD 100 1 0 0 ]} (emptySys 5 None) in
  let wallet := Wallet.mk "acct" USD (-1) 1 0 0 in
  versionMatches wallet 1 s /\
  WalletRepository.update wallet 1 s = (Throw (JsError (NegativeBalance (-1))), s) /\
  ~ (exists wallet', fst (WalletRepository.update wallet 1 s) = Return (true, wallet')).
Proof.
  intros s wallet. split; [eexists; split; reflexivity|].
  split; [reflexivity|].
  intros [w' H]. vm_compute in H. discriminate.
Qed.

(** ** Properties of the stored wallets that every operation keeps

    The store is written by [create] and [update] only, and both store a
    clone, which the constructor of [Wallet] validates.  A property that
    every such clone has is kept by every computation of the services,
    under any interleaving with tasks that keep it. *)

Section StoreInvariant.

Variable P : string -> Wallet.t -> Prop.

Hypothesis P_clone :
  forall wallet s, (0 <= Wallet.balance wallet)%Q -> P (Wallet.id wallet) (cloneOf wallet s).

Lemma Holds_insert s id wallet :
  Holds P s -> P id wallet -> Holds P (setWallets (<[id := wallet]> (wallets s)) s).
Proof.
  intros Hs Hb j w. simpl. destruct (decide (id = j)) as [->|Hne].
  - rewrite lookup_insert_eq. intros [= <-]. exact Hb.
  - rewrite lookup_insert_ne by assumption. apply Hs.
Qed.

Lemma Holds_same_wallets s s' : wallets s' = wallets s -> Holds P s -> Holds P s'.
Proof. unfold Holds. intros ->. auto. Qed.

Lemma preservesSafe_ret {A} (a : A) : preservesSafe P (ret a).
Proof. intros w H. exact H. Qed.

Lemma preservesSafe_throw {A} e : preservesSafe P (@throw World A e).
Proof. intros w H. exact H. Qed.

Lemma preservesSafe_outcome {A} (o : Outcome A) : preservesSafe P (outcome o).
Proof. intros w H. exact H. Qed.

Lemma preservesSafe_newDate : preservesSafe P newDate.
Proof. intros w H. exact H. Qed.

Lemma preservesSafe_bind {A B} (m : Async A) (k : A -> Async B) :
  preservesSafe P m -> (forall a, preservesSafe P (k a)) -> preservesSafe P (bind m k).
Proof.
  intros Hm Hk w Hw. unfold bind. specialize (Hm w Hw).
  destruct (m w) as [[a|e] w']; simpl in *; [apply Hk|]; assumption.
Qed.

Lemma preservesSafe_tryCatch {A} (body : Async A) (handler : Error -> Async A) :
  preservesSafe P body -> (forall e, preservesSafe P (handler e)) ->
  preservesSafe P (tryCatch body handler).
Proof.
  intros Hm Hk w Hw. unfold tryCatch. specialize (Hm w Hw).
  destruct (body w) as [[a|e] w']; simpl in *; [|apply Hk]; assumption.
Qed.

Lemma Safe_suspend w : Safe P w -> Safe P (suspend w).
Proof.
  intros [Hs Hp]. unfold suspend. destruct (pending w) as [|task rest] eqn:E.
  - split; [assumption|]. rewrite E. constructor.
  - inversion Hp; subst. split; simpl; auto.
Qed.

Lemma preservesSafe_await {A} (m : Async A) : preservesSafe P m -> preservesSafe P (await m).
Proof.
  intros Hm w Hw. unfold await. specialize (Hm w Hw).
  destruct (m w) as [r w']. simpl in *. apply Safe_suspend. assumption.
Qed.

Lemma preservesSafe_run {A} (m : Sync A) : preservesHolds P m -> preservesSafe P (run m).
Proof.
  intros Hm w [Hs Hp]. unfold run. specialize (Hm (sys w) Hs).
  destruct (m (sys w)) as [r s']. split; simpl in *; assumption.
Qed.

Lemma create_preservesHolds wallet : preservesHolds P (WalletRepository.create wallet).
Proof.
  intros s Hs. unfold WalletRepository.create.
  destruct (wallets s !! Wallet.id wallet); [exact Hs|].
  destruct (cloneWallet_cases wallet s) as [[E Hb]|[E Hb]]; rewrite E; [|exact Hs].
  simpl. apply Holds_insert; [assumption|]. apply P_clone. assumption.
Qed.

Lemma findById_preservesHolds id : preservesHolds P (WalletRepository.findById id).
Proof.
  intros s Hs. unfold WalletRepository.findById.
  destruct (wallets s !! id) as [w|]; [|exact Hs].
  destruct (WalletRepository.cloneWallet w s); exact Hs.
Qed.

Lemma findByIds_preservesHolds ids : preservesHolds P (WalletRepository.findByIds ids).
Proof. intros s Hs. exact Hs. Qed.

Lemma update_preservesHolds wallet expectedVersion :
  preservesHolds P (WalletRepository.update wallet expectedVersion).
Proof.
  intros s Hs.
  destruct (update_cases wallet expectedVersion s) as [(_ & Hb & E)|[(_ & E)|(_ & _ & E)]];
    rewrite E; simpl; [|exact Hs|exact Hs].
  apply Holds_insert; [assumption|]. apply (P_clone (updated wallet expectedVersion s) s Hb).
Qed.

Lemma transaction_create_preservesHolds transaction :
  preservesHolds P (TransactionRepository.create transaction).
Proof.
  intros s Hs. unfold TransactionRepository.create.
  destruct (TransactionRepository.cloneTransaction transaction s); exact Hs.
Qed.

Lemma generateTransactionReference_preservesHolds rnd :
  preservesHolds P (TransactionService.generateTransactionReference rnd).
Proof. intros s Hs. exact Hs. Qed.

Lemma cacheResponse_preservesHolds hash key operation requestData response :
  preservesHolds P
    (IdempotencyService.cacheResponse hash key operation requestData response).
Proof.
  intros s Hs. unfold IdempotencyService.cacheResponse. simpl.
  destruct (bool_decide _); exact Hs.
Qed.

Lemma cleanupExpired_wallets hash s :
  wallets (IdempotencyService.cleanupExpired hash s) = wallets s.
Proof.
  unfold IdempotencyService.cleanupExpired.
  destruct (cache s !! hash) as [r|]; [|reflexivity].
  destruct (ir_expiresAt r <? now s); reflexivity.
Qed.

Lemma cleanupAll_wallets (due : list (Z * string)) : forall s,
  wallets (foldl (fun s' t => IdempotencyService.cleanupExpired (snd t) s') s due) = wallets s.
Proof.
  induction due as [|t due IH]; intros s; simpl; [reflexivity|].
  rewrite IH. apply cleanupExpired_wallets.
Qed.

Lemma runTimers_wallets s : wallets (runTimers s) = wallets s.
Proof. unfold runTimers. rewrite cleanupAll_wallets. reflexivity. Qed.

Lemma advanceClock_wallets ms s : wallets (advanceClock ms s) = wallets s.
Proof. unfold advanceClock. rewrite runTimers_wallets. reflexivity. Qed.

Lemma advanceClock_keeps ms : keeps P (advanceClock ms).
Proof.
  intros s Hs. eapply Holds_same_wallets; [apply advanceClock_wallets|exact Hs].
Qed.

Lemma preservesSafe_sleep ms : preservesSafe P (WalletService.sleep ms).
Proof.
  intros w [Hs Hp]. split; simpl; [|assumption].
  apply advanceClock_keeps. assumption.
Qed.

Create HintDb safe.

#[local] Hint Resolve preservesSafe_ret preservesSafe_throw preservesSafe_outcome
  preservesSafe_newDate preservesSafe_sleep
  create_preservesHolds findById_preservesHolds findByIds_preservesHolds
  update_preservesHolds transaction_create_preservesHolds
  generateTransactionReference_preservesHolds cacheResponse_preservesHolds : safe.

(** One step of a preservation proof: follow the structure of the
    computation. *)
Ltac safe_step :=
  match goal with
  | |- preservesSafe P (bind _ _) => apply preservesSafe_bind; [|intros ?]
  | |- preservesSafe P (tryCatch _ _) => apply preservesSafe_tryCatch; [|intros ?]
  | |- preservesSafe P (await _) => apply preservesSafe_await
  | |- preservesSafe P (run _) => apply preservesSafe_run
  | |- preservesSafe P (match ?x with _ => _ end) => destruct x
  | |- preservesSafe P (let _ := _ in _) => cbv zeta
  | |- _ => solve [auto with safe]
  end.

Ltac safe := repeat safe_step.

Lemma createFundingTransaction_safe rnd targetWalletId amount currency metadata :
  preservesSafe P
    (TransactionService.createFundingTransaction rnd targetWalletId amount currency metadata).
Proof. unfold TransactionService.createFundingTransaction. safe. Qed.

Lemma createTransferTransaction_safe rnd sourceWalletId targetWalletId amount currency metadata :
  preservesSafe P
    (TransactionService.createTransferTransaction rnd sourceWalletId targetWalletId amount
       currency metadata).
Proof. unfold TransactionService.createTransferTransaction. safe. Qed.

Lemma processWithIdempotency_safe key operation requestData fn :
  preservesSafe P fn ->
  preservesSafe P (IdempotencyService.processWithIdempotency key operation requestData fn).
Proof.
  intros Hfn w Hw. unfold IdempotencyService.processWithIdempotency.
  destruct (cache (sys w) !! _) as [cached|].
  - destruct (negb _); exact Hw.
  - revert w Hw. change (preservesSafe P
      (tryCatch
         (do response <- await fn in
          do _ <- run (IdempotencyService.cacheResponse
                         (IdempotencyService.generateHash key operation requestData)
                         key operation requestData response) in
          ret response)
         (fun error => throw error))).
    safe.
Qed.

#[local] Hint Resolve createFundingTransaction_safe createTransferTransaction_safe : safe.

Ltac safe ::=
  repeat first
    [ apply processWithIdempotency_safe
    | safe_step ].

Lemma getWalletOrThrow_safe walletId : preservesSafe P (WalletService.getWalletOrThrow walletId).
Proof. unfold WalletService.getWalletOrThrow. safe. Qed.

#[local] Hint Resolve getWalletOrThrow_safe : safe.

Lemma createWallet_safe walletId dto : preservesSafe P (WalletService.createWallet walletId dto).
Proof. unfold WalletService.createWallet. safe. Qed.

Lemma executeFunding_safe rnd walletId dto :
  preservesSafe P (WalletService.executeFunding rnd walletId dto).
Proof. unfold WalletService.executeFunding. safe. Qed.

#[local] Hint Resolve executeFunding_safe : safe.

Lemma fundWallet_safe rnd walletId dto : preservesSafe P (WalletService.fundWallet rnd walletId dto).
Proof. unfold WalletService.fundWallet. safe. Qed.

Lemma rollbackSourceWallet_safe sourceWallet originalBalance currentVersion :
  preservesSafe P (WalletService.rollbackSourceWallet sourceWallet originalBalance currentVersion).
Proof. unfold WalletService.rollbackSourceWallet. safe. Qed.

#[local] Hint Resolve rollbackSourceWallet_safe : safe.

Lemma executeTransfer_safe rnd sourceWalletId dto :
  preservesSafe P (WalletService.executeTransfer rnd sourceWalletId dto).
Proof. unfold WalletService.executeTransfer. safe. Qed.

#[local] Hint Resolve executeTransfer_safe : safe.

Lemma executeTransferWithRetry_from_safe remaining rnd sourceWalletId dto : forall attempt,
  preservesSafe P
    (WalletService.executeTransferWithRetry_from remaining rnd sourceWalletId dto attempt).
Proof.
  induction remaining as [|remaining IH]; intros attempt; simpl; safe.
Qed.

Lemma executeTransferWithRetry_safe rnd sourceWalletId dto attempt :
  preservesSafe P (WalletService.executeTransferWithRetry rnd sourceWalletId dto attempt).
Proof. apply executeTransferWithRetry_from_safe. Qed.

#[local] Hint Resolve executeTransferWithRetry_safe : safe.

Lemma transferFunds_safe rnd sourceWalletId dto :
  preservesSafe P (WalletService.transferFunds rnd sourceWalletId dto).
Proof. unfold WalletService.transferFunds. safe. Qed.

Lemma perform_Safe op w : Safe P w -> Safe P (perform op w).
Proof.
  destruct op; simpl.
  - apply createWallet_safe.
  - apply fundWallet_safe.
  - apply transferFunds_safe.
Qed.

Lemma performAll_Safe ops : forall w, Safe P w -> Safe P (performAll ops w).
Proof.
  induction ops as [|op ops IH]; intros w Hw; simpl; [assumption|].
  apply IH. apply perform_Safe. assumption.
Qed.

End StoreInvariant.

Lemma nonNegative_clone wallet s :
  (0 <= Wallet.balance wallet)%Q -> nonNegative (Wallet.id wallet) (cloneOf wallet s).
Proof. intros H. exact H. Qed.

Lemma keyed_clone wallet s :
  (0 <= Wallet.balance wallet)%Q -> keyed (Wallet.id wallet) (cloneOf wallet s).
Proof. reflexivity. Qed.

(** ** The phases of a transfer *)

Lemma findByIds_pair s sourceWalletId targetWalletId sw tw :
  wallets s !! sourceWalletId = Some sw ->
  wallets s !! targetWalletId = Some tw ->
  (0 <= Wallet.balance sw)%Q -> (0 <= Wallet.balance tw)%Q ->
  WalletRepository.findByIds [sourceWalletId; targetWalletId] s =
    (Return (<[targetWalletId := cloneOf tw s]> (<[sourceWalletId := cloneOf sw s]> ∅)), s).
Proof.
  intros Hs Ht Hbs Hbt. unfold WalletRepository.findByIds. simpl.
  rewrite Hs, (cloneWallet_nonneg sw s Hbs), Ht, (cloneWallet_nonneg tw s Hbt).
  reflexivity.
Qed.

Lemma found_source (sourceWalletId targetWalletId : string) (a b : Wallet.t) :
  sourceWalletId <> targetWalletId ->
  (<[targetWalletId := b]> (<[sourceWalletId := a]> (∅ : gmap string Wallet.t)))
    !! sourceWalletId = Some a.
Proof.
  intros Hne. rewrite lookup_insert_ne by congruence. apply lookup_insert_eq.
Qed.

Lemma found_target (sourceWalletId targetWalletId : string) (a b : Wallet.t) :
  (<[targetWalletId := b]> (<[sourceWalletId := a]> (∅ : gmap string Wallet.t)))
    !! targetWalletId = Some b.
Proof. apply lookup_insert_eq. Qed.

(** Phase 1 rejects a transfer of more than the source holds, and nothing
    but the suspension after the fetch has happened. *)
Lemma executeTransfer_insufficient rnd sourceWalletId dto w sw tw :
  sourceWalletId <> tf_targetWalletId dto ->
  wallets (sys w) !! sourceWalletId = Some sw ->
  wallets (sys w) !! tf_targetWalletId dto = Some tw ->
  (0 <= Wallet.balance sw)%Q -> (0 <= Wallet.balance tw)%Q ->
  (Wallet.balance sw < value (tf_amount dto))%Q ->
  WalletService.executeTransfer rnd sourceWalletId dto w =
    (Throw (InsufficientBalanceError sourceWalletId (value (tf_amount dto)) (Wallet.balance sw)),
     suspend w).
Proof.
  intros Hne Hs Ht Hbs Hbt Hlt.
  unfold WalletService.executeTransfer, bind, await, run.
  rewrite (findByIds_pair _ _ _ sw tw Hs Ht Hbs Hbt).
  rewrite (found_source _ _ _ _ Hne), found_target.
  unfold Wallet.hasSufficientBalance. simpl.
  apply Qle_bool_false in Hlt. rewrite Hlt. simpl.
  destruct w; reflexivity.
Qed.

(** ** The retry wrapper and the idempotency guard *)

Lemma executeTransferWithRetry_from_Return remaining rnd sourceWalletId dto attempt w r w' :
  WalletService.executeTransfer rnd sourceWalletId dto w = (Return r, w') ->
  WalletService.executeTransferWithRetry_from remaining rnd sourceWalletId dto attempt w =
    (Return r, suspend w').
Proof.
  intros H. destruct remaining; simpl; unfold tryCatch, await; rewrite H; reflexivity.
Qed.

Lemma executeTransferWithRetry_from_fatal remaining rnd sourceWalletId dto attempt w e w' :
  WalletService.executeTransfer rnd sourceWalletId dto w = (Throw e, w') ->
  isConcurrentModificationError e = false ->
  WalletService.executeTransferWithRetry_from remaining rnd sourceWalletId dto attempt w =
    (Throw e, suspend w').
Proof.
  intros H He. destruct remaining; simpl; unfold tryCatch, await; rewrite H, He; reflexivity.
Qed.

(** A conflict on the last attempt is surfaced. *)
Lemma executeTransferWithRetry_from_exhausted remaining rnd sourceWalletId dto attempt w e w' :
  WalletService.executeTransfer rnd sourceWalletId dto w = (Throw e, w') ->
  WalletService.MAX_RETRY_ATTEMPTS <= attempt ->
  WalletService.executeTransferWithRetry_from remaining rnd sourceWalletId dto attempt w =
    (Throw e, suspend w').
Proof.
  intros H Ha.
  assert (E : (attempt <? WalletService.MAX_RETRY_ATTEMPTS) = false) by (apply Z.ltb_ge; lia).
  destruct remaining; simpl; unfold tryCatch, await; rewrite H, E, andb_false_r; reflexivity.
Qed.

(** A conflict on an earlier attempt is followed by the backoff and the
    next attempt. *)
Lemma executeTransferWithRetry_from_conflict remaining rnd sourceWalletId dto attempt w e w' :
  WalletService.executeTransfer rnd sourceWalletId dto w = (Throw e, w') ->
  isConcurrentModificationError e = true ->
  attempt < WalletService.MAX_RETRY_ATTEMPTS ->
  WalletService.executeTransferWithRetry_from (S remaining) rnd sourceWalletId dto attempt w =
    WalletService.executeTransferWithRetry_from remaining rnd sourceWalletId dto (attempt + 1)
      (suspend (snd (WalletService.sleep (attempt * 10) (suspend w')))).
Proof.
  intros H He Ha. apply Z.ltb_lt in Ha.
  simpl. unfold tryCatch at 1. unfold await at 1. rewrite H, He, Ha. simpl.
  unfold bind, await. simpl. reflexivity.
Qed.

Lemma processWithIdempotency_hit key operation requestData fn w record :
  cache (sys w) !! IdempotencyService.generateHash key operation requestData = Some record ->
  IdempotencyService.requestDataMatches requestData (ir_requestData record) = true ->
  IdempotencyService.processWithIdempotency key operation requestData fn w =
    (Return (ir_response record), w).
Proof.
  intros H Hm. unfold IdempotencyService.processWithIdempotency. rewrite H, Hm. reflexivity.
Qed.

Lemma processWithIdempotency_miss_Throw key operation requestData fn w e w' :
  cache (sys w) !! IdempotencyService.generateHash key operation requestData = None ->
  fn w = (Throw e, w') ->
  IdempotencyService.processWithIdempotency key operation requestData fn w =
    (Throw e, suspend w').
Proof.
  intros H Hfn. unfold IdempotencyService.processWithIdempotency. rewrite H.
  unfold tryCatch, bind, await. rewrite Hfn. reflexivity.
Qed.

Lemma processWithIdempotency_miss_Return key operation requestData fn w r w' :
  cache (sys w) !! IdempotencyService.generateHash key operation requestData = None ->
  fn w = (Return r, w') ->
  IdempotencyService.processWithIdempotency key operation requestData fn w =
    (Return r, cached key operation requestData r (suspend w')).
Proof.
  intros H Hfn. unfold IdempotencyService.processWithIdempotency. rewrite H.
  unfold tryCatch, bind, await, run, cached. rewrite Hfn.
  destruct (IdempotencyService.cacheResponse _ _ _ _ _ _) as [[[]|e] s'] eqn:E.
  - reflexivity.
  - unfold IdempotencyService.cacheResponse in E. discriminate.
Qed.

(** ** Transfers that Phase 1 rejects *)

Lemma transferFunds_insufficient rnd sourceWalletId dto w sw tw :
  WalletService.validateAmount (tf_amount dto) = Return tt ->
  sourceWalletId <> tf_targetWalletId dto ->
  cache (sys w) !! transferHash sourceWalletId dto = None ->
  wallets (sys w) !! sourceWalletId = Some sw ->
  wallets (sys w) !! tf_targetWalletId dto = Some tw ->
  (0 <= Wallet.balance sw)%Q -> (0 <= Wallet.balance tw)%Q ->
  (Wallet.balance sw < value (tf_amount dto))%Q ->
  WalletService.transferFunds rnd sourceWalletId dto w =
    (Throw (InsufficientBalanceError sourceWalletId (value (tf_amount dto)) (Wallet.balance sw)),
     suspend (suspend (suspend (suspend w)))).
Proof.
  intros Hv Hne Hc Hs Ht Hbs Hbt Hlt.
  unfold WalletService.transferFunds, bind at 1, outcome. rewrite Hv.
  destruct (String.eqb_spec sourceWalletId (tf_targetWalletId dto)) as [Heq|_];
    [contradiction|].
  unfold await at 1.
  erewrite processWithIdempotency_miss_Throw; [reflexivity|exact Hc|].
  unfold bind, WalletService.executeTransferWithRetry.
  erewrite executeTransferWithRetry_from_fatal;
    [reflexivity|apply (executeTransfer_insufficient _ _ _ _ sw tw); assumption|reflexivity].
Qed.

(** C2: every stored balance is at least zero in every state reached by
    any sequence of [createWallet], [fundWallet] and [transferFunds] calls,
    returning or throwing, from a state where it is so, whatever the other
    tasks do at the suspension points as long as they keep it so (nothing
    pending gives the sequential runs).  In particular a validated, not yet
    registered transfer between two stored wallets whose amount exceeds the
    stored balance of the source throws [InsufficientBalanceError] with the
    required and the available amount, and the world is the one the four
    suspension points on the way leave: no update was applied. *)
Theorem nonnegative_balance_invariant :
  (forall (w : World) (ops : list Operation),
     Safe nonNegative w -> NonNegative (sys (performAll ops w))) /\
  (forall rnd sourceWalletId dto (w : World) sw tw,
     NonNegative (sys w) ->
     WalletService.validateAmount (tf_amount dto) = Return tt ->
     sourceWalletId <> tf_targetWalletId dto ->
     cache (sys w) !! transferHash sourceWalletId dto = None ->
     wallets (sys w) !! sourceWalletId = Some sw ->
     wallets (sys w) !! tf_targetWalletId dto = Some tw ->
     (Wallet.balance sw < value (tf_amount dto))%Q ->
     WalletService.transferFunds rnd sourceWalletId dto w =
       (Throw (InsufficientBalanceError sourceWalletId (value (tf_amount dto))
                 (Wallet.balance sw)),
        suspend (suspend (suspend (suspend w))))).
Proof.
  split.
  - intros w ops Hw. apply (performAll_Safe nonNegative nonNegative_clone ops w Hw).
  - intros rnd src dto w sw tw Hnn Hv Hne Hc Hs Ht Hlt.
    apply (transferFunds_insufficient rnd src dto w sw tw); try assumption.
    + exact (Hnn _ _ Hs).
    + exact (Hnn _ _ Ht).
Qed.

Example world1_wallets :
  wallets (sys world1) !! "alice" = Some (Wallet.mk "alice" USD 50 1 startTime startTime) /\
  wallets (sys world1) !! "bob" = Some (Wallet.mk "bob" USD 0 1 startTime startTime).
Proof. split; vm_compute; reflexivity. Qed.

Lemma world0_Safe P : Safe P world0.
Proof.
  split; [|constructor]. intros id wallet H. simpl in H.
  rewrite lookup_empty in H. discriminate.
Qed.

Lemma nonnegative_balance_invariant_witness :
  Safe nonNegative world0 /\
  NonNegative (sys (performAll
    (openAccounts ++
     [FundWallet entropy1 "bob" (fundOf (ofZ 20) "k-fund");
      TransferFunds entropy2 "alice" (transferTo "bob" (mkNum 305 (-1)) "k-pay");
      TransferFunds entropy3 "alice" (transferTo "bob" (ofZ 100) "k-over")]) world0)) /\
  WalletService.transferFunds entropy3 "alice" (transferTo "bob" (ofZ 100) "k-over") world1 =
    (Throw (InsufficientBalanceError "alice" 100 50), world1).
Proof.
  destruct nonnegative_balance_invariant as [Hinv Hins].
  split; [apply world0_Safe|]. split; [apply Hinv; apply world0_Safe|].
  apply (Hins entropy3 "alice" (transferTo "bob" (ofZ 100) "k-over") world1
           (Wallet.mk "alice" USD 50 1 startTime startTime)
           (Wallet.mk "bob" USD 0 1 startTime startTime)).
  - apply (Hinv world0 openAccounts (world0_Safe nonNegative)).
  - vm_compute; reflexivity.
  - discriminate.
  - vm_compute; reflexivity.
  - vm_compute; reflexivity.
  - vm_compute; reflexivity.
  - vm_compute; reflexivity.
Defined.



(** ** Transfers without interleaving *)

Lemma suspend_alone s : suspend (alone s) = alone s.
Proof. reflexivity. Qed.

Lemma findByIds_pair_cases s sourceWalletId targetWalletId :
  sourceWalletId <> targetWalletId ->
  (exists b, WalletRepository.findByIds [sourceWalletId; targetWalletId] s =
               (Throw (JsError (NegativeBalance b)), s)) \/
  (exists found,
     WalletRepository.findByIds [sourceWalletId; targetWalletId] s = (Return found, s) /\
     found !! sourceWalletId = (fun w => cloneOf w s) <$> wallets s !! sourceWalletId /\
     found !! targetWalletId = (fun w => cloneOf w s) <$> wallets s !! targetWalletId /\
     (forall sw, wallets s !! sourceWalletId = Some sw -> (0 <= Wallet.balance sw)%Q) /\
     (forall tw, wallets s !! targetWalletId = Some tw -> (0 <= Wallet.balance tw)%Q)).
Proof.
  intros Hne. unfold WalletRepository.findByIds. simpl.
  destruct (wallets s !! sourceWalletId) as [sw|] eqn:Es;
    [destruct (cloneWallet_cases sw s) as [[E Hb]|[E Hb]]; rewrite E|];
    (destruct (wallets s !! targetWalletId) as [tw|] eqn:Et;
      [destruct (cloneWallet_cases tw s) as [[E' Hb']|[E' Hb']]; rewrite ?E'|]);
    try (left; eexists; reflexivity);
    right; eexists; (split; [reflexivity|]); simpl;
    repeat (rewrite lookup_insert_eq || (rewrite lookup_insert_ne by congruence)
            || rewrite lookup_empty);
    repeat split;
    first [congruence | intros ? [= <-]; assumption | intros ? [=] | idtac].
Qed.

Lemma createTransferTransaction_alone rnd sourceWalletId targetWalletId amount currency metadata s :
  exists r s',
    TransactionService.createTransferTransaction rnd sourceWalletId targetWalletId amount
      currency metadata (alone s) = (r, alone s') /\
    unchangedButLog s s' /\
    ((exists t, r = Return t) \/
     (exists e, r = Throw e /\ isConcurrentModificationError e = false /\
        ((amount <= 0)%Q \/ sourceWalletId = EmptyString))).
Proof.
  unfold TransactionService.createTransferTransaction, bind, run, newDate, outcome, await, ret,
    alone.
  cbn [sys pending TransactionService.generateTransactionReference fst snd].
  unfold Transaction.new, Transaction.validateAmount.
  destruct (Qle_bool amount 0) eqn:Ea.
  { do 2 eexists. split; [reflexivity|]. split; [repeat split|].
    right. eexists. split; [reflexivity|]. split; [reflexivity|].
    left. apply Qle_bool_iff. exact Ea. }
  cbn [Transaction.validateTransactionType Transaction.truthy].
  destruct sourceWalletId as [|c src'].
  { do 2 eexists. split; [reflexivity|]. split; [repeat split|].
    right. eexists. split; [reflexivity|]. split; [reflexivity|]. right. reflexivity. }
  cbn [negb]. unfold TransactionRepository.create, TransactionRepository.cloneTransaction,
    Transaction.new, Transaction.validateAmount.
  cbn [Transaction.amount Transaction.type Transaction.sourceWalletId]. rewrite Ea.
  cbn [Transaction.validateTransactionType Transaction.truthy negb
       Transaction.amount Transaction.type Transaction.sourceWalletId].
  rewrite Ea. cbn [Transaction.validateTransactionType Transaction.truthy negb].
  do 2 eexists. split; [reflexivity|]. split; [repeat split|].
  left. eexists. reflexivity.
Qed.

Arguments WalletRepository.update : simpl never.
Arguments TransactionService.createTransferTransaction : simpl never.
Arguments TransactionService.createFundingTransaction : simpl never.
Arguments WalletService.mapToWalletResponse : simpl never.
Arguments TransactionService.mapToTransactionResponse : simpl never.

Ltac wsimpl :=
  cbn [negb suspend pending sys updated cloneOf wallets setWallets
       Wallet.id Wallet.currency Wallet.balance Wallet.version Wallet.createdAt
       Wallet.updatedAt].

Lemma executeTransfer_alone rnd sourceWalletId dto s :
  WellKeyed s ->
  sourceWalletId <> tf_targetWalletId dto ->
  exists r s',
    WalletService.executeTransfer rnd sourceWalletId dto (alone s) = (r, alone s') /\
    cache s' = cache s /\ timers s' = timers s /\ now s' = now s /\
    NODE_ENV s' = NODE_ENV s /\
    ((exists e, r = Throw e /\ isConcurrentModificationError e = false /\ s' = s) \/
     (committed sourceWalletId (tf_targetWalletId dto) (value (tf_amount dto)) s (wallets s') /\
      ((exists d, r = Return d) \/
       (exists e, r = Throw e /\ isConcurrentModificationError e = false /\
          sourceWalletId = EmptyString)))).
Proof.
  intros Hk Hne. unfold WalletService.executeTransfer.
  generalize (value (tf_amount dto)). intros amount.
  unfold bind at 1. unfold await at 1, run at 1. unfold alone. cbn [sys pending].
  destruct (findByIds_pair_cases s sourceWalletId (tf_targetWalletId dto) Hne)
    as [[b E]|(found & E & Hfs & Hft & Hbs & Hbt)]; rewrite E; cbn [suspend pending].
  { exists (Throw (JsError (NegativeBalance b))), s. repeat split. left. eauto. }
  rewrite Hfs, Hft.
  destruct (wallets s !! sourceWalletId) as [sw|] eqn:Es; cbn [fmap option_fmap option_map].
  2:{ eexists _, s. split; [reflexivity|]. repeat split. left. eauto. }
  destruct (wallets s !! tf_targetWalletId dto) as [tw|] eqn:Et;
    cbn [fmap option_fmap option_map].
  2:{ eexists _, s. split; [reflexivity|]. repeat split. left. eauto. }
  specialize (Hbs sw eq_refl). specialize (Hbt tw eq_refl).
  pose proof (Hk _ _ Es) as Hids. pose proof (Hk _ _ Et) as Hidt.
  unfold keyed in Hids, Hidt.
  unfold Wallet.hasSufficientBalance. cbn [cloneOf Wallet.balance Wallet.version].
  destruct (Qle_bool amount (Wallet.balance sw)) eqn:Esuf; cbn [negb].
  2:{ eexists _, s. split; [reflexivity|]. repeat split. left. eauto. }
  unfold tryCatch, bind at 1, newDate. cbn [sys].
  unfold bind at 1, outcome, Wallet.deduct. cbn [cloneOf Wallet.balance Wallet.version Wallet.id Wallet.currency Wallet.createdAt].
  destruct (Qle_bool amount 0) eqn:Ea.
  { eexists _, s. split; [reflexivity|]. repeat split. left. eauto. }
  unfold Qltb. rewrite Esuf. cbn [negb].
  apply Qle_bool_iff in Esuf. apply Qle_bool_false in Ea.
  unfold bind at 1, await at 1, run at 1. cbn [sys pending].
  rewrite update_match;
    [|exists sw; wsimpl; rewrite Hids; split; [exact Es|reflexivity]
     |wsimpl; lra].
  wsimpl.
  set (s1 := setWallets _ s).
  unfold bind at 1. cbn [sys]. unfold bind at 1. unfold Wallet.fund.
  apply Qle_bool_false in Ea. rewrite Ea. apply Qle_bool_false in Ea.
  cbn [Wallet.id Wallet.currency Wallet.balance Wallet.version Wallet.createdAt].
  unfold bind at 1, await at 1, run at 1. cbn [sys pending].
  rewrite update_match;
    [|exists tw; wsimpl; split; [|reflexivity];
      unfold s1; wsimpl; rewrite lookup_insert_ne by congruence;
      rewrite Hidt; exact Et
     |wsimpl; lra].
  wsimpl.
  set (s2 := setWallets _ s1).
  unfold bind at 1, await at 1.
  destruct (createTransferTransaction_alone rnd sourceWalletId (tf_targetWalletId dto)
              amount (Currency_toString (Wallet.currency sw)) (tf_metadata dto) s2)
    as (r & s3 & E3 & (Hw3 & Hc3 & Ht3 & Hn3 & He3) & Hr).
  unfold alone in E3. rewrite E3. cbn [suspend pending].
  assert (Hcommit : committed sourceWalletId (tf_targetWalletId dto) amount s (wallets s3)).
  { exists sw, tw. repeat split; try assumption.
    rewrite Hw3. unfold s2, s1. wsimpl. rewrite <- Hids, <- Hidt. reflexivity. }
  destruct Hr as [[t ->]|(e & -> & He & Hwhy)].
  - eexists _, s3. split; [reflexivity|].
    repeat split; try assumption. right. split; [exact Hcommit|]. left. eauto.
  - eexists _, s3. split; [reflexivity|].
    repeat split; try assumption. right. split; [exact Hcommit|]. right.
    exists e. repeat split; try assumption.
    destruct Hwhy as [Hle|Hsrc]; [|exact Hsrc].
    exfalso. lra.
Qed.

Lemma cacheResponse_wallets hash key operation requestData response s :
  wallets (snd (IdempotencyService.cacheResponse hash key operation requestData response s))
  = wallets s.
Proof.
  unfold IdempotencyService.cacheResponse. cbn [snd].
  destruct (bool_decide _); reflexivity.
Qed.

Lemma transferFunds_alone rnd sourceWalletId dto s :
  WellKeyed s ->
  exists r s',
    WalletService.transferFunds rnd sourceWalletId dto (alone s) = (r, alone s') /\
    ((s' = s /\
      ((exists e, r = Throw e) \/
       (exists record,
          cache s !! transferHash sourceWalletId dto = Some record /\
          r = Return (ir_response record)))) \/
     (cache s !! transferHash sourceWalletId dto = None /\
      sourceWalletId <> tf_targetWalletId dto /\
      committed sourceWalletId (tf_targetWalletId dto) (value (tf_amount dto)) s (wallets s') /\
      ((exists d, r = Return (TransferResponse d)) \/
       (exists e, r = Throw e /\ sourceWalletId = EmptyString)))).
Proof.
  intros Hk. unfold WalletService.transferFunds. unfold bind at 1, outcome.
  destruct (WalletService.validateAmount (tf_amount dto)) as [[]|e] eqn:Ev.
  2:{ exists (Throw e), s. split; [reflexivity|]. left. eauto. }
  destruct (String.eqb_spec sourceWalletId (tf_targetWalletId dto)) as [Heq|Hne].
  { eexists _, s. split; [reflexivity|]. left. eauto. }
  unfold await at 1.
  destruct (cache s !! transferHash sourceWalletId dto) as [record|] eqn:Ec.
  - unfold IdempotencyService.processWithIdempotency. cbn [sys alone].
    change (IdempotencyService.generateHash _ _ _) with (transferHash sourceWalletId dto).
    rewrite Ec.
    destruct (negb _).
    + eexists _, s. split; [reflexivity|]. left. eauto.
    + eexists _, s. split; [reflexivity|]. left. split; [reflexivity|]. right. eauto.
  - destruct (executeTransfer_alone rnd sourceWalletId dto s Hk Hne)
      as (r & s' & E & Hc & Ht & Hn & He & Hcases).
    destruct r as [d|e].
    + rewrite (processWithIdempotency_miss_Return _ _ _ _ (alone s)
                 (TransferResponse d) (suspend (alone s')) Ec);
        [|unfold bind, WalletService.executeTransferWithRetry;
          rewrite (executeTransferWithRetry_from_Return _ _ _ _ _ _ _ _ E); reflexivity].
      eexists _, _. split; [reflexivity|]. right. split; [reflexivity|].
      destruct Hcases as [(e & He' & _)|[Hcommit _]]; [discriminate|].
      cbn [cached suspend pending sys alone].
      rewrite cacheResponse_wallets. split; [exact Hne|]. split; [exact Hcommit|]. left. eauto.
    + assert (Hcme : isConcurrentModificationError e = false).
      { destruct Hcases as [(e' & [= <-] & H & _)|[_ [[d Hd]|(e' & [= <-] & H & _)]]];
          [exact H|discriminate|exact H]. }
      rewrite (processWithIdempotency_miss_Throw _ _ _ _ (alone s) e (suspend (alone s')) Ec);
        [|unfold bind, WalletService.executeTransferWithRetry;
          rewrite (executeTransferWithRetry_from_fatal _ _ _ _ _ _ _ _ E Hcme); reflexivity].
      eexists _, s'. split; [reflexivity|].
      destruct Hcases as [(e' & _ & _ & ->)|[Hcommit [[d Hd]|(e' & [= <-] & _ & Hwhy)]]].
      * left. eauto.
      * discriminate.
      * right. split; [reflexivity|]. split; [exact Hne|]. split; [exact Hcommit|]. right. eauto.
Qed.

Lemma committed_WellKeyed source target amount s s' :
  WellKeyed s -> committed source target amount s (wallets s') -> WellKeyed s'.
Proof.
  intros Hk (sw & tw & Hs & Ht & _ & _ & E) id wallet H. rewrite E in H.
  pose proof (Hk _ _ Hs) as Hids. pose proof (Hk _ _ Ht) as Hidt. unfold keyed in *.
  destruct (decide (target = id)) as [<-|Hnt].
  - rewrite lookup_insert_eq in H. injection H as <-. exact Hidt.
  - rewrite lookup_insert_ne in H by assumption.
    destruct (decide (source = id)) as [<-|Hns].
    + rewrite lookup_insert_eq in H. injection H as <-. exact Hids.
    + rewrite lookup_insert_ne in H by assumption. exact (Hk _ _ H).
Qed.

Lemma world1_alone : world1 = alone (sys world1).
Proof. vm_compute. reflexivity. Qed.

Lemma world1_WellKeyed : WellKeyed (sys world1).
Proof.
  exact (proj1 (performAll_Safe keyed keyed_clone openAccounts world0 (world0_Safe keyed))).
Qed.

(** ** Funding without interleaving *)

Lemma createFundingTransaction_alone rnd targetWalletId amount currency metadata s :
  (0 < amount)%Q ->
  exists r s',
    TransactionService.createFundingTransaction rnd targetWalletId amount
      currency metadata (alone s) = (r, alone s') /\
    unchangedButLog s s' /\
    exists t, r = Return t /\ transactions s' = transactions s ++ [t] /\
              Transaction.type t = FUNDING /\ Transaction.targetWalletId t = targetWalletId /\
              Transaction.amount t = amount.
Proof.
  intros Ha.
  unfold TransactionService.createFundingTransaction, bind, run, newDate, outcome, await, ret,
    alone.
  cbn [sys pending TransactionService.generateTransactionReference fst snd].
  unfold Transaction.new, Transaction.validateAmount.
  apply Qle_bool_false in Ha. rewrite Ha.
  cbn [Transaction.validateTransactionType Transaction.truthy].
  unfold TransactionRepository.create, TransactionRepository.cloneTransaction,
    Transaction.new, Transaction.validateAmount.
  cbn [Transaction.amount Transaction.type Transaction.sourceWalletId]. rewrite Ha.
  cbn [Transaction.validateTransactionType Transaction.truthy
       Transaction.amount Transaction.type Transaction.sourceWalletId].
  rewrite Ha. cbn [Transaction.validateTransactionType Transaction.truthy].
  do 2 eexists. split; [reflexivity|]. split; [repeat split|].
  eexists. split; [reflexivity|]. repeat split.
Qed.

Lemma findById_cases id s :
  (wallets s !! id = None /\ WalletRepository.findById id s = (Return None, s)) \/
  (exists w0, wallets s !! id = Some w0 /\ (0 <= Wallet.balance w0)%Q /\
     WalletRepository.findById id s = (Return (Some (cloneOf w0 s)), s)) \/
  (exists e, WalletRepository.findById id s = (Throw e, s) /\
     isConcurrentModificationError e = false).
Proof.
  unfold WalletRepository.findById.
  destruct (wallets s !! id) as [w0|] eqn:E; [|left; split; reflexivity].
  right. destruct (cloneWallet_cases w0 s) as [[Ec Hb]|[Ec Hb]]; rewrite Ec.
  - left. exists w0. repeat split. exact Hb.
  - right. eexists. split; reflexivity.
Qed.

Lemma executeFunding_alone rnd walletId dto s :
  WellKeyed s ->
  exists r s',
    WalletService.executeFunding rnd walletId dto (alone s) = (r, alone s') /\
    cache s' = cache s /\ timers s' = timers s /\ now s' = now s /\
    NODE_ENV s' = NODE_ENV s /\
    ((exists e, r = Throw e /\ isConcurrentModificationError e = false /\ s' = s) \/
     (exists w0,
        wallets s !! walletId = Some w0 /\ (0 < value (fw_amount dto))%Q /\
        wallets s' = <[walletId := credit (value (fw_amount dto)) w0 s]> (wallets s) /\
        r = Return (WalletService.mapToWalletResponse (credit (value (fw_amount dto)) w0 s)) /\
        exists t, transactions s' = transactions s ++ [t] /\
                  Transaction.type t = FUNDING /\ Transaction.targetWalletId t = walletId /\
                  Transaction.amount t = value (fw_amount dto))).
Proof.
  intros Hk. unfold WalletService.executeFunding.
  generalize (value (fw_amount dto)). intros amount.
  unfold bind at 1. unfold await at 1. unfold WalletService.getWalletOrThrow.
  unfold bind at 1. unfold await at 1, run at 1. unfold alone. cbn [sys pending].
  destruct (findById_cases walletId s) as [[Hn E]|[(w0 & H0 & Hb & E)|(e & E & He)]];
    rewrite E; wsimpl.
  { eexists _, s. split; [reflexivity|]. repeat split. left. eauto. }
  2:{ eexists _, s. split; [reflexivity|]. repeat split. left. eauto. }
  unfold ret at 1. wsimpl.
  pose proof (Hk _ _ H0) as Hid. unfold keyed in Hid.
  unfold tryCatch, bind at 1, newDate. cbn [sys].
  unfold bind at 1, outcome, Wallet.fund. wsimpl.
  destruct (Qle_bool amount 0) eqn:Ea.
  { eexists _, s. split; [reflexivity|]. repeat split. left. eauto. }
  apply Qle_bool_false in Ea.
  unfold bind at 1, await at 1, run at 1. cbn [sys pending].
  rewrite update_match;
    [|exists w0; wsimpl; rewrite Hid; split; [exact H0|reflexivity]
     |wsimpl; lra].
  wsimpl. set (s1 := setWallets _ s).
  unfold bind at 1, await at 1.
  destruct (createFundingTransaction_alone rnd walletId amount
              (Currency_toString (Wallet.currency w0)) (fw_metadata dto) s1 Ea)
    as (r & s2 & E2 & (Hw2 & Hc2 & Ht2 & Hn2 & He2) & Hr).
  unfold alone in E2. rewrite E2. cbn [suspend pending].
  assert (Hw : wallets s2 = <[walletId := credit amount w0 s]> (wallets s)).
  { rewrite Hw2. unfold s1. wsimpl. rewrite <- Hid. reflexivity. }
  destruct Hr as (t & -> & Hlog & Hty & Htg & Ham).
  eexists _, s2. split; [reflexivity|].
  repeat split; try assumption. right. exists w0. repeat split; try assumption.
  exists t. repeat split; assumption.
Qed.

(** ** Nothing pending stays so *)

Lemma quiet_ret {A} (a : A) : quiet (ret a).
Proof. intros w H. exact H. Qed.

Lemma quiet_throw {A} e : quiet (@throw World A e).
Proof. intros w H. exact H. Qed.

Lemma quiet_outcome {A} (o : Outcome A) : quiet (outcome o).
Proof. intros w H. exact H. Qed.

Lemma quiet_newDate : quiet newDate.
Proof. intros w H. exact H. Qed.

Lemma quiet_bind {A B} (m : Async A) (k : A -> Async B) :
  quiet m -> (forall a, quiet (k a)) -> quiet (bind m k).
Proof.
  intros Hm Hk w Hw. unfold bind. specialize (Hm w Hw).
  destruct (m w) as [[a|e] w']; simpl in *; [apply Hk|]; assumption.
Qed.

Lemma quiet_tryCatch {A} (body : Async A) (handler : Error -> Async A) :
  quiet body -> (forall e, quiet (handler e)) -> quiet (tryCatch body handler).
Proof.
  intros Hm Hk w Hw. unfold tryCatch. specialize (Hm w Hw).
  destruct (body w) as [[a|e] w']; simpl in *; [|apply Hk]; assumption.
Qed.

Lemma suspend_quiet w : pending w = [] -> suspend w = w.
Proof. intros H. unfold suspend. rewrite H. reflexivity. Qed.

Lemma quiet_await {A} (m : Async A) : quiet m -> quiet (await m).
Proof.
  intros Hm w Hw. unfold await. specialize (Hm w Hw).
  destruct (m w) as [r w']. simpl in *. rewrite suspend_quiet; assumption.
Qed.

Lemma quiet_run {A} (m : Sync A) : quiet (run m).
Proof. intros w Hw. unfold run. destruct (m (sys w)). exact Hw. Qed.

Lemma quiet_sleep ms : quiet (WalletService.sleep ms).
Proof. intros w Hw. exact Hw. Qed.

Lemma quiet_processWithIdempotency key operation requestData fn :
  quiet fn -> quiet (IdempotencyService.processWithIdempotency key operation requestData fn).
Proof.
  intros Hfn w Hw. unfold IdempotencyService.processWithIdempotency.
  destruct (cache (sys w) !! _) as [record|].
  - destruct (negb _); exact Hw.
  - revert w Hw.
    apply quiet_tryCatch; [|intros e; apply quiet_throw].
    apply quiet_bind; [apply quiet_await; exact Hfn|intros response].
    apply quiet_bind; [apply quiet_run|intros _; apply quiet_ret].
Qed.

Ltac quiet_step :=
  match goal with
  | |- quiet (bind _ _) => apply quiet_bind; [|intros ?]
  | |- quiet (tryCatch _ _) => apply quiet_tryCatch; [|intros ?]
  | |- quiet (await _) => apply quiet_await
  | |- quiet (run _) => apply quiet_run
  | |- quiet (ret _) => apply quiet_ret
  | |- quiet (throw _) => apply quiet_throw
  | |- quiet (outcome _) => apply quiet_outcome
  | |- quiet newDate => apply quiet_newDate
  | |- quiet (WalletService.sleep _) => apply quiet_sleep
  | |- quiet (IdempotencyService.processWithIdempotency _ _ _ _) =>
      apply quiet_processWithIdempotency
  | |- quiet (match ?x with _ => _ end) => destruct x
  | |- quiet (let _ := _ in _) => cbv zeta
  | |- _ => assumption
  end.

Lemma quiet_createFundingTransaction rnd targetWalletId amount currency metadata :
  quiet (TransactionService.createFundingTransaction rnd targetWalletId amount currency metadata).
Proof. unfold TransactionService.createFundingTransaction. repeat quiet_step. Qed.

Lemma quiet_createTransferTransaction rnd sourceWalletId targetWalletId amount currency metadata :
  quiet (TransactionService.createTransferTransaction rnd sourceWalletId targetWalletId amount
           currency metadata).
Proof. unfold TransactionService.createTransferTransaction. repeat quiet_step. Qed.

Lemma quiet_executeFunding rnd walletId dto : quiet (WalletService.executeFunding rnd walletId dto).
Proof.
  unfold WalletService.executeFunding, WalletService.getWalletOrThrow.
  repeat first [apply quiet_createFundingTransaction | quiet_step].
Qed.

Lemma quiet_fundWallet rnd walletId dto : quiet (WalletService.fundWallet rnd walletId dto).
Proof.
  unfold WalletService.fundWallet.
  repeat first [apply quiet_executeFunding | quiet_step].
Qed.

Lemma quiet_executeTransfer rnd sourceWalletId dto :
  quiet (WalletService.executeTransfer rnd sourceWalletId dto).
Proof.
  unfold WalletService.executeTransfer, WalletService.rollbackSourceWallet.
  repeat first [apply quiet_createTransferTransaction | quiet_step].
Qed.

Lemma quiet_executeTransferWithRetry_from remaining rnd sourceWalletId dto : forall attempt,
  quiet (WalletService.executeTransferWithRetry_from remaining rnd sourceWalletId dto attempt).
Proof.
  induction remaining as [|remaining IH]; intros attempt; simpl;
    repeat first [apply quiet_executeTransfer | apply IH | quiet_step].
Qed.

Lemma quiet_transferFunds rnd sourceWalletId dto :
  quiet (WalletService.transferFunds rnd sourceWalletId dto).
Proof.
  unfold WalletService.transferFunds, WalletService.executeTransferWithRetry.
  repeat first [apply quiet_executeTransferWithRetry_from | quiet_step].
Qed.

Lemma quiet_createWallet walletId dto : quiet (WalletService.createWallet walletId dto).
Proof. unfold WalletService.createWallet. repeat quiet_step. Qed.

(** ** Idempotent retry *)

Lemma requestDataMatches_refl requestData :
  IdempotencyService.requestDataMatches requestData requestData = true.
Proof. unfold IdempotencyService.requestDataMatches. apply String.eqb_refl. Qed.

(** A request that returns has its result on record when the guard
    returns. *)
Lemma processWithIdempotency_Return key operation requestData fn w r w' :
  IdempotencyService.processWithIdempotency key operation requestData fn w = (Return r, w') ->
  exists record,
    cache (sys w') !! IdempotencyService.generateHash key operation requestData = Some record /\
    ir_response record = r /\
    IdempotencyService.requestDataMatches requestData (ir_requestData record) = true.
Proof.
  unfold IdempotencyService.processWithIdempotency.
  generalize (IdempotencyService.generateHash key operation requestData). intros hash.
  destruct (cache (sys w) !! hash) as [record|] eqn:Ec.
  - destruct (IdempotencyService.requestDataMatches _ _) eqn:Em; cbn [negb ret throw].
    + intros [= <- <-]. exists record. auto.
    + discriminate.
  - unfold tryCatch, bind, await, run.
    destruct (fn w) as [[r0|e] w0]; [|discriminate].
    unfold IdempotencyService.cacheResponse. cbn [fst snd ret sys].
    intros [= <- <-]. eexists. split.
    + cbn [sys]. destruct (bool_decide _); cbn [cache setCache setTimers];
        apply lookup_insert_eq.
    + split; [reflexivity|apply requestDataMatches_refl].
Qed.

Lemma cacheResponse_transactions hash key operation requestData response s :
  transactions (snd (IdempotencyService.cacheResponse hash key operation requestData response s))
  = transactions s.
Proof.
  unfold IdempotencyService.cacheResponse. cbn [snd].
  destruct (bool_decide _); reflexivity.
Qed.

Lemma fundWallet_alone rnd walletId dto s :
  WellKeyed s ->
  exists r s',
    WalletService.fundWallet rnd walletId dto (alone s) = (r, alone s') /\
    ((s' = s /\
      ((exists e, r = Throw e) \/
       (exists record,
          cache s !! fundHash walletId dto = Some record /\
          r = Return (ir_response record)))) \/
     (cache s !! fundHash walletId dto = None /\
      exists w0,
        wallets s !! walletId = Some w0 /\ (0 < value (fw_amount dto))%Q /\
        wallets s' = <[walletId := credit (value (fw_amount dto)) w0 s]> (wallets s) /\
        r = Return (WalletResponse
                      (WalletService.mapToWalletResponse
                         (credit (value (fw_amount dto)) w0 s))) /\
        exists t, transactions s' = transactions s ++ [t] /\
                  Transaction.type t = FUNDING /\ Transaction.targetWalletId t = walletId /\
                  Transaction.amount t = value (fw_amount dto))).
Proof.
  intros Hk. unfold WalletService.fundWallet. unfold bind at 1, outcome.
  destruct (WalletService.validateAmount (fw_amount dto)) as [[]|e] eqn:Ev.
  2:{ exists (Throw e), s. split; [reflexivity|]. left. eauto. }
  unfold await at 1.
  destruct (cache s !! fundHash walletId dto) as [record|] eqn:Ec.
  - unfold IdempotencyService.processWithIdempotency. cbn [sys alone].
    change (IdempotencyService.generateHash _ _ _) with (fundHash walletId dto).
    rewrite Ec.
    destruct (negb _).
    + eexists _, s. split; [reflexivity|]. left. eauto.
    + eexists _, s. split; [reflexivity|]. left. split; [reflexivity|]. right. eauto.
  - destruct (executeFunding_alone rnd walletId dto s Hk)
      as (r & s' & E & Hc & Ht & Hn & He & Hcases).
    destruct r as [d|e].
    + rewrite (processWithIdempotency_miss_Return _ _ _ _ (alone s)
                 (WalletResponse d) (alone s') Ec);
        [|unfold bind; rewrite E; reflexivity].
      eexists _, _. split; [reflexivity|]. right. split; [reflexivity|].
      destruct Hcases as [(e & He' & _)|(w0 & H0 & Ha & Hw & Hr)]; [discriminate|].
      exists w0. cbn [cached suspend pending sys alone].
      rewrite cacheResponse_wallets, cacheResponse_transactions.
      destruct Hr as [[= ->] Ht'].
      split; [exact H0|]. split; [exact Ha|]. split; [exact Hw|].
      split; [reflexivity|exact Ht'].
    + rewrite (processWithIdempotency_miss_Throw _ _ _ _ (alone s) e (alone s') Ec);
        [|unfold bind; rewrite E; reflexivity].
      eexists _, s'. split; [reflexivity|].
      destruct Hcases as [(e' & _ & _ & ->)|(w0 & _ & _ & _ & He' & _)]; [|discriminate].
      left. eauto.
Qed.

(** C5: a [fundWallet] call that returns, made with nothing else running,
    can be repeated with the same wallet id, key and amount: the second call
    returns the same response, the cached one, and leaves the whole state
    as the first call left it, so the funding is executed once.  When the
    first call was itself executed (the store being filed under ids and no
    record of the request cached before), it stored the wallet with its
    balance plus the amount, appended one FUNDING transaction for the amount
    and returned that wallet. *)
Theorem fundWallet_idempotent_retry :
  forall rnd1 rnd2 walletId dto (s : Sys) r w1,
    WalletService.fundWallet rnd1 walletId dto (alone s) = (Return r, w1) ->
    WalletService.fundWallet rnd2 walletId dto w1 = (Return r, w1) /\
    (WellKeyed s -> cache s !! fundHash walletId dto = None ->
     exists w0 t,
       wallets s !! walletId = Some w0 /\
       wallets (sys w1) = <[walletId := credit (value (fw_amount dto)) w0 s]> (wallets s) /\
       transactions (sys w1) = transactions s ++ [t] /\
       Transaction.type t = FUNDING /\ Transaction.targetWalletId t = walletId /\
       Transaction.amount t = value (fw_amount dto) /\
       r = WalletResponse
             (WalletService.mapToWalletResponse (credit (value (fw_amount dto)) w0 s))).
Proof.
  intros rnd1 rnd2 walletId dto s r w1 H. split.
  - pose proof (quiet_fundWallet rnd1 walletId dto (alone s) eq_refl) as Hq.
    rewrite H in Hq. cbn [snd] in Hq.
    unfold WalletService.fundWallet in H |- *.
    unfold bind at 1 in H. unfold bind at 1. unfold outcome in H |- *.
    destruct (WalletService.validateAmount (fw_amount dto)) as [[]|e]; [|discriminate].
    unfold await at 1 in H. unfold await at 1.
    destruct (IdempotencyService.processWithIdempotency _ _ _ _ (alone s)) as [r' w'] eqn:E.
    injection H as -> <-.
    assert (Hq' : pending w' = []).
    { pose proof (quiet_processWithIdempotency (fw_idempotencyKey dto) "FUND_WALLET"
                    (fundRequest walletId dto)
                    (do r <- WalletService.executeFunding rnd1 walletId dto in
                     ret (WalletResponse r))) as Hp.
      unfold fundRequest in Hp. specialize (Hp ltac:(repeat quiet_step; apply quiet_executeFunding)
                                             (alone s) eq_refl).
      rewrite E in Hp. exact Hp. }
    rewrite (suspend_quiet w' Hq') in *.
    destruct (processWithIdempotency_Return _ _ _ _ _ _ _ E) as (record & Hrec & <- & Hm).
    rewrite (processWithIdempotency_hit _ _ _ _ w' record Hrec Hm).
    rewrite (suspend_quiet w' Hq'). reflexivity.
  - intros Hk Hmiss.
    destruct (fundWallet_alone rnd1 walletId dto s Hk)
      as (r0 & s' & E0 & [[-> Hr]|(_ & w0 & H0 & Ha & Hw & Hr)]);
      rewrite H in E0; injection E0 as <- ->.
    + destruct Hr as [[e He]|(record & Hrec & _)]; [discriminate|congruence].
    + destruct Hr as [[= ->] (t & Hlog & Hty & Htg & Ham)].
      exists w0, t. cbn [sys alone]. repeat split; assumption.
Qed.

Lemma fundWallet_idempotent_retry_witness :
  let dto := fundOf (ofZ 100) "k1" in
  let first := WalletService.fundWallet entropy1 "bob" dto (alone (sys world1)) in
  exists r,
    first = (Return r, snd first) /\
    WalletService.fundWallet entropy2 "bob" dto (snd first) = (Return r, snd first) /\
    WellKeyed (sys world1) /\
    cache (sys world1) !! fundHash "bob" dto = None /\
    (exists w0 t,
       wallets (sys world1) !! "bob" = Some w0 /\
       wallets (sys (snd first))
         = <["bob" := credit (value (fw_amount dto)) w0 (sys world1)]> (wallets (sys world1)) /\
       transactions (sys (snd first)) = transactions (sys world1) ++ [t] /\
       Transaction.type t = FUNDING /\ Transaction.targetWalletId t = "bob" /\
       Transaction.amount t = value (fw_amount dto) /\
       r = WalletResponse
             (WalletService.mapToWalletResponse
                (credit (value (fw_amount dto)) w0 (sys world1)))) /\
    Wallet.balance <$> wallets (sys world1) !! "bob" = Some 0%Q /\
    Wallet.balance <$> wallets (sys (snd first)) !! "bob" = Some 100%Q /\
    length (transactions (sys (snd first))) = 1%nat.
Proof.
  intros dto first.
  assert (Hr : exists r, first = (Return r, snd first))
    by (eexists; vm_compute; reflexivity).
  assert (Hmiss : cache (sys world1) !! fundHash "bob" dto = None)
    by (vm_compute; reflexivity).
  destruct Hr as [r E]. exists r. split; [exact E|].
  destruct (fundWallet_idempotent_retry entropy1 entropy2 "bob" dto (sys world1) r (snd first) E)
    as [Hagain Hexec].
  split; [exact Hagain|].
  split; [exact world1_WellKeyed|].
  split; [exact Hmiss|].
  split; [exact (Hexec world1_WellKeyed Hmiss)|].
  split; [vm_compute; reflexivity|].
  split; vm_compute; reflexivity.
Defined.

(** ** Reuse of an idempotency key *)

Example funded_once :
  exists r,
    fst funded = Return (WalletResponse r) /\ (wr_balance r == 100)%Q /\
    Wallet.balance <$> wallets (sys (snd funded)) !! "bob" = Some 100%Q /\
    length (transactions (sys (snd funded))) = 1%nat.
Proof. eexists. vm_compute. repeat split; discriminate. Qed.

(** The fingerprint covers the parameters: the same key with another
    amount is another fingerprint. *)
Example fingerprints_differ :
  fundHash "bob" (fundOf (ofZ 100) "k1") =
    "c1855e1bcd8a4f163a275731e968ef499a96f81b160d53a03c85ad05e4176477" /\
  fundHash "bob" (fundOf (ofZ 200) "k1") <> fundHash "bob" (fundOf (ofZ 100) "k1").
Proof. split; [vm_compute; reflexivity|vm_compute; discriminate]. Qed.

(** C4, on the code: after [fundWallet] has returned for the key [k1] and
    the amount 100, the call for the same wallet with the key [k1] and the
    amount 200 finds no record, since the fingerprint under which records
    are filed covers the amount.  It does not throw
    [DuplicateTransactionError]: the funding is executed, a second FUNDING
    transaction is appended and the balance is 300. *)
Theorem key_reuse_with_other_amount_is_executed :
  let second :=
    WalletService.fundWallet entropy2 "bob" (fundOf (ofZ 200) "k1") (snd funded) in
  Wallet.balance <$> wallets (sys (snd funded)) !! "bob" = Some 100%Q /\
  cache (sys (snd funded)) !! fundHash "bob" (fundOf (ofZ 200) "k1") = None /\
  (exists r, fst second = Return (WalletResponse r) /\ (wr_balance r == 300)%Q) /\
  (forall key request, fst second <> Throw (DuplicateTransactionError key request)) /\
  Wallet.balance <$> wallets (sys (snd second)) !! "bob" = Some 300%Q /\
  length (transactions (sys (snd second))) = 2%nat.
Proof.
  intros second.
  split; [vm_compute; reflexivity|].
  split; [vm_compute; reflexivity|].
  split; [eexists; split; [vm_compute; reflexivity|reflexivity]|].
  split; [intros key request H; vm_compute in H; discriminate|].
  split; vm_compute; reflexivity.
Qed.

(** ** Expiry of idempotency records *)

(** C7, on the code: a record is looked up without regard to its expiry
    time, and the cleanup scheduled for it is called with the idempotency
    key where the cache is keyed by fingerprint, so it removes nothing.  A
    day and a millisecond after [bob] was funded under [k1], the timeout
    having run, the record is expired and still cached; the same request
    returns the cached response and is not executed again. *)
Theorem expired_record_is_still_served :
  let again :=
    WalletService.fundWallet entropy2 "bob" (fundOf (ofZ 100) "k1") dayLater in
  timers (sys (snd funded)) = [(startTime + IdempotencyService.TTL_MS, "k1")] /\
  timers (sys dayLater) = [] /\
  (exists record,
     cache (sys dayLater) !! fundHash "bob" (fundOf (ofZ 100) "k1") = Some record /\
     ir_expiresAt record < now (sys dayLater)) /\
  again = (fst funded, dayLater) /\
  Wallet.balance <$> wallets (sys (snd again)) !! "bob" = Some 100%Q /\
  length (transactions (sys (snd again))) = 1%nat.
Proof.
  intros again.
  split; [vm_compute; reflexivity|].
  split; [vm_compute; reflexivity|].
  split; [eexists; split; [vm_compute; reflexivity|reflexivity]|].
  split; [vm_compute; reflexivity|].
  split; vm_compute; reflexivity.
Qed.

(** ** Validation of amounts *)

Example validateAmount_examples :
  WalletService.validateAmount (ofZ 100) = Return tt /\
  WalletService.validateAmount (mkNum 1005 (-2)) = Return tt /\
  WalletService.validateAmount (ofZ 1000000) = Return tt /\
  WalletService.validateAmount (ofZ 0) =
    Throw (InvalidTransactionAmountError (ofZ 0) "Amount must be positive") /\
  WalletService.validateAmount (ofZ 1000001) =
    Throw (InvalidTransactionAmountError (ofZ 1000001) "Amount cannot exceed 1000000") /\
  WalletService.validateAmount (mkNum 1 (-3)) =
    Throw (InvalidTransactionAmountError (mkNum 1 (-3))
             "Amount cannot have more than 2 decimal places") /\
  WalletService.validateAmount (mkNum 15 (-8)) =
    Throw (InvalidTransactionAmountError (mkNum 15 (-8))
             "Amount cannot have more than 2 decimal places").
Proof. repeat split; vm_compute; reflexivity. Qed.

(** C8, on the code: the amount 0.0000001 is positive, below the maximum
    and has seven fractional digits, and it passes validation.  The digits
    are counted in the result of [toString], which is in exponent notation
    for numbers below 0.000001: ["1e-7"] has no decimal point.  [fundWallet]
    accepts the amount and credits it. *)
Theorem tiny_amount_passes_validation :
  let amount := mkNum 1 (-7) in
  (value amount == 1 # 10000000)%Q /\
  (0 < value amount)%Q /\ (value amount <= 1000000)%Q /\
  fractionalDigits amount = 7 /\
  Number_toString amount = "1e-7" /\
  WalletService.validateAmount amount = Return tt /\
  exists r,
    fst (WalletService.fundWallet entropy1 "bob" (fundOf amount "k-tiny") world1)
      = Return (WalletResponse r) /\
    (wr_balance r == 1 # 10000000)%Q.
Proof.
  intros amount.
  split; [reflexivity|]. split; [reflexivity|]. split; [vm_compute; discriminate|].
  split; [vm_compute; reflexivity|]. split; [vm_compute; reflexivity|].
  split; [vm_compute; reflexivity|].
  eexists. split; [vm_compute; reflexivity|reflexivity].
Qed.

(** ** References of transactions *)

Example reference_first :
  fst (TransactionService.generateTransactionReference entropy1 (sys world1))
    = Return "TXN-20250115123045-001-A7F3" /\
  matchesReferenceFormat "TXN-20250115123045-001-A7F3" = true.
Proof. split; vm_compute; reflexivity. Qed.

(** The random part is as long as the base 36 expansion allows:
    [Math.random()] returning 0.5 prints as ["0.i"]. *)
Example reference_short_suffix :
  fst (TransactionService.generateTransactionReference
         {| uuid := "tx-0009"; random36 := "0.i" |} (sys world1))
    = Return "TXN-20250115123045-001-I".
Proof. vm_compute; reflexivity. Qed.

(** C9, on the code: the counter is [(counter % 1000) + 1], which takes the
    values 1 to 1000.  The thousandth reference of a process, generated in
    the counter state 999, has the four-digit counter ["1000"] and does not
    match the format; the next one starts again at ["001"]. *)
Theorem thousandth_reference_has_four_digit_counter :
  let s999 := setTransactionCounter 999 (sys world1) in
  transactionCounter (sys world1) = 0 /\
  generateReferences 999 entropy1 (sys world1)
    = (fst (generateReferences 999 entropy1 (sys world1)), s999) /\
  fst (TransactionService.generateTransactionReference entropy1 s999)
    = Return "TXN-20250115123045-1000-A7F3" /\
  matchesReferenceFormat "TXN-20250115123045-1000-A7F3" = false /\
  transactionCounter (snd (TransactionService.generateTransactionReference entropy1 s999))
    = 1000 /\
  fst (generateReferences 2 entropy1 s999)
    = ["TXN-20250115123045-1000-A7F3"; "TXN-20250115123045-001-A7F3"].
Proof. intros s999. repeat split; vm_compute; reflexivity. Qed.

(** ** Conflicts *)

Lemma validateAmount_positive amount :
  WalletService.validateAmount amount = Return tt -> (0 < value amount)%Q.
Proof.
  unfold WalletService.validateAmount.
  destruct (Qle_bool (value amount) 0) eqn:E; [discriminate|].
  intros _. apply Qle_bool_false. exact E.
Qed.

Lemma versionMatches_id wallet wallet' expectedVersion s :
  Wallet.id wallet = Wallet.id wallet' ->
  versionMatches wallet expectedVersion s <-> versionMatches wallet' expectedVersion s.
Proof. unfold versionMatches. intros ->. reflexivity. Qed.

Lemma executeFunding_conflict rnd walletId dto w w0 :
  (0 < value (fw_amount dto))%Q ->
  wallets (sys w) !! walletId = Some w0 ->
  (0 <= Wallet.balance w0)%Q ->
  ~ versionMatches w0 (Wallet.version w0) (sys (suspend (suspend w))) ->
  WalletService.executeFunding rnd walletId dto w =
    (Throw (ConcurrentModificationError "Wallet" walletId), suspend (suspend (suspend w))).
Proof.
  intros Ha H0 Hb Hm. unfold WalletService.executeFunding.
  unfold bind at 1, await at 1. unfold WalletService.getWalletOrThrow.
  unfold bind at 1, await at 1, run at 1, WalletRepository.findById.
  rewrite H0, (cloneWallet_nonneg w0 _ Hb).
  replace (mkWorld (sys w) (pending w)) with w by (destruct w; reflexivity).
  unfold ret at 1.
  set (w2 := suspend (suspend w)) in *.
  unfold tryCatch, bind at 1, newDate. unfold bind at 1, outcome, Wallet.fund.
  apply Qle_bool_false in Ha. rewrite Ha.
  unfold bind at 1, await at 1, run at 1.
  rewrite update_mismatch.
  - cbn [negb]. replace (mkWorld (sys w2) (pending w2)) with w2 by (destruct w2; reflexivity).
    reflexivity.
  - intros Hvm. apply Hm. revert Hvm. apply versionMatches_id. reflexivity.
Qed.

Lemma fundWallet_conflict rnd walletId dto w w0 :
  WalletService.validateAmount (fw_amount dto) = Return tt ->
  cache (sys w) !! fundHash walletId dto = None ->
  wallets (sys w) !! walletId = Some w0 ->
  (0 <= Wallet.balance w0)%Q ->
  ~ versionMatches w0 (Wallet.version w0) (sys (suspend (suspend w))) ->
  WalletService.fundWallet rnd walletId dto w =
    (Throw (ConcurrentModificationError "Wallet" walletId), Nat.iter 5 suspend w).
Proof.
  intros Hv Hc H0 Hb Hm. unfold WalletService.fundWallet.
  unfold bind at 1, outcome. rewrite Hv. unfold await at 1.
  rewrite (processWithIdempotency_miss_Throw _ _ _ _ w
             (ConcurrentModificationError "Wallet" walletId)
             (suspend (suspend (suspend w))) Hc); [reflexivity|].
  unfold bind.
  rewrite (executeFunding_conflict rnd walletId dto w w0
             (validateAmount_positive _ Hv) H0 Hb Hm).
  reflexivity.
Qed.

Lemma executeTransferWithRetry_conflict rnd sourceWalletId dto attempt w e w' :
  WalletService.executeTransfer rnd sourceWalletId dto w = (Throw e, w') ->
  isConcurrentModificationError e = true ->
  attempt < WalletService.MAX_RETRY_ATTEMPTS ->
  WalletService.executeTransferWithRetry rnd sourceWalletId dto attempt w =
    WalletService.executeTransferWithRetry rnd sourceWalletId dto (attempt + 1)
      (backoff attempt w').
Proof.
  intros H He Ha. unfold WalletService.executeTransferWithRetry.
  replace (Z.to_nat (WalletService.MAX_RETRY_ATTEMPTS - attempt))
    with (S (Z.to_nat (WalletService.MAX_RETRY_ATTEMPTS - (attempt + 1)))) by lia.
  apply (executeTransferWithRetry_from_conflict _ _ _ _ _ _ _ _ H He Ha).
Qed.

Lemma executeTransferWithRetry_last rnd sourceWalletId dto attempt w r w' :
  WalletService.executeTransfer rnd sourceWalletId dto w = (r, w') ->
  WalletService.MAX_RETRY_ATTEMPTS <= attempt ->
  WalletService.executeTransferWithRetry rnd sourceWalletId dto attempt w = (r, suspend w').
Proof.
  intros H Ha. unfold WalletService.executeTransferWithRetry. destruct r as [d|e].
  - apply (executeTransferWithRetry_from_Return _ _ _ _ _ _ _ _ H).
  - apply (executeTransferWithRetry_from_exhausted _ _ _ _ _ _ _ _ H Ha).
Qed.

(** C10: funding makes one attempt.  When the wallet read by a validated,
    not yet registered [fundWallet] call no longer is stored at the version
    that was read by the time of the update (the two suspension points of
    the fetch lie in between), the update returns [false] and the call
    throws [ConcurrentModificationError] for the wallet; the world at the
    end is the world at the start after the five suspension points passed
    on the way: the call has read once, written nothing to the store, the
    log or the cache, and not tried again.  [transferFunds] differs: when
    the first and the second attempt of a transfer end in a conflict, each
    is followed by a backoff of 10 times its number in milliseconds and by a
    new attempt, and what the third attempt returns or throws is the result:
    [MAX_RETRY_ATTEMPTS = 3] attempts at most. *)
Theorem funding_makes_a_single_attempt :
  (forall rnd walletId dto (w : World) w0,
     WalletService.validateAmount (fw_amount dto) = Return tt ->
     cache (sys w) !! fundHash walletId dto = None ->
     wallets (sys w) !! walletId = Some w0 ->
     (0 <= Wallet.balance w0)%Q ->
     ~ versionMatches w0 (Wallet.version w0) (sys (suspend (suspend w))) ->
     WalletService.fundWallet rnd walletId dto w =
       (Throw (ConcurrentModificationError "Wallet" walletId), Nat.iter 5 suspend w)) /\
  (forall rnd sourceWalletId dto (w : World) e1 w1 e2 w2 r w3,
     WalletService.executeTransfer rnd sourceWalletId dto w = (Throw e1, w1) ->
     isConcurrentModificationError e1 = true ->
     WalletService.executeTransfer rnd sourceWalletId dto (backoff 1 w1) = (Throw e2, w2) ->
     isConcurrentModificationError e2 = true ->
     WalletService.executeTransfer rnd sourceWalletId dto (backoff 2 w2) = (r, w3) ->
     WalletService.executeTransferWithRetry rnd sourceWalletId dto 1 w = (r, suspend w3)).
Proof.
  split.
  - apply fundWallet_conflict.
  - intros rnd src dto w e1 w1 e2 w2 r w3 H1 He1 H2 He2 H3.
    rewrite (executeTransferWithRetry_conflict _ _ _ 1 _ _ _ H1 He1) by reflexivity.
    rewrite (executeTransferWithRetry_conflict _ _ _ (1 + 1) _ _ _ H2 He2) by reflexivity.
    apply (executeTransferWithRetry_last _ _ _ _ _ _ _ H3). reflexivity.
Qed.

Lemma funding_makes_a_single_attempt_witness :
  let dto := fundOf (ofZ 100) "k1" in
  let bob := Wallet.mk "bob" USD 0 1 startTime startTime in
  WalletService.validateAmount (fw_amount dto) = Return tt /\
  cache (sys overtaken) !! fundHash "bob" dto = None /\
  wallets (sys overtaken) !! "bob" = Some bob /\
  ~ versionMatches bob 1 (sys (suspend (suspend overtaken))) /\
  WalletService.fundWallet entropy2 "bob" dto overtaken =
    (Throw (ConcurrentModificationError "Wallet" "bob"), Nat.iter 5 suspend overtaken) /\
  Wallet.balance <$> wallets (sys (Nat.iter 5 suspend overtaken)) !! "bob" = Some 5%Q /\
  length (transactions (sys (Nat.iter 5 suspend overtaken))) = 1%nat /\
  (let pay := transferTo "bob" (ofZ 20) "k-pay" in
   let first := WalletService.executeTransfer entropy3 "alice" pay contended in
   let second := WalletService.executeTransfer entropy3 "alice" pay (backoff 1 (snd first)) in
   let third := WalletService.executeTransfer entropy3 "alice" pay (backoff 2 (snd second)) in
   fst first = Throw (ConcurrentModificationError "Wallet" "alice") /\
   fst second = Throw (ConcurrentModificationError "Wallet" "alice") /\
   (exists r, fst third = Return r /\
              (wr_balance (sourceWallet r) == 33)%Q /\ wr_version (sourceWallet r) = 4) /\
   WalletService.executeTransferWithRetry entropy3 "alice" pay 1 contended
     = (fst third, suspend (snd third))).
Proof.
  intros dto bob.
  assert (Hv : WalletService.validateAmount (fw_amount dto) = Return tt)
    by (vm_compute; reflexivity).
  assert (Hc : cache (sys overtaken) !! fundHash "bob" dto = None)
    by (vm_compute; reflexivity).
  assert (H0 : wallets (sys overtaken) !! "bob" = Some bob) by (vm_compute; reflexivity).
  assert (Hb : (0 <= Wallet.balance bob)%Q) by (vm_compute; discriminate).
  assert (Hm : ~ versionMatches bob 1 (sys (suspend (suspend overtaken))))
    by (apply not_versionMatches_decide; vm_compute; reflexivity).
  destruct funding_makes_a_single_attempt as [Hfund Hretry].
  split; [exact Hv|]. split; [exact Hc|]. split; [exact H0|]. split; [exact Hm|].
  split; [exact (Hfund entropy2 "bob" dto overtaken bob Hv Hc H0 Hb Hm)|].
  split; [vm_compute; reflexivity|]. split; [vm_compute; reflexivity|].
  intros pay first second third.
  assert (E1 : fst first = Throw (ConcurrentModificationError "Wallet" "alice"))
    by (vm_compute; reflexivity).
  assert (E2 : fst second = Throw (ConcurrentModificationError "Wallet" "alice"))
    by (vm_compute; reflexivity).
  split; [exact E1|]. split; [exact E2|].
  split; [exists_returned; split; reflexivity|].
  apply (Hretry entropy3 "alice" pay contended
           (ConcurrentModificationError "Wallet" "alice") (snd first)
           (ConcurrentModificationError "Wallet" "alice") (snd second)
           (fst third) (snd third)).
  - exact (pair_of_fst first _ E1).
  - reflexivity.
  - exact (pair_of_fst second _ E2).
  - reflexivity.
  - apply surjective_pairing.
Defined.


(** ** The rollback *)

Lemma world_eta w : mkWorld (sys w) (pending w) = w.
Proof. destruct w; reflexivity. Qed.

(** The commit phase up to the rejected credit: the source is stored with
    the amount deducted, the update of the target is refused, and the
    rollback is all that is left to run. *)
Lemma executeTransfer_target_conflict rnd sourceWalletId dto w sw tw :
  sourceWalletId <> tf_targetWalletId dto ->
  wallets (sys w) !! sourceWalletId = Some sw ->
  wallets (sys w) !! tf_targetWalletId dto = Some tw ->
  (0 <= Wallet.balance sw)%Q -> (0 <= Wallet.balance tw)%Q ->
  (0 < value (tf_amount dto))%Q ->
  (value (tf_amount dto) <= Wallet.balance sw)%Q ->
  let amount := value (tf_amount dto) in
  let w1 := suspend w in
  versionMatches sw (Wallet.version sw) (sys w1) ->
  let w2 := suspend (mkWorld (setWallets (deducted amount sw (sys w1)) (sys w1)) (pending w1)) in
  ~ versionMatches tw (Wallet.version tw) (sys w2) ->
  let w3 := suspend w2 in
  WalletService.executeTransfer rnd sourceWalletId dto w =
    (Throw (ConcurrentModificationError "Wallet" (tf_targetWalletId dto)),
     suspend (snd (WalletService.rollbackSourceWallet
                     (updated (Wallet.mk (Wallet.id sw) (Wallet.currency sw)
                                 (Wallet.balance sw - amount) (Wallet.version sw + 1)
                                 (now (sys w)) (now (sys w1)))
                              (Wallet.version sw) (sys w1))
                     (Wallet.balance sw) (Wallet.version sw + 1) w3))).
Proof.
  intros Hne Hs Ht Hbs Hbt Ha Hle amount w1 Hm1 w2 Hm2 w3.
  unfold WalletService.executeTransfer. fold amount. fold amount in Ha, Hle.
  clearbody amount.
  unfold bind at 1, await at 1, run at 1.
  rewrite (findByIds_pair _ _ _ sw tw Hs Ht Hbs Hbt).
  rewrite (found_source _ _ _ _ Hne), found_target.
  rewrite world_eta. fold w1.
  unfold Wallet.hasSufficientBalance. wsimpl.
  assert (Esuf : Qle_bool amount (Wallet.balance sw) = true) by (apply Qle_bool_iff; exact Hle).
  rewrite Esuf. cbn [negb].
  unfold tryCatch, bind at 1, newDate.
  unfold bind at 1, outcome, Wallet.deduct. wsimpl.
  assert (Ea : Qle_bool amount 0 = false) by (apply Qle_bool_false; exact Ha).
  rewrite Ea. unfold Qltb. rewrite Esuf. cbn [negb].
  unfold bind at 1, await at 1, run at 1.
  rewrite update_match;
    [|revert Hm1; apply versionMatches_id; reflexivity|wsimpl; lra].
  wsimpl. cbn [negb].
  change (setWallets _ (sys w1)) with (setWallets (deducted amount sw (sys w1)) (sys w1)).
  fold w2.
  unfold bind at 1. unfold bind at 1. unfold Wallet.fund. rewrite Ea. wsimpl.
  unfold bind at 1, await at 1, run at 1.
  rewrite update_mismatch;
    [|intros Hvm; apply Hm2; revert Hvm; apply versionMatches_id; reflexivity].
  cbn [negb]. rewrite world_eta. fold w3.
  unfold bind at 1, await at 1.
  destruct (WalletService.rollbackSourceWallet _ _ _ w3) as [[[]|e] w4] eqn:Er.
  - reflexivity.
  - exfalso. unfold WalletService.rollbackSourceWallet, tryCatch, bind, await, run in Er.
    destruct (WalletRepository.update _ _ _) as [[[b x]|e'] s']; discriminate.
Qed.

Lemma rollbackSourceWallet_refused sourceWallet originalBalance currentVersion w :
  ~ versionMatches sourceWallet currentVersion (sys w) ->
  WalletService.rollbackSourceWallet sourceWallet originalBalance currentVersion w =
    (Return tt, suspend w).
Proof.
  intros Hm. unfold WalletService.rollbackSourceWallet, tryCatch, bind, await, run.
  rewrite update_mismatch; [rewrite world_eta; reflexivity|].
  intros Hvm. apply Hm. revert Hvm. apply versionMatches_id. reflexivity.
Qed.

Lemma rollbackSourceWallet_applied sourceWallet originalBalance currentVersion w :
  versionMatches sourceWallet currentVersion (sys w) ->
  (0 <= originalBalance)%Q ->
  WalletService.rollbackSourceWallet sourceWallet originalBalance currentVersion w =
    (Return tt,
     suspend (mkWorld
                (setWallets
                   (<[Wallet.id sourceWallet :=
                        Wallet.mk (Wallet.id sourceWallet) (Wallet.currency sourceWallet)
                                  originalBalance (currentVersion + 1)
                                  (now (sys w)) (now (sys w))]> (wallets (sys w)))
                   (sys w))
                (pending w))).
Proof.
  intros Hm Hb. unfold WalletService.rollbackSourceWallet, tryCatch, bind, await, run.
  rewrite update_match;
    [reflexivity|revert Hm; apply versionMatches_id; reflexivity|exact Hb].
Qed.

(** The end of an attempt whose credit is refused.  When, in the commit
    phase of a transfer, the update of the source is applied and the update
    of the target is refused on its version, the attempt throws the
    [ConcurrentModificationError] of the target wallet, whether the
    rollback update of the source is applied or refused in its turn: the
    boolean it returns is not looked at.  After a refused rollback the
    retry wrapper goes on as after any conflict: before the third attempt
    it backs off and makes the next attempt, on the third attempt it throws
    the error.  ([w1], [w2] and [w3] are the worlds in which the three
    updates run.) *)
Lemma executeTransfer_credit_refused :
  forall rnd sourceWalletId dto (w : World) sw tw,
    sourceWalletId <> tf_targetWalletId dto ->
    wallets (sys w) !! sourceWalletId = Some sw ->
    wallets (sys w) !! tf_targetWalletId dto = Some tw ->
    (0 <= Wallet.balance sw)%Q -> (0 <= Wallet.balance tw)%Q ->
    (0 < value (tf_amount dto))%Q ->
    (value (tf_amount dto) <= Wallet.balance sw)%Q ->
    let amount := value (tf_amount dto) in
    let w1 := suspend w in
    versionMatches sw (Wallet.version sw) (sys w1) ->
    let w2 := suspend (mkWorld (setWallets (deducted amount sw (sys w1)) (sys w1)) (pending w1)) in
    ~ versionMatches tw (Wallet.version tw) (sys w2) ->
    let w3 := suspend w2 in
    let conflict := ConcurrentModificationError "Wallet" (tf_targetWalletId dto) in
    (~ versionMatches sw (Wallet.version sw + 1) (sys w3) ->
     WalletService.executeTransfer rnd sourceWalletId dto w = (Throw conflict, suspend (suspend w3)) /\
     (forall attempt, attempt < WalletService.MAX_RETRY_ATTEMPTS ->
        WalletService.executeTransferWithRetry rnd sourceWalletId dto attempt w =
          WalletService.executeTransferWithRetry rnd sourceWalletId dto (attempt + 1)
            (backoff attempt (suspend (suspend w3)))) /\
     (forall attempt, WalletService.MAX_RETRY_ATTEMPTS <= attempt ->
        WalletService.executeTransferWithRetry rnd sourceWalletId dto attempt w =
          (Throw conflict, suspend (suspend (suspend w3))))) /\
    (versionMatches sw (Wallet.version sw + 1) (sys w3) ->
     WalletService.executeTransfer rnd sourceWalletId dto w =
       (Throw conflict,
        suspend (suspend (mkWorld (setWallets (restored sw (sys w3)) (sys w3)) (pending w3))))).
Proof.
  intros rnd src dto w sw tw Hne Hs Ht Hbs Hbt Ha Hle amount w1 Hm1 w2 Hm2 w3 conflict.
  pose proof (executeTransfer_target_conflict rnd src dto w sw tw Hne Hs Ht Hbs Hbt Ha Hle
                Hm1 Hm2) as E.
  cbv zeta in E. fold amount w1 in E. fold w2 in E. fold w3 in E.
  split.
  - intros Hm3.
    rewrite rollbackSourceWallet_refused in E
      by (intros Hvm; apply Hm3; revert Hvm; apply versionMatches_id; reflexivity).
    cbn [snd] in E. split; [exact E|]. split.
    + intros attempt Hlt.
      apply (executeTransferWithRetry_conflict _ _ _ _ _ _ _ E eq_refl Hlt).
    + intros attempt Hge.
      apply (executeTransferWithRetry_last _ _ _ _ _ _ _ E Hge).
  - intros Hm3.
    rewrite rollbackSourceWallet_applied in E
      by (try (revert Hm3; apply versionMatches_id; reflexivity); exact Hbs).
    exact E.
Qed.


(** ** Transfers that cross

    The race with transfers in the place of the fundings: every call is a
    [transferFunds] call, and every amount and balance a small integer, so
    that each sum and difference is exact in the arithmetic of the code as
    it is here. *)


(** * The ledger store, beyond [update] *)

Lemma cloneOf_now wallet s s' : now s' = now s -> cloneOf wallet s' = cloneOf wallet s.
Proof. unfold cloneOf. intros ->. reflexivity. Qed.

Lemma cloneOf_cloneOf wallet s s' : cloneOf (cloneOf wallet s) s' = cloneOf wallet s'.
Proof. reflexivity. Qed.

(** X1: [create] stores a wallet once.  For an id that is not stored and
    a balance of at least zero, [create] returns a clone of its argument
    and stores one under the id of the wallet, leaving the other wallets as
    they were: the wallet is then found by [findById], [exists] is true and
    [count] is one more.  For an id that is stored, [create] throws
    [WalletAlreadyExistsError] and the state is unchanged, whatever the
    balance of the argument. *)
Theorem create_stores_the_wallet_once :
  forall (s : Sys) (wallet : Wallet.t),
    (wallets s !! Wallet.id wallet = None -> (0 <= Wallet.balance wallet)%Q ->
     let s' := setWallets (<[Wallet.id wallet := cloneOf wallet s]> (wallets s)) s in
     WalletRepository.create wallet s = (Return (cloneOf wallet s), s') /\
     WalletRepository.findById (Wallet.id wallet) s' = (Return (Some (cloneOf wallet s)), s') /\
     WalletRepository.exists_ (Wallet.id wallet) s' = (Return true, s') /\
     WalletRepository.count s' = (Return (Z.of_nat (size (wallets s)) + 1), s') /\
     (forall other, other <> Wallet.id wallet -> wallets s' !! other = wallets s !! other)) /\
    (is_Some (wallets s !! Wallet.id wallet) ->
     WalletRepository.create wallet s = (Throw (WalletAlreadyExistsError (Wallet.id wallet)), s)).
Proof.
  intros s wallet. split.
  - intros Hfresh Hb s'. repeat split.
    + unfold WalletRepository.create. rewrite Hfresh.
      rewrite (cloneWallet_nonneg wallet s Hb). fold s'.
      rewrite (cloneWallet_nonneg wallet s' Hb). reflexivity.
    + unfold WalletRepository.findById. subst s'. cbn [wallets setWallets].
      rewrite lookup_insert_eq.
      rewrite cloneWallet_nonneg by exact Hb. reflexivity.
    + unfold WalletRepository.exists_. subst s'. cbn [wallets setWallets].
      rewrite lookup_insert_eq. rewrite bool_decide_eq_true_2 by eauto. reflexivity.
    + unfold WalletRepository.count. subst s'. cbn [wallets setWallets].
      rewrite map_size_insert_None by exact Hfresh.
      f_equal. f_equal. lia.
    + intros other Hne. subst s'. cbn [wallets setWallets].
      apply lookup_insert_ne. congruence.
  - intros [existing He]. unfold WalletRepository.create. rewrite He. reflexivity.
Qed.

Lemma create_stores_the_wallet_once_witness :
  let s := setWallets {[ "acct" := Wallet.mk "acct" USD 100 1 0 0 ]} (emptySys 5 None) in
  let wallet := Wallet.mk "other" USD 30 1 2 3 in
  wallets s !! "other" = None /\
  (0 <= Wallet.balance wallet)%Q /\
  WalletRepository.findById "other" (snd (WalletRepository.create wallet s))
    = (Return (Some (Wallet.mk "other" USD 30 1 5 3)), snd (WalletRepository.create wallet s)) /\
  fst (WalletRepository.count (snd (WalletRepository.create wallet s))) = Return 2 /\
  is_Some (wallets s !! "acct") /\
  WalletRepository.create (Wallet.mk "acct" USD 7 1 0 0) s
    = (Throw (WalletAlreadyExistsError "acct"), s).
Proof.
  intros s wallet.
  assert (Hfresh : wallets s !! Wallet.id wallet = None) by reflexivity.
  assert (Hb : (0 <= Wallet.balance wallet)%Q) by (vm_compute; discriminate).
  assert (Hdup : is_Some (wallets s !! Wallet.id (Wallet.mk "acct" USD 7 1 0 0)))
    by (eexists; reflexivity).
  destruct (create_stores_the_wallet_once s wallet) as [Hnew _].
  destruct (Hnew Hfresh Hb) as (Hc & Hf & _ & Hn & _).
  destruct (create_stores_the_wallet_once s (Wallet.mk "acct" USD 7 1 0 0)) as [_ Hold].
  split; [exact Hfresh|]. split; [exact Hb|].
  rewrite Hc. cbn [snd].
  split; [exact Hf|]. split; [rewrite Hn; reflexivity|].
  split; [exact Hdup|]. exact (Hold Hdup).
Defined.

(** X2: [delete] removes the wallet and nothing else.  It returns [true]
    exactly when the id is stored; [exists] is then false, [findById]
    returns [null], [count] is one less and the other wallets are as they
    were.  For an id that is not stored it returns [false] and the state is
    unchanged. *)
Theorem delete_removes_the_wallet_only :
  forall (s : Sys) (id : string),
    (fst (WalletRepository.delete id s) = Return true <-> is_Some (wallets s !! id)) /\
    (is_Some (wallets s !! id) ->
     let s' := snd (WalletRepository.delete id s) in
     WalletRepository.exists_ id s' = (Return false, s') /\
     WalletRepository.findById id s' = (Return None, s') /\
     WalletRepository.count s' = (Return (Z.of_nat (size (wallets s)) - 1), s') /\
     (forall other, other <> id -> wallets s' !! other = wallets s !! other)) /\
    (wallets s !! id = None -> WalletRepository.delete id s = (Return false, s)).
Proof.
  intros s id. unfold WalletRepository.delete.
  destruct (wallets s !! id) as [w|] eqn:E.
  - split; [split; [eauto|reflexivity]|]. split; [|discriminate].
    intros _. cbn [snd]. repeat split.
    + unfold WalletRepository.exists_. cbn [wallets setWallets].
      rewrite lookup_delete_eq. rewrite bool_decide_eq_false_2; [reflexivity|].
      intros [? ?]. discriminate.
    + unfold WalletRepository.findById. cbn [wallets setWallets].
      rewrite lookup_delete_eq. reflexivity.
    + unfold WalletRepository.count. cbn [wallets setWallets].
      rewrite map_size_delete, E.
      assert (size (wallets s) <> 0)%nat.
      { intros H0. apply map_size_empty_inv in H0. rewrite H0, lookup_empty in E. discriminate. }
      f_equal. f_equal. lia.
    + intros other Hne. cbn [wallets setWallets]. apply lookup_delete_ne. congruence.
  - split; [split; [discriminate|intros [? ?]; discriminate]|].
    split; [intros [? ?]; discriminate|reflexivity].
Qed.

Lemma delete_removes_the_wallet_only_witness :
  let s := setWallets {[ "acct" := Wallet.mk "acct" USD 100 1 0 0 ]} (emptySys 5 None) in
  is_Some (wallets s !! "acct") /\
  fst (WalletRepository.delete "acct" s) = Return true /\
  fst (WalletRepository.count (snd (WalletRepository.delete "acct" s))) = Return 0 /\
  wallets s !! "none" = None /\
  WalletRepository.delete "none" s = (Return false, s).
Proof.
  intros s.
  assert (Hs : is_Some (wallets s !! "acct")) by (eexists; reflexivity).
  assert (Hn : wallets s !! "none" = None) by reflexivity.
  destruct (delete_removes_the_wallet_only s "acct") as (Hiff & Hgone & _).
  destruct (delete_removes_the_wallet_only s "none") as (_ & _ & Hmiss).
  destruct (Hgone Hs) as (_ & _ & Hc & _).
  split; [exact Hs|]. split; [apply Hiff; exact Hs|].
  split; [rewrite Hc; reflexivity|]. split; [exact Hn|exact (Hmiss Hn)].
Defined.

(** ** Batch reads *)

Lemma findByIds_loop_spec ids : forall (result : gmap string Wallet.t) (s : Sys),
  (forall id wallet, id ∈ ids -> wallets s !! id = Some wallet -> (0 <= Wallet.balance wallet)%Q) ->
  exists found,
    WalletRepository.findByIds_loop ids result s = Return found /\
    forall id,
      found !! id =
        if bool_decide (id ∈ ids)
        then match wallets s !! id with
             | Some wallet => Some (cloneOf wallet s)
             | None => result !! id
             end
        else result !! id.
Proof.
  induction ids as [|i rest IH]; intros result s Hb.
  - exists result. split; [reflexivity|]. intros id.
    rewrite bool_decide_eq_false_2 by (apply not_elem_of_nil). reflexivity.
  - cbn [WalletRepository.findByIds_loop].
    destruct (wallets s !! i) as [wallet|] eqn:Ei.
    + rewrite (cloneWallet_nonneg wallet s) by (apply (Hb i); [left|exact Ei]).
      destruct (IH (<[i := cloneOf wallet s]> result) s) as (found & E & Hf).
      { intros id w Hin. apply Hb. right. exact Hin. }
      exists found. split; [exact E|]. intros id. rewrite Hf.
      destruct (decide (id = i)) as [->|Hne].
      * rewrite Ei, lookup_insert_eq.
        rewrite (bool_decide_eq_true_2 (i ∈ i :: rest)) by left.
        destruct (bool_decide (i ∈ rest)); reflexivity.
      * rewrite lookup_insert_ne by congruence.
        rewrite (bool_decide_ext (id ∈ i :: rest) (id ∈ rest)); [reflexivity|].
        rewrite elem_of_cons. tauto.
    + destruct (IH result s) as (found & E & Hf).
      { intros id w Hin. apply Hb. right. exact Hin. }
      exists found. split; [exact E|]. intros id. rewrite Hf.
      destruct (decide (id = i)) as [->|Hne].
      * rewrite Ei.
        rewrite (bool_decide_eq_true_2 (i ∈ i :: rest)) by left.
        destruct (bool_decide (i ∈ rest)); reflexivity.
      * rewrite (bool_decide_ext (id ∈ i :: rest) (id ∈ rest)); [reflexivity|].
        rewrite elem_of_cons. tauto.
Qed.

(** X3: [findByIds] returns the requested wallets that are stored.  When
    the requested wallets that are stored have balances of at least zero,
    the call returns a map that holds, for every requested id that is
    stored, a clone of the stored wallet, and nothing for any other id: ids
    that are not stored are skipped without an error, an id requested twice
    is returned once, and the state is unchanged. *)
Theorem findByIds_returns_the_stored_ones :
  forall (s : Sys) (ids : list string),
    (forall id wallet, id ∈ ids -> wallets s !! id = Some wallet ->
                       (0 <= Wallet.balance wallet)%Q) ->
    exists found,
      WalletRepository.findByIds ids s = (Return found, s) /\
      (forall id wallet, id ∈ ids -> wallets s !! id = Some wallet ->
                         found !! id = Some (cloneOf wallet s)) /\
      (forall id, id ∈ ids -> wallets s !! id = None -> found !! id = None) /\
      (forall id, id ∉ ids -> found !! id = None).
Proof.
  intros s ids Hb.
  destruct (findByIds_loop_spec ids ∅ s Hb) as (found & E & Hf).
  exists found. unfold WalletRepository.findByIds. rewrite E.
  split; [reflexivity|]. repeat split.
  - intros id wallet Hin Hw. rewrite Hf, bool_decide_eq_true_2, Hw by exact Hin. reflexivity.
  - intros id Hin Hw. rewrite Hf, bool_decide_eq_true_2, Hw by exact Hin. apply lookup_empty.
  - intros id Hin. rewrite Hf, bool_decide_eq_false_2 by exact Hin. apply lookup_empty.
Qed.

Lemma findByIds_returns_the_stored_ones_witness :
  let s := setWallets {[ "acct" := Wallet.mk "acct" USD 100 1 0 0 ]} (emptySys 5 None) in
  let ids := ["none"; "acct"; "acct"] in
  (forall id wallet, id ∈ ids -> wallets s !! id = Some wallet ->
                     (0 <= Wallet.balance wallet)%Q) /\
  exists found,
    WalletRepository.findByIds ids s = (Return found, s) /\
    found !! "acct" = Some (Wallet.mk "acct" USD 100 1 5 0) /\
    found !! "none" = None.
Proof.
  intros s ids.
  assert (Hw : wallets s !! "acct" = Some (Wallet.mk "acct" USD 100 1 0 0)) by reflexivity.
  assert (Hn : wallets s !! "none" = None) by reflexivity.
  assert (Hb : forall id wallet, id ∈ ids -> wallets s !! id = Some wallet ->
                                 (0 <= Wallet.balance wallet)%Q).
  { intros id wallet Hin Hs. destruct (decide (id = "acct")) as [->|Hne].
    - rewrite Hw in Hs. injection Hs as <-. vm_compute. discriminate.
    - subst s. cbn [wallets setWallets] in Hs.
      rewrite lookup_singleton_ne in Hs by congruence. discriminate. }
  split; [exact Hb|].
  destruct (findByIds_returns_the_stored_ones s ids Hb) as (found & E & Hsome & Hnone & _).
  exists found. split; [exact E|]. split.
  - apply (Hsome "acct" _ ltac:(right; left) Hw).
  - apply (Hnone "none" ltac:(left) Hn).
Defined.

(** ** Listing *)

Lemma cloneAll_nonneg stored s :
  Forall (fun wallet => (0 <= Wallet.balance wallet)%Q) stored ->
  WalletRepository.cloneAll stored s = Return (map (fun wallet => cloneOf wallet s) stored).
Proof.
  induction 1 as [|wallet rest Hb _ IH]; [reflexivity|].
  cbn [WalletRepository.cloneAll map]. rewrite (cloneWallet_nonneg wallet s Hb), IH. reflexivity.
Qed.

Lemma enumerates_Forall (P : Wallet.t -> Prop) stored s :
  enumerates stored s ->
  (forall id wallet, wallets s !! id = Some wallet -> P wallet) ->
  Forall P stored.
Proof.
  intros He HP. unfold enumerates in He. rewrite He.
  apply Forall_fmap, Forall_forall. intros [id wallet] Hin.
  apply elem_of_map_to_list in Hin. exact (HP id wallet Hin).
Qed.

Lemma enumerates_length stored s : enumerates stored s -> length stored = size (wallets s).
Proof.
  intros He. unfold enumerates in He. rewrite He, length_fmap. apply length_map_to_list.
Qed.

(** X4: [findAll] and [listWallets] return every stored wallet once.
    When every stored balance is at least zero and [stored] lists the
    wallets of the store in the order the map is walked, [findAll] returns
    the clones of these wallets in that order and [listWallets] their
    responses, as many as [count] counts; every stored wallet has its clone
    in the result, and the state is unchanged but for the suspension point
    of [listWallets]. *)
Theorem findAll_lists_every_wallet :
  forall (s : Sys) (stored : list Wallet.t) (tasks : list Task),
    NonNegative s ->
    enumerates stored s ->
    WalletRepository.findAll stored s = (Return (map (fun wallet => cloneOf wallet s) stored), s) /\
    WalletService.listWallets stored (mkWorld s tasks) =
      (Return (map (fun wallet => WalletService.mapToWalletResponse (cloneOf wallet s)) stored),
       suspend (mkWorld s tasks)) /\
    WalletRepository.count s = (Return (Z.of_nat (length stored)), s) /\
    (forall id wallet, wallets s !! id = Some wallet -> wallet ∈ stored).
Proof.
  intros s stored tasks Hnn He.
  assert (Hall : WalletRepository.cloneAll stored s
                 = Return (map (fun wallet => cloneOf wallet s) stored)).
  { apply cloneAll_nonneg. apply (enumerates_Forall _ stored s He). exact Hnn. }
  repeat split.
  - unfold WalletRepository.findAll. rewrite Hall. reflexivity.
  - unfold WalletService.listWallets, bind, await, run, WalletRepository.findAll, ret.
    cbn [sys pending]. rewrite Hall. rewrite map_map. reflexivity.
  - unfold WalletRepository.count. rewrite (enumerates_length stored s He). reflexivity.
  - intros id wallet Hw. unfold enumerates in He. rewrite He.
    apply list_elem_of_fmap. exists (id, wallet). split; [reflexivity|].
    apply elem_of_map_to_list. exact Hw.
Qed.

Lemma findAll_lists_every_wallet_witness :
  let stored := [Wallet.mk "alice" USD 50 1 startTime startTime;
                 Wallet.mk "bob" USD 0 1 startTime startTime] in
  NonNegative (sys world1) /\
  enumerates stored (sys world1) /\
  WalletRepository.findAll stored (sys world1) = (Return stored, sys world1) /\
  WalletRepository.count (sys world1) = (Return 2, sys world1).
Proof.
  intros stored.
  assert (Hnn : NonNegative (sys world1))
    by exact (proj1 (performAll_Safe nonNegative nonNegative_clone openAccounts world0
                       (world0_Safe nonNegative))).
  assert (He : enumerates stored (sys world1)).
  { unfold enumerates. vm_compute. 
    first [reflexivity | apply perm_swap]. }
  destruct (findAll_lists_every_wallet (sys world1) stored [] Hnn He) as (Hf & _ & Hc & _).
  split; [exact Hnn|]. split; [exact He|]. split; [exact Hf|exact Hc].
Defined.

(** * The entities *)

(** X5: [deduct] and [hasSufficientBalance] agree.  For a positive
    amount, [deduct] succeeds exactly when [hasSufficientBalance] is true;
    it then leaves a balance of at least zero, the old balance less the
    amount, with the version one higher and the update time set, the id,
    the currency and the creation time being kept.  When
    [hasSufficientBalance] is false, [deduct] throws and when the amount is
    not positive it throws whatever the balance. *)
Theorem deduct_succeeds_iff_sufficient :
  forall (now : Z) (amount : Q) (wallet : Wallet.t),
    ((0 < amount)%Q ->
     ((exists wallet', Wallet.deduct now amount wallet = Return wallet')
      <-> Wallet.hasSufficientBalance amount wallet = true) /\
     (Wallet.hasSufficientBalance amount wallet = false ->
      Wallet.deduct now amount wallet
        = Throw (JsError (DeductInsufficientBalance amount (Wallet.balance wallet)))) /\
     (forall wallet', Wallet.deduct now amount wallet = Return wallet' ->
        (0 <= Wallet.balance wallet')%Q /\
        Wallet.balance wallet' = (Wallet.balance wallet - amount)%Q /\
        Wallet.version wallet' = Wallet.version wallet + 1 /\
        Wallet.updatedAt wallet' = now /\
        Wallet.id wallet' = Wallet.id wallet /\
        Wallet.currency wallet' = Wallet.currency wallet /\
        Wallet.createdAt wallet' = Wallet.createdAt wallet)) /\
    ((amount <= 0)%Q ->
     Wallet.deduct now amount wallet = Throw (JsError (DeductAmountNotPositive amount))).
Proof.
  intros now amount wallet. unfold Wallet.deduct, Wallet.hasSufficientBalance, Qltb. split.
  - intros Ha. apply Qle_bool_false in Ha. rewrite Ha.
    destruct (Qle_bool amount (Wallet.balance wallet)) eqn:E; cbn [negb].
    + split; [split; [reflexivity|eauto]|]. split; [discriminate|].
      intros wallet' [= <-]. cbn. repeat split.
      apply Qle_bool_iff in E. lra.
    + split; [split; [intros [? ?]; discriminate|discriminate]|].
      split; [reflexivity|]. intros ? ?. discriminate.
  - intros Ha. apply Qle_bool_iff in Ha. rewrite Ha. reflexivity.
Qed.

Lemma deduct_succeeds_iff_sufficient_witness :
  let wallet := Wallet.mk "acct" USD 100 1 0 0 in
  (0 < 30)%Q /\
  Wallet.hasSufficientBalance 30 wallet = true /\
  (exists wallet', Wallet.deduct 9 30 wallet = Return wallet') /\
  Wallet.hasSufficientBalance 101 wallet = false /\
  Wallet.deduct 9 101 wallet = Throw (JsError (DeductInsufficientBalance 101 100)) /\
  (0 <= 0)%Q /\
  Wallet.deduct 9 0 wallet = Throw (JsError (DeductAmountNotPositive 0)).
Proof.
  intros wallet.
  assert (H30 : (0 < 30)%Q) by reflexivity.
  assert (H101 : (0 < 101)%Q) by reflexivity.
  assert (H0 : (0 <= 0)%Q) by (vm_compute; discriminate).
  assert (Hs : Wallet.hasSufficientBalance 30 wallet = true) by reflexivity.
  assert (Hn : Wallet.hasSufficientBalance 101 wallet = false) by reflexivity.
  destruct (deduct_succeeds_iff_sufficient 9 30 wallet) as [Hpos _].
  destruct (Hpos H30) as (Hiff & _ & _).
  destruct (deduct_succeeds_iff_sufficient 9 101 wallet) as [Hpos' _].
  destruct (Hpos' H101) as (_ & Hthrow & _).
  destruct (deduct_succeeds_iff_sufficient 9 0 wallet) as [_ Hzero].
  split; [exact H30|]. split; [exact Hs|]. split; [apply Hiff; exact Hs|].
  split; [exact Hn|]. split; [exact (Hthrow Hn)|]. split; [exact H0|exact (Hzero H0)].
Defined.

Lemma strictEquals_spec (a : option string) (b : string) :
  Transaction.strictEquals a b = true <-> a = Some b.
Proof.
  destruct a as [a|]; cbn.
  - rewrite String.eqb_eq. split; congruence.
  - split; discriminate.
Qed.

Lemma strictEquals_false (a : option string) (b : string) :
  Transaction.strictEquals a b = false <-> a <> Some b.
Proof.
  rewrite <- strictEquals_spec. destruct (Transaction.strictEquals a b); split; congruence.
Qed.

(** X6: the impact of a transaction on a wallet.  [getImpactForWallet]
    is ['credit'] exactly for the target of a transaction whose source is
    another wallet or none, and ['debit'] exactly for the source of a
    transaction whose target is another wallet.  It is [null] for every
    wallet that the transaction does not involve, and, among the wallets
    that [involvesWallet] accepts, only for a wallet that is both the source
    and the target. *)
Theorem impact_follows_source_and_target :
  forall (walletId : string) (tx : Transaction.t),
    (Transaction.getImpactForWallet walletId tx = Some Transaction.Credit
     <-> Transaction.targetWalletId tx = walletId /\
         Transaction.sourceWalletId tx <> Some walletId) /\
    (Transaction.getImpactForWallet walletId tx = Some Transaction.Debit
     <-> Transaction.sourceWalletId tx = Some walletId /\
         Transaction.targetWalletId tx <> walletId) /\
    (Transaction.involvesWallet walletId tx = false ->
     Transaction.getImpactForWallet walletId tx = None) /\
    (Transaction.involvesWallet walletId tx = true ->
     (Transaction.getImpactForWallet walletId tx = None
      <-> Transaction.sourceWalletId tx = Some walletId /\
          Transaction.targetWalletId tx = walletId)).
Proof.
  intros walletId tx.
  unfold Transaction.getImpactForWallet, Transaction.involvesWallet.
  destruct (Transaction.strictEquals (Transaction.sourceWalletId tx) walletId) eqn:Es;
    destruct (String.eqb_spec (Transaction.targetWalletId tx) walletId) as [Et|Et];
    cbn [andb orb negb];
    [apply strictEquals_spec in Es | apply strictEquals_spec in Es
     | apply strictEquals_false in Es | apply strictEquals_false in Es];
    repeat split; try congruence; try tauto;
    try (intros [? ?]; congruence); try discriminate.
Qed.

(** * The transaction log and its queries *)

Section Sorting.

Import TransactionRepository.

Variable compare : Transaction.t -> Transaction.t -> Z.

Lemma insertSorted_Permutation a sorted : insertSorted compare a sorted ≡ₚ a :: sorted.
Proof.
  induction sorted as [|b rest IH]; [reflexivity|].
  cbn [insertSorted]. destruct (compare a b <=? 0); [reflexivity|].
  rewrite IH. apply perm_swap.
Qed.

Lemma Array_sort_Permutation items : Array_sort compare items ≡ₚ items.
Proof.
  induction items as [|a rest IH]; [reflexivity|].
  unfold Array_sort in *. cbn [foldr]. rewrite insertSorted_Permutation, IH. reflexivity.
Qed.

Variable R : Transaction.t -> Transaction.t -> Prop.
Hypothesis R_trans : forall a b c, R a b -> R b c -> R a c.
Hypothesis compare_le : forall a b, compare a b <= 0 -> R a b.
Hypothesis compare_gt : forall a b, 0 < compare a b -> R b a.

Lemma insertSorted_StronglySorted a sorted :
  StronglySorted R sorted -> StronglySorted R (insertSorted compare a sorted).
Proof.
  induction 1 as [|b rest Hs IH Hb]; cbn [insertSorted].
  - repeat constructor.
  - destruct (Z.leb_spec (compare a b) 0) as [Hle|Hgt].
    + constructor; [constructor; assumption|].
      constructor; [apply compare_le; exact Hle|].
      eapply Forall_impl; [exact Hb|]. intros x Hx.
      apply (R_trans a b x); [apply compare_le; exact Hle|exact Hx].
    + constructor; [exact IH|].
      rewrite insertSorted_Permutation. constructor; [apply compare_gt; exact Hgt|exact Hb].
Qed.

Lemma Array_sort_StronglySorted items : StronglySorted R (Array_sort compare items).
Proof.
  induction items as [|a rest IH]; [constructor|].
  unfold Array_sort in *. cbn [foldr]. apply insertSorted_StronglySorted. exact IH.
Qed.

Hypothesis compare_same_time :
  forall a b, Transaction.createdAt a = Transaction.createdAt b -> compare a b <= 0.

Lemma insertSorted_stable time a sorted :
  List.filter (createdAtTime time) (insertSorted compare a sorted)
  = List.filter (createdAtTime time) (a :: sorted).
Proof.
  induction sorted as [|b rest IH]; [reflexivity|].
  cbn [insertSorted]. destruct (Z.leb_spec (compare a b) 0) as [Hle|Hgt]; [reflexivity|].
  cbn [List.filter] in *. rewrite IH. unfold createdAtTime.
  destruct (Z.eqb_spec (Transaction.createdAt a) time) as [Ha|Ha];
    destruct (Z.eqb_spec (Transaction.createdAt b) time) as [Hb|Hb]; try reflexivity.
  exfalso. specialize (compare_same_time a b). lia.
Qed.

Lemma Array_sort_stable time items :
  List.filter (createdAtTime time) (Array_sort compare items)
  = List.filter (createdAtTime time) items.
Proof.
  induction items as [|a rest IH]; [reflexivity|].
  unfold Array_sort in *. cbn [foldr]. rewrite insertSorted_stable.
  cbn [List.filter]. rewrite IH. reflexivity.
Qed.

End Sorting.

Lemma cloneTransaction_accepted tx s :
  accepted tx = true -> TransactionRepository.cloneTransaction tx s = Return (copyOf tx s).
Proof.
  unfold accepted, TransactionRepository.cloneTransaction, Transaction.new,
    Transaction.validateAmount.
  intros H. apply andb_true_iff in H as [Ha Ht]. apply negb_true_iff in Ha. rewrite Ha.
  destruct (Transaction.validateTransactionType _ _) as [[]|e]; [reflexivity|discriminate].
Qed.

Lemma cloneTransactions_accepted items s :
  Forall (fun tx => accepted tx = true) items ->
  TransactionRepository.cloneTransactions items s = Return (map (fun tx => copyOf tx s) items).
Proof.
  induction 1 as [|tx rest Htx _ IH]; [reflexivity|].
  cbn [TransactionRepository.cloneTransactions map].
  rewrite (cloneTransaction_accepted tx s Htx), IH. reflexivity.
Qed.

Lemma Forall_accepted_filter (p : Transaction.t -> bool) items :
  forallb accepted items = true ->
  Forall (fun tx => accepted tx = true) (List.filter p items).
Proof.
  intros H. apply Forall_forall. intros tx Hin.
  apply list_elem_of_In, filter_In in Hin as [Hin _].
  rewrite forallb_forall in H. apply H. exact Hin.
Qed.

Lemma sorted_of_order (order : option TransactionRepository.SortOrder)
    (items : list Transaction.t) :
  let compare :=
    match default TransactionRepository.desc order with
    | TransactionRepository.desc => TransactionRepository.newestFirst
    | TransactionRepository.asc => TransactionRepository.oldestFirst
    end in
  TransactionRepository.Array_sort compare items ≡ₚ items /\
  StronglySorted (precedes order) (TransactionRepository.Array_sort compare items) /\
  (forall time,
     List.filter (createdAtTime time) (TransactionRepository.Array_sort compare items)
     = List.filter (createdAtTime time) items).
Proof.
  intros compare. split; [apply Array_sort_Permutation|]. split.
  - apply Array_sort_StronglySorted; subst compare; unfold precedes;
      destruct (default TransactionRepository.desc order);
      unfold TransactionRepository.newestFirst, TransactionRepository.oldestFirst;
      intros; lia.
  - intros time. apply Array_sort_stable. subst compare.
    destruct (default TransactionRepository.desc order);
      unfold TransactionRepository.newestFirst, TransactionRepository.oldestFirst;
      intros; lia.
Qed.

Lemma findByWalletId_page (s : Sys) (walletId : string)
    (order : option TransactionRepository.SortOrder) (limit offset : option nat) :
  forallb accepted (transactions s) = true ->
  let compare :=
    match default TransactionRepository.desc order with
    | TransactionRepository.desc => TransactionRepository.newestFirst
    | TransactionRepository.asc => TransactionRepository.oldestFirst
    end in
  let sorted :=
    TransactionRepository.Array_sort compare
      (List.filter (Transaction.involvesWallet walletId) (transactions s)) in
  let rest := drop (default O offset) sorted in
  let chosen := match limit with Some n => take n rest | None => rest end in
  TransactionRepository.findByWalletId walletId
    (Some {| TransactionRepository.limit := limit;
             TransactionRepository.offset := offset;
             TransactionRepository.sortOrder := order |}) s
  = (Return (map (fun tx => copyOf tx s) chosen), s).
Proof.
  intros Hacc compare sorted rest chosen.
  assert (Hall : Forall (fun tx => accepted tx = true) sorted).
  { subst sorted compare. rewrite (proj1 (sorted_of_order order _)).
    apply Forall_accepted_filter. exact Hacc. }
  unfold TransactionRepository.findByWalletId.
  cbn [TransactionRepository.limit TransactionRepository.offset
       TransactionRepository.sortOrder mbind option_bind].
  subst chosen rest sorted compare.
  destruct order as [[|]|]; cbn [default] in *;
    (rewrite cloneTransactions_accepted; [reflexivity|]);
    destruct limit; try apply Forall_take; apply Forall_drop; exact Hall.
Qed.

(** X7: [findByWalletId] pages the history of a wallet.  On a log of
    transactions that the constructor accepts, the query returns clones of
    the transactions that involve the wallet, and of no other: these
    transactions are put newest first, or oldest first when [asc] is asked
    for, the ones created at the same time keeping the order of the log;
    the first [offset] of them are skipped and at most [limit] of the rest
    are returned, all of them when no limit is given.  [countByWalletId]
    counts the transactions before the paging, and absent options are the
    options with every field absent.  The state is unchanged. *)
Theorem findByWalletId_pages_the_history :
  forall (s : Sys) (walletId : string) (order : option TransactionRepository.SortOrder),
    forallb accepted (transactions s) = true ->
    let involved := List.filter (Transaction.involvesWallet walletId) (transactions s) in
    exists sorted,
      sorted ≡ₚ involved /\
      StronglySorted (precedes order) sorted /\
      (forall time,
         List.filter (createdAtTime time) sorted = List.filter (createdAtTime time) involved) /\
      (forall (limit offset : option nat),
         let rest := drop (default O offset) sorted in
         let chosen := match limit with Some n => take n rest | None => rest end in
         TransactionRepository.findByWalletId walletId
           (Some {| TransactionRepository.limit := limit;
                    TransactionRepository.offset := offset;
                    TransactionRepository.sortOrder := order |}) s
           = (Return (map (fun tx => copyOf tx s) chosen), s)) /\
      TransactionRepository.countByWalletId walletId s = (Return (Z.of_nat (length sorted)), s) /\
      TransactionRepository.findByWalletId walletId None s
        = TransactionRepository.findByWalletId walletId
            (Some {| TransactionRepository.limit := None;
                     TransactionRepository.offset := None;
                     TransactionRepository.sortOrder := None |}) s.
Proof.
  intros s walletId order Hacc involved.
  destruct (sorted_of_order order involved) as (Hperm & Hsorted & Hstable).
  eexists. split; [exact Hperm|]. split; [exact Hsorted|]. split; [exact Hstable|].
  split; [|split; [|reflexivity]].
  - intros limit offset. exact (findByWalletId_page s walletId order limit offset Hacc).
  - unfold TransactionRepository.countByWalletId. fold involved.
    rewrite (Permutation_length Hperm). reflexivity.
Qed.

Lemma findByWalletId_pages_the_history_witness :
  forallb accepted (transactions (sys history)) = true /\
  exists sorted,
    length sorted = 2%nat /\
    StronglySorted (precedes None) sorted /\
    TransactionRepository.findByWalletId "alice"
      (Some {| TransactionRepository.limit := Some 1%nat;
               TransactionRepository.offset := None;
               TransactionRepository.sortOrder := None |}) (sys history)
      = (Return (map (fun tx => copyOf tx (sys history)) (take 1 (drop 0 sorted))), sys history) /\
    TransactionRepository.countByWalletId "alice" (sys history) = (Return 2, sys history).
Proof.
  assert (Hacc : forallb accepted (transactions (sys history)) = true)
    by (vm_compute; reflexivity).
  split; [exact Hacc|].
  destruct (findByWalletId_pages_the_history (sys history) "alice" None Hacc)
    as (sorted & Hperm & Hsorted & _ & Hfind & Hcount & _).
  exists sorted.
  assert (Hlen : length sorted = 2%nat).
  { rewrite (Permutation_length Hperm). vm_compute. reflexivity. }
  split; [exact Hlen|]. split; [exact Hsorted|]. split; [exact (Hfind (Some 1%nat) None)|].
  rewrite Hcount, Hlen. reflexivity.
Defined.

(** X8: [getWalletDetails] shows the wallet and its latest fifty
    transactions.  For a wallet that is not stored the call throws
    [WalletNotFoundError] after the two suspension points of the fetch,
    before the log is read.  Run without interleaving for a stored wallet
    with a balance of at least zero, on a log of transactions that the
    constructor accepts, it returns the response of the wallet, the
    responses of the first fifty transactions that involve the wallet,
    newest first, and the number of all the transactions that involve it;
    the state is unchanged.  The wallet and the transactions are clones made
    at the time of the call. *)
Theorem getWalletDetails_shows_the_latest_fifty :
  forall (walletId : string),
    (forall (w : World),
       wallets (sys w) !! walletId = None ->
       WalletService.getWalletDetails walletId w
         = (Throw (WalletNotFoundError walletId), suspend (suspend w))) /\
    (forall (s : Sys) (stored : Wallet.t),
       wallets s !! walletId = Some stored ->
       (0 <= Wallet.balance stored)%Q ->
       forallb accepted (transactions s) = true ->
       exists sorted,
         sorted ≡ₚ List.filter (Transaction.involvesWallet walletId) (transactions s) /\
         StronglySorted (precedes (Some TransactionRepository.desc)) sorted /\
         WalletService.getWalletDetails walletId (alone s) =
           (Return {| wd_wallet := WalletService.mapToWalletResponse (cloneOf stored s);
                      wd_transactions :=
                        map (fun tx => TransactionService.mapToTransactionResponse (copyOf tx s))
                            (take 50 sorted);
                      wd_totalTransactions := Z.of_nat (length sorted) |},
            alone s)).
Proof.
  intros walletId. split.
  - intros w Hnone. unfold WalletService.getWalletDetails.
    unfold bind at 1, await at 1. unfold WalletService.getWalletOrThrow.
    unfold bind at 1, await at 1, run at 1, WalletRepository.findById.
    rewrite Hnone. rewrite world_eta. reflexivity.
  - intros s stored Hs Hb Hacc.
    destruct (sorted_of_order (Some TransactionRepository.desc)
                (List.filter (Transaction.involvesWallet walletId) (transactions s)))
      as (Hperm & Hsorted & _).
    pose proof (findByWalletId_page s walletId (Some TransactionRepository.desc)
                  (Some 50%nat) None Hacc) as Hfind.
    cbn [default id] in Hperm, Hsorted, Hfind. cbv zeta in Hfind.
    assert (Hcount : TransactionRepository.countByWalletId walletId s
                     = (Return (Z.of_nat (length (TransactionRepository.Array_sort
                          TransactionRepository.newestFirst
                          (List.filter (Transaction.involvesWallet walletId)
                             (transactions s))))), s)).
    { unfold TransactionRepository.countByWalletId.
      rewrite (Permutation_length Hperm). reflexivity. }
    eexists. split; [exact Hperm|]. split; [exact Hsorted|].
    unfold WalletService.getWalletDetails.
    unfold bind at 1, await at 1. unfold WalletService.getWalletOrThrow.
    unfold bind at 1, await at 1, run at 1, WalletRepository.findById.
    cbn [sys alone pending]. rewrite Hs, (cloneWallet_nonneg stored s Hb).
    cbn [suspend pending ret].
    unfold bind at 1, await at 1. unfold TransactionService.getWalletTransactions.
    unfold await at 1, run at 1. cbn [sys pending].
    rewrite Hfind. cbn [suspend pending drop default].
    unfold bind at 1, await at 1. unfold TransactionService.countWalletTransactions.
    unfold await at 1, run at 1. cbn [sys pending].
    rewrite Hcount. cbn [suspend pending ret]. rewrite map_map. reflexivity.
Qed.

Lemma getWalletDetails_shows_the_latest_fifty_witness :
  let alice := Wallet.mk "alice" USD 35 3 1736944247000 1736944247000 in
  wallets (sys history) !! "carol" = None /\
  WalletService.getWalletDetails "carol" history
    = (Throw (WalletNotFoundError "carol"), suspend (suspend history)) /\
  wallets (sys history) !! "alice" = Some alice /\
  (0 <= Wallet.balance alice)%Q /\
  forallb accepted (transactions (sys history)) = true /\
  exists details,
    WalletService.getWalletDetails "alice" (alone (sys history))
      = (Return details, alone (sys history)) /\
    wd_totalTransactions details = 2 /\
    length (wd_transactions details) = 2%nat.
Proof.
  intros alice.
  assert (Hnone : wallets (sys history) !! "carol" = None) by (vm_compute; reflexivity).
  assert (Hs : wallets (sys history) !! "alice" = Some alice) by (vm_compute; reflexivity).
  assert (Hb : (0 <= Wallet.balance alice)%Q) by (vm_compute; discriminate).
  assert (Hacc : forallb accepted (transactions (sys history)) = true)
    by (vm_compute; reflexivity).
  destruct (getWalletDetails_shows_the_latest_fifty "carol") as [Hmissing _].
  destruct (getWalletDetails_shows_the_latest_fifty "alice") as [_ Hfound].
  destruct (Hfound (sys history) alice Hs Hb Hacc) as (sorted & Hperm & _ & E).
  assert (Hlen : length sorted = 2%nat).
  { rewrite (Permutation_length Hperm). vm_compute. reflexivity. }
  split; [exact Hnone|]. split; [exact (Hmissing history Hnone)|].
  split; [exact Hs|]. split; [exact Hb|]. split; [exact Hacc|].
  eexists. split; [exact E|]. cbn [wd_totalTransactions wd_transactions].
  rewrite length_map, length_take, Hlen. split; reflexivity.
Defined.

(** X9: [findAll] and [findByType] page only under a positive limit.
    On a log of transactions that the constructor accepts, [findAll] returns
    clones of the whole log, newest first (the transactions created at the
    same time in the order of the log), or in the order of the log when
    [asc] is asked for, and [findByType] clones of the transactions of the
    type in the order of the log.  When the limit is absent or zero, all of
    them are returned and the offset is ignored; under a positive limit the
    first [offset] are skipped and at most [limit] returned. *)
Theorem findAll_pages_under_a_positive_limit :
  forall (s : Sys) (type : string),
    forallb accepted (transactions s) = true ->
    let ofType :=
      List.filter (fun tx => String.eqb (TransactionType_toString (Transaction.type tx)) type)
                  (transactions s) in
    exists sorted,
      sorted ≡ₚ transactions s /\
      StronglySorted (precedes None) sorted /\
      (forall time,
         List.filter (createdAtTime time) sorted
         = List.filter (createdAtTime time) (transactions s)) /\
      forall (limit offset : option nat),
        let options order :=
          Some {| TransactionRepository.limit := limit;
                  TransactionRepository.offset := offset;
                  TransactionRepository.sortOrder := order |} in
        let page (items : list Transaction.t) :=
          match limit with
          | Some (S n) => take (S n) (drop (default O offset) items)
          | _ => items
          end in
        TransactionRepository.findAll (options None) s
          = (Return (map (fun tx => copyOf tx s) (page sorted)), s) /\
        TransactionRepository.findAll (options (Some TransactionRepository.asc)) s
          = (Return (map (fun tx => copyOf tx s) (page (transactions s))), s) /\
        TransactionRepository.findByType type (options None) s
          = (Return (map (fun tx => copyOf tx s) (page ofType)), s).
Proof.
  intros s type Hacc ofType.
  destruct (sorted_of_order None (transactions s)) as (Hperm & Hsorted & Hstable).
  cbn [default] in Hperm, Hsorted, Hstable.
  assert (Hlog : Forall (fun tx => accepted tx = true) (transactions s)).
  { apply Forall_forall. intros tx Hin. rewrite forallb_forall in Hacc.
    apply Hacc, list_elem_of_In. exact Hin. }
  eexists. split; [exact Hperm|]. split; [exact Hsorted|]. split; [exact Hstable|].
  intros limit offset options page.
  assert (Hpage : forall items, Forall (fun tx => accepted tx = true) items ->
                                Forall (fun tx => accepted tx = true) (page items)).
  { intros items H. subst page. cbv beta. destruct limit as [[|n]|]; try exact H.
    apply Forall_take, Forall_drop. exact H. }
  repeat split.
  - unfold TransactionRepository.findAll. subst options.
    cbn [TransactionRepository.limit TransactionRepository.offset
         TransactionRepository.sortOrder mbind option_bind default].
    rewrite <- (cloneTransactions_accepted (page _) s); [reflexivity|].
    apply Hpage. rewrite Hperm. exact Hlog.
  - unfold TransactionRepository.findAll. subst options.
    cbn [TransactionRepository.limit TransactionRepository.offset
         TransactionRepository.sortOrder mbind option_bind default].
    rewrite <- (cloneTransactions_accepted (page _) s); [reflexivity|].
    apply Hpage. exact Hlog.
  - unfold TransactionRepository.findByType. subst options.
    cbn [TransactionRepository.limit TransactionRepository.offset
         TransactionRepository.sortOrder mbind option_bind default].
    fold ofType.
    rewrite <- (cloneTransactions_accepted (page _) s); [reflexivity|].
    apply Hpage. apply Forall_accepted_filter. exact Hacc.
Qed.

Lemma findAll_pages_under_a_positive_limit_witness :
  forallb accepted (transactions (sys history)) = true /\
  exists sorted,
    length sorted = 3%nat /\
    TransactionRepository.findAll
      (Some {| TransactionRepository.limit := Some 0%nat;
               TransactionRepository.offset := Some 2%nat;
               TransactionRepository.sortOrder := None |}) (sys history)
      = (Return (map (fun tx => copyOf tx (sys history)) sorted), sys history) /\
    TransactionRepository.findAll
      (Some {| TransactionRepository.limit := Some 1%nat;
               TransactionRepository.offset := Some 2%nat;
               TransactionRepository.sortOrder := None |}) (sys history)
      = (Return (map (fun tx => copyOf tx (sys history)) (take 1 (drop 2 sorted))),
         sys history).
Proof.
  assert (Hacc : forallb accepted (transactions (sys history)) = true)
    by (vm_compute; reflexivity).
  split; [exact Hacc|].
  destruct (findAll_pages_under_a_positive_limit (sys history) "FUNDING" Hacc)
    as (sorted & Hperm & _ & _ & Hpages).
  exists sorted.
  assert (Hlen : length sorted = 3%nat).
  { rewrite (Permutation_length Hperm). vm_compute. reflexivity. }
  split; [exact Hlen|].
  split; [exact (proj1 (Hpages (Some 0%nat) (Some 2%nat)))
         |exact (proj1 (Hpages (Some 1%nat) (Some 2%nat)))].
Defined.

(** * The service: wallets *)

Lemma findById_missing id s :
  wallets s !! id = None -> WalletRepository.findById id s = (Return None, s).
Proof. intros H. unfold WalletRepository.findById. rewrite H. reflexivity. Qed.

Lemma findById_stored id s stored :
  wallets s !! id = Some stored -> (0 <= Wallet.balance stored)%Q ->
  WalletRepository.findById id s = (Return (Some (cloneOf stored s)), s).
Proof.
  intros H Hb. unfold WalletRepository.findById. rewrite H, (cloneWallet_nonneg stored s Hb).
  reflexivity.
Qed.

Lemma getWalletOrThrow_missing walletId w :
  wallets (sys w) !! walletId = None ->
  WalletService.getWalletOrThrow walletId w = (Throw (WalletNotFoundError walletId), suspend w).
Proof.
  intros H. unfold WalletService.getWalletOrThrow, bind, await, run.
  rewrite (findById_missing _ _ H), world_eta. reflexivity.
Qed.

Lemma getWalletOrThrow_stored walletId w stored :
  wallets (sys w) !! walletId = Some stored -> (0 <= Wallet.balance stored)%Q ->
  WalletService.getWalletOrThrow walletId w = (Return (cloneOf stored (sys w)), suspend w).
Proof.
  intros H Hb. unfold WalletService.getWalletOrThrow, bind, await, run.
  rewrite (findById_stored _ _ _ H Hb), world_eta. reflexivity.
Qed.

(** X10: [getWallet] reads the store and changes nothing.  For an id
    that is not stored it throws [WalletNotFoundError]; for a stored wallet
    with a balance of at least zero it returns the response of a clone,
    which carries the stored id, currency, balance, version and update time,
    and, as its creation time, the time of the call: the constructor that
    builds the clone stamps it.  In both cases the world is the one the two
    suspension points leave. *)
Theorem getWallet_reads_the_store :
  forall (walletId : string) (w : World),
    (wallets (sys w) !! walletId = None ->
     WalletService.getWallet walletId w
       = (Throw (WalletNotFoundError walletId), suspend (suspend w))) /\
    (forall stored,
       wallets (sys w) !! walletId = Some stored ->
       (0 <= Wallet.balance stored)%Q ->
       exists r,
         WalletService.getWallet walletId w = (Return r, suspend (suspend w)) /\
         wr_id r = Wallet.id stored /\
         wr_currency r = Currency_toString (Wallet.currency stored) /\
         wr_balance r = Wallet.balance stored /\
         wr_version r = Wallet.version stored /\
         wr_updatedAt r = Date_toISOString (Wallet.updatedAt stored) /\
         wr_createdAt r = Date_toISOString (now (sys w))).
Proof.
  intros walletId w. split.
  - intros H. unfold WalletService.getWallet, bind, await.
    rewrite (getWalletOrThrow_missing _ _ H). reflexivity.
  - intros stored H Hb. eexists. split.
    + unfold WalletService.getWallet, bind, await.
      rewrite (getWalletOrThrow_stored _ _ _ H Hb). reflexivity.
    + repeat split.
Qed.

Lemma getWallet_reads_the_store_witness :
  let w := mkWorld (sys history) [advanceClock 5000] in
  let alice := Wallet.mk "alice" USD 35 3 1736944247000 1736944247000 in
  wallets (sys w) !! "carol" = None /\
  WalletService.getWallet "carol" w = (Throw (WalletNotFoundError "carol"), suspend (suspend w)) /\
  wallets (sys w) !! "alice" = Some alice /\
  (0 <= Wallet.balance alice)%Q /\
  exists r,
    fst (WalletService.getWallet "alice" w) = Return r /\
    wr_version r = 3 /\
    wr_createdAt r = Date_toISOString (now (sys w)).
Proof.
  intros w alice.
  assert (Hnone : wallets (sys w) !! "carol" = None) by (vm_compute; reflexivity).
  assert (Hs : wallets (sys w) !! "alice" = Some alice) by (vm_compute; reflexivity).
  assert (Hb : (0 <= Wallet.balance alice)%Q) by (vm_compute; discriminate).
  destruct (getWallet_reads_the_store "carol" w) as [Hmissing _].
  destruct (getWallet_reads_the_store "alice" w) as [_ Hfound].
  destruct (Hfound alice Hs Hb) as (r & E & _ & _ & _ & Hv & _ & Hc).
  split; [exact Hnone|]. split; [exact (Hmissing Hnone)|].
  split; [exact Hs|]. split; [exact Hb|].
  exists r. rewrite E. split; [reflexivity|]. split; [exact Hv|exact Hc].
Defined.

(** X11: [createWallet] opens a wallet at version 1.  With an initial
    balance below zero the constructor throws and nothing has happened;
    with an id that is already stored the call throws
    [WalletAlreadyExistsError] and the store is unchanged.  Otherwise the
    wallet is stored with the given or the default currency, the initial
    balance (zero when none is given) and version 1, the other wallets are
    as they were, and the response of the wallet is returned; a [getWallet]
    that follows with nothing else running returns the same response. *)
Theorem createWallet_opens_a_wallet :
  forall (walletId : string) (dto : CreateWalletDto) (w : World),
    let balance := default 0%Q (cw_initialBalance dto) in
    let created :=
      Wallet.mk walletId (default USD (cw_currency dto)) balance 1
                (now (sys w)) (now (sys w)) in
    let w' :=
      mkWorld (setWallets (<[walletId := created]> (wallets (sys w))) (sys w)) (pending w) in
    ((balance < 0)%Q ->
     WalletService.createWallet walletId dto w = (Throw (JsError (NegativeBalance balance)), w)) /\
    ((0 <= balance)%Q -> is_Some (wallets (sys w) !! walletId) ->
     WalletService.createWallet walletId dto w
       = (Throw (WalletAlreadyExistsError walletId), suspend w)) /\
    ((0 <= balance)%Q -> wallets (sys w) !! walletId = None ->
     WalletService.createWallet walletId dto w
       = (Return (WalletService.mapToWalletResponse created), suspend w') /\
     (pending w = [] ->
      WalletService.getWallet walletId w'
        = (Return (WalletService.mapToWalletResponse created), w'))).
Proof.
  intros walletId dto w balance created w'.
  unfold WalletService.createWallet, bind, newDate, outcome, Wallet.new, Wallet.validateBalance.
  fold balance. split; [|split].
  - intros Hneg. apply Qltb_true in Hneg. rewrite Hneg. reflexivity.
  - intros Hb [existing He]. apply Qltb_false in Hb. rewrite Hb.
    unfold await, run, WalletRepository.create. cbn [Wallet.id]. rewrite He.
    rewrite world_eta. reflexivity.
  - intros Hb Hfresh. split.
    + pose proof Hb as Hb'. apply Qltb_false in Hb'. rewrite Hb'.
      unfold await, run, WalletRepository.create. cbn [Wallet.id]. rewrite Hfresh.
      fold created.
      rewrite (cloneWallet_nonneg created (sys w)) by exact Hb.
      rewrite cloneWallet_nonneg by exact Hb. reflexivity.
    + intros Hq.
      assert (Hq' : pending w' = []) by exact Hq.
      unfold WalletService.getWallet, bind, await.
      rewrite (getWalletOrThrow_stored walletId w' created).
      * rewrite !(suspend_quiet w' Hq'). reflexivity.
      * subst w'. cbn [sys wallets setWallets]. apply lookup_insert_eq.
      * exact Hb.
Qed.

Lemma createWallet_opens_a_wallet_witness :
  let dto := {| cw_currency := None; cw_initialBalance := Some 12%Q |} in
  let overdrawn := {| cw_currency := None; cw_initialBalance := Some (-1)%Q |} in
  (default 0%Q (cw_initialBalance overdrawn) < 0)%Q /\
  WalletService.createWallet "carol" overdrawn world1
    = (Throw (JsError (NegativeBalance (-1))), world1) /\
  (0 <= default 0%Q (cw_initialBalance dto))%Q /\
  is_Some (wallets (sys world1) !! "alice") /\
  WalletService.createWallet "alice" dto world1
    = (Throw (WalletAlreadyExistsError "alice"), suspend world1) /\
  wallets (sys world1) !! "carol" = None /\
  pending world1 = [] /\
  exists r,
    fst (WalletService.createWallet "carol" dto world1) = Return r /\
    wr_version r = 1 /\ wr_balance r = 12%Q /\
    fst (WalletService.getWallet "carol" (snd (WalletService.createWallet "carol" dto world1)))
      = Return r.
Proof.
  intros dto overdrawn.
  assert (Hneg : (default 0%Q (cw_initialBalance overdrawn) < 0)%Q) by reflexivity.
  assert (Hb : (0 <= default 0%Q (cw_initialBalance dto))%Q) by (vm_compute; discriminate).
  assert (Hdup : is_Some (wallets (sys world1) !! "alice")) by (eexists; vm_compute; reflexivity).
  assert (Hfresh : wallets (sys world1) !! "carol" = None) by (vm_compute; reflexivity).
  assert (Hq : pending world1 = []) by (vm_compute; reflexivity).
  destruct (createWallet_opens_a_wallet "carol" overdrawn world1) as (Hthrow & _ & _).
  destruct (createWallet_opens_a_wallet "alice" dto world1) as (_ & Hexists & _).
  destruct (createWallet_opens_a_wallet "carol" dto world1) as (_ & _ & Hopen).
  destruct (Hopen Hb Hfresh) as [E Hget].
  split; [exact Hneg|]. split; [exact (Hthrow Hneg)|]. split; [exact Hb|].
  split; [exact Hdup|]. split; [exact (Hexists Hb Hdup)|]. split; [exact Hfresh|].
  split; [exact Hq|].
  eexists. rewrite E. cbn [fst snd]. split; [reflexivity|].
  split; [reflexivity|]. split; [reflexivity|].
  rewrite suspend_quiet by exact Hq. rewrite (Hget Hq). reflexivity.
Defined.

Lemma cloneWallet_id wallet s c :
  WalletRepository.cloneWallet wallet s = Return c -> Wallet.id c = Wallet.id wallet.
Proof.
  unfold WalletRepository.cloneWallet, Wallet.new.
  destruct (Wallet.validateBalance _); [|discriminate].
  intros E. injection E as <-. reflexivity.
Qed.

(** X12: a wallet is read under its own id.  In every state reached by any
    sequence of [createWallet], [fundWallet] and [transferFunds] calls,
    returning or throwing, from a state in which every wallet is stored
    under its id, whatever the other tasks do at the suspension points as
    long as they keep it so, every wallet is stored under its id; what
    [getWallet] returns for an id then carries that id. *)
Theorem wallets_are_read_under_their_id :
  forall (w : World) (ops : list Operation),
    Safe keyed w ->
    WellKeyed (sys (performAll ops w)) /\
    forall walletId r,
      fst (WalletService.getWallet walletId (performAll ops w)) = Return r ->
      wr_id r = walletId.
Proof.
  intros w ops Hw.
  pose proof (proj1 (performAll_Safe keyed keyed_clone ops w Hw)) as Hk.
  split; [exact Hk|]. intros walletId r.
  generalize dependent (performAll ops w). intros w' Hk.
  unfold WalletService.getWallet, WalletService.getWalletOrThrow, bind, await, run,
    WalletRepository.findById.
  destruct (wallets (sys w') !! walletId) as [stored|] eqn:E; [|discriminate].
  destruct (WalletRepository.cloneWallet stored (sys w')) as [c|e] eqn:Ec; [|discriminate].
  cbn [fst]. intros H. injection H as <-.
  unfold WalletService.mapToWalletResponse. cbn [wr_id].
  rewrite (cloneWallet_id _ _ _ Ec). exact (Hk _ _ E).
Qed.

Lemma wallets_are_read_under_their_id_witness :
  Safe keyed world0 /\
  WellKeyed (sys (performAll openAccounts world0)) /\
  forall walletId r,
    fst (WalletService.getWallet walletId (performAll openAccounts world0)) = Return r ->
    wr_id r = walletId.
Proof.
  split; [exact (world0_Safe keyed)|].
  exact (wallets_are_read_under_their_id world0 openAccounts (world0_Safe keyed)).
Defined.

(** * The service: rejections *)

Lemma findByIds_pair_found s sourceWalletId targetWalletId :
  NonNegative s ->
  exists found,
    WalletRepository.findByIds [sourceWalletId; targetWalletId] s = (Return found, s) /\
    found !! sourceWalletId = (fun wallet => cloneOf wallet s) <$> wallets s !! sourceWalletId /\
    found !! targetWalletId = (fun wallet => cloneOf wallet s) <$> wallets s !! targetWalletId.
Proof.
  intros Hnn.
  destruct (findByIds_loop_spec [sourceWalletId; targetWalletId] ∅ s) as (found & E & Hf).
  { intros id wallet _ Hw. exact (Hnn id wallet Hw). }
  exists found. unfold WalletRepository.findByIds. rewrite E. split; [reflexivity|].
  split; rewrite Hf.
  - rewrite bool_decide_eq_true_2 by left.
    destruct (wallets s !! sourceWalletId); [reflexivity|apply lookup_empty].
  - rewrite bool_decide_eq_true_2 by (right; left).
    destruct (wallets s !! targetWalletId); [reflexivity|apply lookup_empty].
Qed.

Lemma executeTransfer_missing rnd sourceWalletId dto w :
  NonNegative (sys w) ->
  (wallets (sys w) !! sourceWalletId = None ->
   WalletService.executeTransfer rnd sourceWalletId dto w
     = (Throw (WalletNotFoundError sourceWalletId), suspend w)) /\
  (is_Some (wallets (sys w) !! sourceWalletId) ->
   wallets (sys w) !! tf_targetWalletId dto = None ->
   WalletService.executeTransfer rnd sourceWalletId dto w
     = (Throw (WalletNotFoundError (tf_targetWalletId dto)), suspend w)).
Proof.
  intros Hnn.
  destruct (findByIds_pair_found (sys w) sourceWalletId (tf_targetWalletId dto) Hnn)
    as (found & E & Hs & Ht).
  unfold WalletService.executeTransfer, bind, await, run. rewrite E, Hs, Ht, world_eta.
  split.
  - intros ->. reflexivity.
  - intros [sw ->] ->. reflexivity.
Qed.

Lemma transferFunds_fatal rnd sourceWalletId dto w e w' :
  WalletService.validateAmount (tf_amount dto) = Return tt ->
  sourceWalletId <> tf_targetWalletId dto ->
  cache (sys w) !! transferHash sourceWalletId dto = None ->
  WalletService.executeTransfer rnd sourceWalletId dto w = (Throw e, w') ->
  isConcurrentModificationError e = false ->
  WalletService.transferFunds rnd sourceWalletId dto w
    = (Throw e, suspend (suspend (suspend w'))).
Proof.
  intros Hv Hne Hc E He.
  unfold WalletService.transferFunds, bind at 1, outcome. rewrite Hv.
  destruct (String.eqb_spec sourceWalletId (tf_targetWalletId dto)) as [Heq|_];
    [contradiction|].
  unfold await at 1.
  erewrite processWithIdempotency_miss_Throw; [reflexivity|exact Hc|].
  unfold bind, WalletService.executeTransferWithRetry.
  erewrite executeTransferWithRetry_from_fatal; [reflexivity|exact E|exact He].
Qed.

(** X13: what [transferFunds] checks, in order.  An amount that
    [validateAmount] rejects is rejected first, whatever the wallets; then a
    transfer from a wallet to itself, with [SameWalletTransferError],
    whether or not the wallet is stored; in both cases nothing has happened,
    not even a suspension.  A validated request between two different ids
    that is not registered in the cache throws [WalletNotFoundError] for
    the source when the source is not stored, whether or not the target is,
    and for the target when only the target is not stored: nothing has been
    written, and the world is the one the four suspension points on the way
    leave. *)
Theorem transferFunds_rejects_in_order :
  forall (rnd : Entropy) (sourceWalletId : string) (dto : TransferFundsDto) (w : World),
    (forall e,
       WalletService.validateAmount (tf_amount dto) = Throw e ->
       WalletService.transferFunds rnd sourceWalletId dto w = (Throw e, w)) /\
    (WalletService.validateAmount (tf_amount dto) = Return tt ->
     (sourceWalletId = tf_targetWalletId dto ->
      WalletService.transferFunds rnd sourceWalletId dto w
        = (Throw (SameWalletTransferError sourceWalletId), w)) /\
     (sourceWalletId <> tf_targetWalletId dto ->
      cache (sys w) !! transferHash sourceWalletId dto = None ->
      NonNegative (sys w) ->
      (wallets (sys w) !! sourceWalletId = None ->
       WalletService.transferFunds rnd sourceWalletId dto w
         = (Throw (WalletNotFoundError sourceWalletId), Nat.iter 4 suspend w)) /\
      (is_Some (wallets (sys w) !! sourceWalletId) ->
       wallets (sys w) !! tf_targetWalletId dto = None ->
       WalletService.transferFunds rnd sourceWalletId dto w
         = (Throw (WalletNotFoundError (tf_targetWalletId dto)), Nat.iter 4 suspend w)))).
Proof.
  intros rnd src dto w. split; [|intros Hv; split].
  - intros e Hv. unfold WalletService.transferFunds, bind, outcome. rewrite Hv. reflexivity.
  - intros Heq. unfold WalletService.transferFunds, bind, outcome. rewrite Hv.
    apply String.eqb_eq in Heq. rewrite Heq. reflexivity.
  - intros Hne Hc Hnn.
    destruct (executeTransfer_missing rnd src dto w Hnn) as [Hsource Htarget].
    split.
    + intros Hs.
      rewrite (transferFunds_fatal rnd src dto w _ _ Hv Hne Hc (Hsource Hs) eq_refl).
      reflexivity.
    + intros Hs Ht.
      rewrite (transferFunds_fatal rnd src dto w _ _ Hv Hne Hc (Htarget Hs Ht) eq_refl).
      reflexivity.
Qed.

Lemma transferFunds_rejects_in_order_witness :
  let w := world1 in
  WalletService.validateAmount (ofZ 0) = Throw (InvalidTransactionAmountError (ofZ 0) "Amount must be positive") /\
  WalletService.transferFunds entropy1 "carol" (transferTo "carol" (ofZ 0) "k") w
    = (Throw (InvalidTransactionAmountError (ofZ 0) "Amount must be positive"), w) /\
  WalletService.validateAmount (ofZ 10) = Return tt /\
  WalletService.transferFunds entropy1 "carol" (transferTo "carol" (ofZ 10) "k") w
    = (Throw (SameWalletTransferError "carol"), w) /\
  "carol" <> "dave" /\ "alice" <> "dave" /\
  cache (sys w) !! transferHash "carol" (transferTo "dave" (ofZ 10) "k") = None /\
  cache (sys w) !! transferHash "alice" (transferTo "dave" (ofZ 10) "k") = None /\
  NonNegative (sys w) /\
  wallets (sys w) !! "carol" = None /\
  WalletService.transferFunds entropy1 "carol" (transferTo "dave" (ofZ 10) "k") w
    = (Throw (WalletNotFoundError "carol"), Nat.iter 4 suspend w) /\
  is_Some (wallets (sys w) !! "alice") /\
  wallets (sys w) !! "dave" = None /\
  WalletService.transferFunds entropy1 "alice" (transferTo "dave" (ofZ 10) "k") w
    = (Throw (WalletNotFoundError "dave"), Nat.iter 4 suspend w).
Proof.
  intros w.
  assert (H0 : WalletService.validateAmount (ofZ 0)
               = Throw (InvalidTransactionAmountError (ofZ 0) "Amount must be positive"))
    by reflexivity.
  assert (H10 : WalletService.validateAmount (ofZ 10) = Return tt) by (vm_compute; reflexivity).
  assert (Hcd : "carol" <> "dave") by discriminate.
  assert (Had : "alice" <> "dave") by discriminate.
  assert (Hc1 : cache (sys w) !! transferHash "carol" (transferTo "dave" (ofZ 10) "k") = None)
    by (vm_compute; reflexivity).
  assert (Hc2 : cache (sys w) !! transferHash "alice" (transferTo "dave" (ofZ 10) "k") = None)
    by (vm_compute; reflexivity).
  assert (Hnn : NonNegative (sys w))
    by exact (proj1 (performAll_Safe nonNegative nonNegative_clone openAccounts world0
                       (world0_Safe nonNegative))).
  assert (Hcarol : wallets (sys w) !! "carol" = None) by (vm_compute; reflexivity).
  assert (Halice : is_Some (wallets (sys w) !! "alice")) by (eexists; vm_compute; reflexivity).
  assert (Hdave : wallets (sys w) !! "dave" = None) by (vm_compute; reflexivity).
  destruct (transferFunds_rejects_in_order entropy1 "carol" (transferTo "carol" (ofZ 0) "k") w)
    as [Hinvalid _].
  destruct (transferFunds_rejects_in_order entropy1 "carol" (transferTo "carol" (ofZ 10) "k") w)
    as [_ Hvalid]. destruct (Hvalid H10) as [Hsame _].
  destruct (transferFunds_rejects_in_order entropy1 "carol" (transferTo "dave" (ofZ 10) "k") w)
    as [_ Hvalid1]. destruct (Hvalid1 H10) as [_ Hcarol']. 
  destruct (Hcarol' Hcd Hc1 Hnn) as [Hsource _].
  destruct (transferFunds_rejects_in_order entropy1 "alice" (transferTo "dave" (ofZ 10) "k") w)
    as [_ Hvalid2]. destruct (Hvalid2 H10) as [_ Halice'].
  destruct (Halice' Had Hc2 Hnn) as [_ Htarget].
  split; [exact H0|]. split; [exact (Hinvalid _ H0)|]. split; [exact H10|].
  split; [exact (Hsame eq_refl)|]. split; [exact Hcd|]. split; [exact Had|].
  split; [exact Hc1|]. split; [exact Hc2|]. split; [exact Hnn|]. split; [exact Hcarol|].
  split; [exact (Hsource Hcarol)|]. split; [exact Halice|]. split; [exact Hdave|].
  exact (Htarget Halice Hdave).
Defined.

(** ** Calls that fail without interleaving *)

Lemma validateAmount_Throw amount e :
  WalletService.validateAmount amount = Throw e -> isConcurrentModificationError e = false.
Proof.
  unfold WalletService.validateAmount.
  destruct (Qle_bool (value amount) 0); [intros [= <-]; reflexivity|].
  destruct (Qltb (value WalletService.MAX_AMOUNT) (value amount)); [intros [= <-]; reflexivity|].
  destruct (2 <? _)%nat; [intros [= <-]; reflexivity|discriminate].
Qed.

Lemma fundWallet_alone_Throw rnd walletId dto s e w' :
  WellKeyed s ->
  WalletService.fundWallet rnd walletId dto (alone s) = (Throw e, w') ->
  isConcurrentModificationError e = false /\ cache (sys w') = cache s.
Proof.
  intros Hk. unfold WalletService.fundWallet. unfold bind at 1, outcome.
  destruct (WalletService.validateAmount (fw_amount dto)) as [[]|e0] eqn:Ev.
  2:{ intros [= <- <-]. split; [exact (validateAmount_Throw _ _ Ev)|reflexivity]. }
  unfold await at 1.
  destruct (cache s !! fundHash walletId dto) as [record|] eqn:Ec.
  - unfold IdempotencyService.processWithIdempotency. cbn [sys alone].
    change (IdempotencyService.generateHash _ _ _) with (fundHash walletId dto).
    rewrite Ec.
    destruct (negb _).
    + intros [= <- <-]. split; reflexivity.
    + discriminate.
  - destruct (executeFunding_alone rnd walletId dto s Hk)
      as (r & s' & E & Hc & Ht & Hn & He & Hcases).
    destruct r as [d|e'].
    + rewrite (processWithIdempotency_miss_Return _ _ _ _ (alone s)
                 (WalletResponse d) (alone s') Ec);
        [|unfold bind; rewrite E; reflexivity].
      discriminate.
    + rewrite (processWithIdempotency_miss_Throw _ _ _ _ (alone s) e' (alone s') Ec);
        [|unfold bind; rewrite E; reflexivity].
      intros [= <- <-]. split; [|exact Hc].
      destruct Hcases as [(e0 & [= <-] & H & _)|(w0 & _ & _ & _ & H & _)];
        [exact H|discriminate].
Qed.

Lemma transferFunds_alone_Throw rnd sourceWalletId dto s e w' :
  WellKeyed s ->
  WalletService.transferFunds rnd sourceWalletId dto (alone s) = (Throw e, w') ->
  isConcurrentModificationError e = false /\ cache (sys w') = cache s.
Proof.
  intros Hk. unfold WalletService.transferFunds. unfold bind at 1, outcome.
  destruct (WalletService.validateAmount (tf_amount dto)) as [[]|e0] eqn:Ev.
  2:{ intros [= <- <-]. split; [exact (validateAmount_Throw _ _ Ev)|reflexivity]. }
  destruct (String.eqb_spec sourceWalletId (tf_targetWalletId dto)) as [Heq|Hne].
  { intros [= <- <-]. split; reflexivity. }
  unfold await at 1.
  destruct (cache s !! transferHash sourceWalletId dto) as [record|] eqn:Ec.
  - unfold IdempotencyService.processWithIdempotency. cbn [sys alone].
    change (IdempotencyService.generateHash _ _ _) with (transferHash sourceWalletId dto).
    rewrite Ec.
    destruct (negb _).
    + intros [= <- <-]. split; reflexivity.
    + discriminate.
  - destruct (executeTransfer_alone rnd sourceWalletId dto s Hk Hne)
      as (r & s' & E & Hc & Ht & Hn & He & Hcases).
    destruct r as [d|e'].
    + rewrite (processWithIdempotency_miss_Return _ _ _ _ (alone s)
                 (TransferResponse d) (suspend (alone s')) Ec);
        [|unfold bind, WalletService.executeTransferWithRetry;
          rewrite (executeTransferWithRetry_from_Return _ _ _ _ _ _ _ _ E); reflexivity].
      discriminate.
    + assert (Hcme : isConcurrentModificationError e' = false).
      { destruct Hcases as [(e0 & [= <-] & H & _)|[_ [[d Hd]|(e0 & [= <-] & H & _)]]];
          [exact H|discriminate|exact H]. }
      rewrite (processWithIdempotency_miss_Throw _ _ _ _ (alone s) e' (suspend (alone s')) Ec);
        [|unfold bind, WalletService.executeTransferWithRetry;
          rewrite (executeTransferWithRetry_from_fatal _ _ _ _ _ _ _ _ E Hcme); reflexivity].
      intros [= <- <-]. split; [exact Hcme|exact Hc].
Qed.

(** X14: calls that run one after the other never meet a version
    conflict.  On a store in which every wallet is filed under its id, a
    [fundWallet] or [transferFunds] call that runs with nothing else
    running never throws [ConcurrentModificationError]: the versions it
    read are the versions it updates. *)
Theorem sequential_calls_never_conflict :
  forall (s : Sys),
    WellKeyed s ->
    (forall rnd walletId dto e w',
       WalletService.fundWallet rnd walletId dto (alone s) = (Throw e, w') ->
       isConcurrentModificationError e = false) /\
    (forall rnd sourceWalletId dto e w',
       WalletService.transferFunds rnd sourceWalletId dto (alone s) = (Throw e, w') ->
       isConcurrentModificationError e = false).
Proof.
  intros s Hk. split.
  - intros rnd walletId dto e w' E. exact (proj1 (fundWallet_alone_Throw _ _ _ _ _ _ Hk E)).
  - intros rnd src dto e w' E. exact (proj1 (transferFunds_alone_Throw _ _ _ _ _ _ Hk E)).
Qed.

Lemma sequential_calls_never_conflict_witness :
  let overdraw :=
    WalletService.transferFunds entropy1 "alice" (transferTo "bob" (ofZ 80) "k-over")
      (alone (sys world1)) in
  WellKeyed (sys world1) /\
  overdraw = (Throw (InsufficientBalanceError "alice" 80 50), snd overdraw) /\
  isConcurrentModificationError (InsufficientBalanceError "alice" 80 50) = false.
Proof.
  intros overdraw.
  assert (E : overdraw = (Throw (InsufficientBalanceError "alice" 80 50), snd overdraw))
    by (apply pair_of_fst; vm_compute; reflexivity).
  destruct (sequential_calls_never_conflict (sys world1) world1_WellKeyed) as [_ Htransfer].
  split; [exact world1_WellKeyed|]. split; [exact E|].
  exact (Htransfer entropy1 "alice" (transferTo "bob" (ofZ 80) "k-over") _ _ E).
Defined.

(** X15: a call that fails is not registered.  On a store in which
    every wallet is filed under its id, a [fundWallet] or [transferFunds]
    call that runs with nothing else running and throws leaves the cache of
    the idempotency service as it was: no record is kept for the key, and a
    later call with the same key is looked up as the first one was. *)
Theorem failed_calls_are_not_cached :
  forall (s : Sys),
    WellKeyed s ->
    (forall rnd walletId dto e w',
       WalletService.fundWallet rnd walletId dto (alone s) = (Throw e, w') ->
       cache (sys w') = cache s) /\
    (forall rnd sourceWalletId dto e w',
       WalletService.transferFunds rnd sourceWalletId dto (alone s) = (Throw e, w') ->
       cache (sys w') = cache s).
Proof.
  intros s Hk. split.
  - intros rnd walletId dto e w' E. exact (proj2 (fundWallet_alone_Throw _ _ _ _ _ _ Hk E)).
  - intros rnd src dto e w' E. exact (proj2 (transferFunds_alone_Throw _ _ _ _ _ _ Hk E)).
Qed.

Lemma failed_calls_are_not_cached_witness :
  let missing :=
    WalletService.fundWallet entropy1 "carol" (fundOf (ofZ 10) "k-carol") (alone (sys world1)) in
  let opened :=
    snd (WalletService.createWallet "carol"
           {| cw_currency := None; cw_initialBalance := None |} (snd missing)) in
  WellKeyed (sys world1) /\
  missing = (Throw (WalletNotFoundError "carol"), snd missing) /\
  cache (sys (snd missing)) = cache (sys world1) /\
  exists r,
    fst (WalletService.fundWallet entropy1 "carol" (fundOf (ofZ 10) "k-carol") opened)
      = Return (WalletResponse r) /\
    wr_balance r = (0 + 10)%Q.
Proof.
  intros missing opened.
  assert (E : missing = (Throw (WalletNotFoundError "carol"), snd missing))
    by (apply pair_of_fst; vm_compute; reflexivity).
  destruct (failed_calls_are_not_cached (sys world1) world1_WellKeyed) as [Hfund _].
  split; [exact world1_WellKeyed|]. split; [exact E|].
  split; [exact (Hfund entropy1 "carol" (fundOf (ofZ 10) "k-carol") _ _ E)|].
  let v := eval vm_compute in
             (fst (WalletService.fundWallet entropy1 "carol" (fundOf (ofZ 10) "k-carol") opened))
  in match v with
     | Return (WalletResponse ?r) => exists r; split; [vm_compute; reflexivity|reflexivity]
     end.
Defined.

(** * The retry wrapper *)

Lemma cleanupExpired_now hash s : now (IdempotencyService.cleanupExpired hash s) = now s.
Proof.
  unfold IdempotencyService.cleanupExpired.
  destruct (cache s !! hash) as [record|]; [|reflexivity].
  destruct (ir_expiresAt record <? now s); reflexivity.
Qed.

Lemma cleanupAll_now (due : list (Z * string)) : forall s,
  now (foldl (fun s' t => IdempotencyService.cleanupExpired (snd t) s') s due) = now s.
Proof.
  induction due as [|t rest IH]; intros s; [reflexivity|].
  cbn [foldl]. rewrite IH. apply cleanupExpired_now.
Qed.

Lemma sleep_now ms w : now (sys (snd (WalletService.sleep ms w))) = now (sys w) + ms.
Proof.
  unfold WalletService.sleep, advanceClock, runTimers. cbn [snd sys].
  rewrite cleanupAll_now. reflexivity.
Qed.

(** X16: only version conflicts are retried.  Whatever the number of
    the attempt, an attempt that returns ends the transfer with its result,
    and an attempt that throws any error other than
    [ConcurrentModificationError] ends it with that error: no backoff, no
    new attempt, the world being the one the attempt left after the
    suspension point of its [await].  When the first attempt ends in a
    conflict, the transfer backs off, and what the second attempt returns,
    or throws other than a conflict, is the result.  The backoff before
    the attempt after the attempt number [attempt] advances the clock by
    [attempt * 10] milliseconds. *)
Theorem only_conflicts_are_retried :
  forall (rnd : Entropy) (sourceWalletId : string) (dto : TransferFundsDto) (w : World),
    (forall attempt r w',
       WalletService.executeTransfer rnd sourceWalletId dto w = (Return r, w') ->
       WalletService.executeTransferWithRetry rnd sourceWalletId dto attempt w
         = (Return r, suspend w')) /\
    (forall attempt e w',
       WalletService.executeTransfer rnd sourceWalletId dto w = (Throw e, w') ->
       isConcurrentModificationError e = false ->
       WalletService.executeTransferWithRetry rnd sourceWalletId dto attempt w
         = (Throw e, suspend w')) /\
    (forall e1 w1 r w2,
       WalletService.executeTransfer rnd sourceWalletId dto w = (Throw e1, w1) ->
       isConcurrentModificationError e1 = true ->
       WalletService.executeTransfer rnd sourceWalletId dto (backoff 1 w1) = (r, w2) ->
       (forall e2, r = Throw e2 -> isConcurrentModificationError e2 = false) ->
       WalletService.executeTransferWithRetry rnd sourceWalletId dto 1 w = (r, suspend w2)) /\
    (forall attempt w',
       now (sys (snd (WalletService.sleep (attempt * 10) (suspend w'))))
       = now (sys (suspend w')) + attempt * 10).
Proof.
  intros rnd src dto w. split; [|split; [|split]].
  - intros attempt r w' E. apply (executeTransferWithRetry_from_Return _ _ _ _ _ _ _ _ E).
  - intros attempt e w' E He. apply (executeTransferWithRetry_from_fatal _ _ _ _ _ _ _ _ E He).
  - intros e1 w1 r w2 E1 He1 E2 Hr.
    rewrite (executeTransferWithRetry_conflict _ _ _ 1 _ _ _ E1 He1) by reflexivity.
    destruct r as [d|e2].
    + apply (executeTransferWithRetry_from_Return _ _ _ _ _ _ _ _ E2).
    + apply (executeTransferWithRetry_from_fatal _ _ _ _ _ _ _ _ E2 (Hr e2 eq_refl)).
  - intros attempt w'. apply sleep_now.
Qed.

Lemma only_conflicts_are_retried_witness :
  let pay := transferTo "bob" (ofZ 20) "k-pay" in
  let first := WalletService.executeTransfer entropy3 "alice" pay overtaken in
  let second := WalletService.executeTransfer entropy3 "alice" pay (backoff 1 (snd first)) in
  first = (Throw (ConcurrentModificationError "Wallet" "bob"), snd first) /\
  isConcurrentModificationError (ConcurrentModificationError "Wallet" "bob") = true /\
  (exists d, fst second = Return d) /\
  WalletService.executeTransferWithRetry entropy3 "alice" pay 1 overtaken
    = (fst second, suspend (snd second)).
Proof.
  intros pay first second.
  assert (E1 : first = (Throw (ConcurrentModificationError "Wallet" "bob"), snd first))
    by (apply pair_of_fst; vm_compute; reflexivity).
  assert (He1 : isConcurrentModificationError (ConcurrentModificationError "Wallet" "bob") = true)
    by reflexivity.
  assert (Hd : exists d, fst second = Return d).
  { let v := eval vm_compute in (fst second) in
    match v with Return ?d => exists d; vm_compute; reflexivity end. }
  assert (E2 : second = (fst second, snd second)) by apply surjective_pairing.
  assert (Hr : forall e2, fst second = Throw e2 -> isConcurrentModificationError e2 = false).
  { intros e2 H. destruct Hd as [d Hd]. rewrite Hd in H. discriminate. }
  destruct (only_conflicts_are_retried entropy3 "alice" pay overtaken) as (_ & _ & Hretry & _).
  split; [exact E1|]. split; [exact He1|]. split; [exact Hd|].
  exact (Hretry _ _ _ _ E1 He1 E2 Hr).
Defined.

(** * The idempotency service *)

Lemma cacheResponse_cache hash key operation requestData response s :
  cache (snd (IdempotencyService.cacheResponse hash key operation requestData response s))
  = <[hash := {| ir_key := key; ir_operation := operation; ir_hash := hash;
                 ir_requestData := requestData; ir_response := response;
                 ir_createdAt := now s;
                 ir_expiresAt := now s + IdempotencyService.TTL_MS |}]> (cache s).
Proof.
  unfold IdempotencyService.cacheResponse. cbn [snd].
  destruct (bool_decide _); reflexivity.
Qed.

(** X17: an operation is executed at most once for a fingerprint.
    When no record is cached for the fingerprint of the key, the operation
    and the request data, [processWithIdempotency] runs the function.  If
    the function throws, the error is rethrown and nothing is cached: the
    world is the one the function left, after the suspension point of its
    [await].  If it returns, its response is returned and cached under the
    fingerprint with the key, the operation, the request data and an expiry
    time 24 hours after the time of caching; a call with the same key,
    operation and request data that follows returns that response without
    running the function it is given, and leaves the world as it is. *)
Theorem processWithIdempotency_runs_once :
  forall (key operation : string) (requestData : JSON) (fn : Async Response) (w : World),
    let hash := IdempotencyService.generateHash key operation requestData in
    cache (sys w) !! hash = None ->
    (forall e w',
       fn w = (Throw e, w') ->
       IdempotencyService.processWithIdempotency key operation requestData fn w
         = (Throw e, suspend w')) /\
    (forall r w',
       fn w = (Return r, w') ->
       let result := IdempotencyService.processWithIdempotency key operation requestData fn w in
       fst result = Return r /\
       cache (sys (snd result)) !! hash
         = Some {| ir_key := key; ir_operation := operation; ir_hash := hash;
                   ir_requestData := requestData; ir_response := r;
                   ir_createdAt := now (sys (suspend w'));
                   ir_expiresAt := now (sys (suspend w')) + 24 * 60 * 60 * 1000 |} /\
       forall fn' : Async Response,
         IdempotencyService.processWithIdempotency key operation requestData fn' (snd result)
           = (Return r, snd result)).
Proof.
  intros key operation requestData fn w hash Hmiss. split.
  - intros e w' Hfn. apply processWithIdempotency_miss_Throw; assumption.
  - intros r w' Hfn result.
    assert (E : result = (Return r, cached key operation requestData r (suspend w')))
      by (apply processWithIdempotency_miss_Return; assumption).
    rewrite E. cbn [fst snd].
    assert (Hrec : cache (sys (cached key operation requestData r (suspend w'))) !! hash
                   = Some {| ir_key := key; ir_operation := operation; ir_hash := hash;
                             ir_requestData := requestData; ir_response := r;
                             ir_createdAt := now (sys (suspend w'));
                             ir_expiresAt := now (sys (suspend w')) + 24 * 60 * 60 * 1000 |}).
    { unfold cached. cbn [sys]. fold hash. rewrite cacheResponse_cache.
      apply lookup_insert_eq. }
    split; [reflexivity|]. split; [exact Hrec|].
    intros fn'.
    rewrite (processWithIdempotency_hit key operation requestData fn' _ _ Hrec);
      [reflexivity|]. cbn [ir_requestData]. apply requestDataMatches_refl.
Qed.

Lemma processWithIdempotency_runs_once_witness :
  let data := fundRequest "bob" (fundOf (ofZ 100) "k1") in
  let failing : Async Response := throw (WalletNotFoundError "nobody") in
  let fn : Async Response :=
    do r <- WalletService.executeFunding entropy1 "bob" (fundOf (ofZ 100) "k1") in
    ret (WalletResponse r) in
  let result := IdempotencyService.processWithIdempotency "k1" "FUND_WALLET" data fn world1 in
  cache (sys world1) !! IdempotencyService.generateHash "k1" "FUND_WALLET" data = None /\
  IdempotencyService.processWithIdempotency "k1" "FUND_WALLET" data failing world1
    = (Throw (WalletNotFoundError "nobody"), suspend world1) /\
  exists r,
    fn world1 = (Return r, snd (fn world1)) /\
    fst result = Return r /\
    IdempotencyService.processWithIdempotency "k1" "FUND_WALLET" data failing (snd result)
      = (Return r, snd result).
Proof.
  intros data failing fn result.
  assert (Hmiss : cache (sys world1)
                    !! IdempotencyService.generateHash "k1" "FUND_WALLET" data = None)
    by (vm_compute; reflexivity).
  destruct (processWithIdempotency_runs_once "k1" "FUND_WALLET" data failing world1 Hmiss)
    as [Hthrow _].
  destruct (processWithIdempotency_runs_once "k1" "FUND_WALLET" data fn world1 Hmiss)
    as [_ Hreturn].
  assert (Hr : exists r, fn world1 = (Return r, snd (fn world1))).
  { let v := eval vm_compute in (fst (fn world1)) in
    match v with
    | Return ?r => exists r; apply pair_of_fst; vm_compute; reflexivity
    end. }
  destruct Hr as [r E].
  destruct (Hreturn r _ E) as (Hfst & _ & Hagain).
  split; [exact Hmiss|]. split; [exact (Hthrow _ _ eq_refl)|].
  exists r. split; [exact E|]. split; [exact Hfst|exact (Hagain failing)].
Defined.

(** ** The order of the keys *)

Lemma leb_trans (a b c : string) :
  String.leb a b = true -> String.leb b c = true -> String.leb a c = true.
Proof.
  intros Hab Hbc. apply Is_true_true. apply Is_true_true in Hab, Hbc.
  exact (transitivity (R := String.le) Hab Hbc).
Qed.

Lemma leb_false (a b : string) : String.leb a b = false -> String.leb b a = true.
Proof. intros H. destruct (String.leb_total a b) as [H'|H']; congruence. Qed.

Lemma insertProp_comm (x y : string * JSON) (l : list (string * JSON)) :
  fst x <> fst y ->
  insertProp x (insertProp y l) = insertProp y (insertProp x l).
Proof.
  intros Hne. induction l as [|q l IH]; cbn [insertProp].
  - destruct (String.leb (fst x) (fst y)) eqn:Exy, (String.leb (fst y) (fst x)) eqn:Eyx;
      try reflexivity.
    + exfalso. apply Hne. apply String.leb_antisym; assumption.
    + apply leb_false in Exy. congruence.
  - destruct (String.leb (fst y) (fst q)) eqn:Eyq, (String.leb (fst x) (fst q)) eqn:Exq;
      cbn [insertProp]; rewrite ?Eyq, ?Exq.
    + destruct (String.leb (fst x) (fst y)) eqn:Exy, (String.leb (fst y) (fst x)) eqn:Eyx;
        try reflexivity.
      * exfalso. apply Hne. apply String.leb_antisym; assumption.
      * apply leb_false in Exy. congruence.
    + assert (Exy : String.leb (fst x) (fst y) = false).
      { destruct (String.leb (fst x) (fst y)) eqn:E; [|reflexivity].
        rewrite (leb_trans _ _ _ E Eyq) in Exq. discriminate. }
      rewrite Exy. reflexivity.
    + assert (Eyx : String.leb (fst y) (fst x) = false).
      { destruct (String.leb (fst y) (fst x)) eqn:E; [|reflexivity].
        rewrite (leb_trans _ _ _ E Exq) in Eyq. discriminate. }
      rewrite Eyx. reflexivity.
    + rewrite IH. reflexivity.
Qed.

Lemma sortProps_Permutation (l l' : list (string * JSON)) :
  l ≡ₚ l' -> NoDup (map fst l) -> sortProps l = sortProps l'.
Proof.
  unfold sortProps. induction 1 as [|x l l' Hp IH|x y l|l l' l'' Hp IH Hp' IH']; intros Hnd.
  - reflexivity.
  - cbn [foldr]. rewrite IH; [reflexivity|]. cbn [map] in Hnd. apply NoDup_cons in Hnd. tauto.
  - cbn [foldr]. apply insertProp_comm. cbn [map] in Hnd.
    apply NoDup_cons in Hnd as [Hy _]. intros Heq. apply Hy. rewrite Heq. left.
  - rewrite IH by exact Hnd. apply IH'.
    rewrite <- Hp. exact Hnd.
Qed.

(** Keys that are array indices come first in the rebuilt object, in the
    order of the numbers, whatever their order as strings. *)
Example sortObjectKeys_array_indices :
  IdempotencyService.sortObjectKeys
    (JObject [("b", JNull); ("10", JNull); ("9", JNull); ("a", JNull); ("01", JNull)])
  = JObject [("9", JNull); ("10", JNull); ("01", JNull); ("a", JNull); ("b", JNull)].
Proof. vm_compute. reflexivity. Qed.

(** X18: the fingerprint does not depend on the order of the keys.
    Two request objects that hold the same properties in different orders,
    under keys that differ from each other, are the same after
    [sortObjectKeys]: they have the same fingerprint under any key and
    operation, and [requestDataMatches] accepts them as the same request. *)
Theorem fingerprint_ignores_the_order_of_keys :
  forall (key operation : string) (props props' : list (string * JSON)),
    props ≡ₚ props' ->
    NoDup (map fst props) ->
    IdempotencyService.sortObjectKeys (JObject props)
      = IdempotencyService.sortObjectKeys (JObject props') /\
    IdempotencyService.generateHash key operation (JObject props)
      = IdempotencyService.generateHash key operation (JObject props') /\
    IdempotencyService.requestDataMatches (JObject props) (JObject props') = true.
Proof.
  intros key operation props props' Hp Hnd.
  assert (E : IdempotencyService.sortObjectKeys (JObject props)
              = IdempotencyService.sortObjectKeys (JObject props')).
  { cbn [IdempotencyService.sortObjectKeys]. do 2 f_equal.
    apply sortProps_Permutation.
    - apply Permutation_map. exact Hp.
    - rewrite map_map. cbn [fst]. exact Hnd. }
  split; [exact E|]. split.
  - unfold IdempotencyService.generateHash. rewrite E. reflexivity.
  - unfold IdempotencyService.requestDataMatches. rewrite E. apply String.eqb_refl.
Qed.

Lemma fingerprint_ignores_the_order_of_keys_witness :
  let props := [("walletId", JString "bob"); ("amount", JNumber (ofZ 100))] in
  let props' := [("amount", JNumber (ofZ 100)); ("walletId", JString "bob")] in
  props ≡ₚ props' /\
  NoDup (map fst props) /\
  IdempotencyService.generateHash "k1" "FUND_WALLET" (JObject props)
    = IdempotencyService.generateHash "k1" "FUND_WALLET" (JObject props') /\
  IdempotencyService.sortObjectKeys (JObject props) = JObject props'.
Proof.
  intros props props'.
  assert (Hp : props ≡ₚ props') by apply perm_swap.
  assert (Hnd : NoDup (map fst props)).
  { cbn [map fst props]. apply NoDup_cons. split.
    - intros Hin. apply list_elem_of_singleton in Hin. discriminate.
    - apply NoDup_singleton. }
  destruct (fingerprint_ignores_the_order_of_keys "k1" "FUND_WALLET" props props' Hp Hnd)
    as (_ & Hhash & _).
  split; [exact Hp|]. split; [exact Hnd|]. split; [exact Hhash|]. reflexivity.
Defined.

(** ** Timeouts that delete nothing *)

Lemma cleanupExpired_absent hash s :
  cache s !! hash = None -> IdempotencyService.cleanupExpired hash s = s.
Proof. intros H. unfold IdempotencyService.cleanupExpired. rewrite H. reflexivity. Qed.

Lemma cleanupAll_absent (due : list (Z * string)) : forall s,
  Forall (fun timer => cache s !! snd timer = None) due ->
  foldl (fun s' t => IdempotencyService.cleanupExpired (snd t) s') s due = s.
Proof.
  induction due as [|t rest IH]; intros s Hd; [reflexivity|].
  inversion Hd as [|? ? Ht Hrest]; subst. cbn [foldl].
  rewrite (cleanupExpired_absent _ _ Ht). apply IH. exact Hrest.
Qed.

Lemma advanceClock_cache ms s :
  Forall (fun timer => cache s !! snd timer = None) (timers s) ->
  cache (advanceClock ms s) = cache s.
Proof.
  intros Ht. unfold advanceClock, runTimers.
  rewrite cleanupAll_absent; [reflexivity|].
  cbn [cache setTimers setNow timers now].
  apply Forall_forall. intros t Hin. apply list_elem_of_filter in Hin as [_ Hin].
  rewrite Forall_forall in Ht. apply Ht. exact Hin.
Qed.

(** ** Reading the cache *)

Lemma enumeratesCache_elem records s record :
  enumeratesCache records s ->
  (record ∈ records <-> exists hash, cache s !! hash = Some record).
Proof.
  intros He. unfold enumeratesCache in He. rewrite He. rewrite list_elem_of_fmap. split.
  - intros ([hash r] & -> & Hin). exists hash. apply elem_of_map_to_list in Hin. exact Hin.
  - intros [hash Hc]. exists (hash, record). split; [reflexivity|].
    apply elem_of_map_to_list. exact Hc.
Qed.

(** X19: [getCached] returns the responses of live records only.  When
    [records] lists the cached records in the order the map is walked,
    [getCached] returns a response only if it is the response of a cached
    record of the key that has not expired, and returns [null] exactly
    when every cached record of the key has expired, or there is none; it
    never throws and leaves the state unchanged. *)
Theorem getCached_returns_live_records_only :
  forall (s : Sys) (records : list IdempotencyRecord) (key : string),
    enumeratesCache records s ->
    (exists result, IdempotencyService.getCached records key s = (Return result, s)) /\
    (forall r,
       IdempotencyService.getCached records key s = (Return (Some r), s) ->
       exists hash record,
         cache s !! hash = Some record /\ ir_key record = key /\
         now s < ir_expiresAt record /\ ir_response record = r) /\
    (IdempotencyService.getCached records key s = (Return None, s)
     <-> forall hash record,
           cache s !! hash = Some record -> ir_key record = key ->
           ir_expiresAt record <= now s).
Proof.
  intros s records key He. unfold IdempotencyService.getCached.
  split; [eexists; reflexivity|].
  destruct (find _ records) as [record|] eqn:Ef; cbn [fmap option_fmap option_map].
  - apply find_some in Ef as [Hin Hlive].
    apply andb_true_iff in Hlive as [Hk Ht].
    apply String.eqb_eq in Hk. apply Z.ltb_lt in Ht.
    apply list_elem_of_In, (enumeratesCache_elem records s record He) in Hin as [hash Hc].
    split.
    + intros r [= <-]. exists hash, record. auto.
    + split; [discriminate|]. intros Hall. specialize (Hall hash record Hc Hk). lia.
  - split; [discriminate|]. split; [|reflexivity]. intros _ hash record Hc Hk.
    assert (Hin : record ∈ records) by (apply (enumeratesCache_elem records s record He); eauto).
    apply list_elem_of_In in Hin.
    pose proof (find_none _ _ Ef record Hin) as Hdead. cbv beta in Hdead.
    apply String.eqb_eq in Hk. rewrite Hk in Hdead. cbn [andb] in Hdead.
    apply Z.ltb_ge in Hdead. exact Hdead.
Qed.

Lemma getCached_returns_live_records_only_witness :
  let s := sys (snd funded) in
  let records := (map_to_list (cache s)).*2 in
  enumeratesCache records s /\
  (exists r hash record,
     IdempotencyService.getCached records "k1" s = (Return (Some r), s) /\
     cache s !! hash = Some record /\ ir_key record = "k1" /\
     now s < ir_expiresAt record /\ ir_response record = r) /\
  enumeratesCache records (sys dayLater) /\
  (IdempotencyService.getCached records "k1" (sys dayLater) = (Return None, sys dayLater)
   <-> forall hash record,
         cache (sys dayLater) !! hash = Some record -> ir_key record = "k1" ->
         ir_expiresAt record <= now (sys dayLater)).
Proof.
  intros s records.
  assert (He : enumeratesCache records s) by (unfold enumeratesCache; reflexivity).
  assert (Hc : cache (sys dayLater) = cache s).
  { apply advanceClock_cache.
    assert (Htimers : timers s = [(startTime + IdempotencyService.TTL_MS, "k1")])
      by (vm_compute; reflexivity).
    rewrite Htimers. constructor; [vm_compute; reflexivity|constructor]. }
  assert (He' : enumeratesCache records (sys dayLater)).
  { unfold enumeratesCache. rewrite Hc. reflexivity. }
  destruct (getCached_returns_live_records_only s records "k1" He) as (_ & Hsome & _).
  destruct (getCached_returns_live_records_only (sys dayLater) records "k1" He')
    as (_ & _ & Hnone).
  split; [exact He|]. split.
  - assert (Hr : exists r, fst (IdempotencyService.getCached records "k1" s) = Return (Some r)).
    { let v := eval vm_compute in (fst (IdempotencyService.getCached records "k1" s)) in
      match v with Return (Some ?r) => exists r; vm_compute; reflexivity end. }
    destruct Hr as [r Hr]. apply pair_of_fst in Hr.
    destruct (Hsome r Hr) as (hash & record & Hrec).
    exists r, hash, record. split; [exact Hr|exact Hrec].
  - split; [exact He'|exact Hnone].
Defined.

(** ** Expiry *)

(** X20: a cached record does not expire.  [cacheResponse] schedules
    the cleanup of a record with the idempotency key, and the cache is
    keyed by fingerprints: unless the process runs under test, the timeout
    it adds is due 24 hours later and carries the key.  [cleanupExpired]
    deletes an expired record when it is called with the fingerprint the
    record is cached under, and does nothing when nothing is cached under
    its argument.  So, as long as no argument of a pending timeout is a
    fingerprint in the cache, the cache is the same however far the clock
    advances, and [processWithIdempotency] goes on returning the cached
    response of a request, without running the function, whatever the
    expiry time of the record. *)
Theorem cached_records_do_not_expire :
  forall (s : Sys),
    (forall hash key operation requestData response,
       NODE_ENV s <> Some "test" ->
       timers (snd (IdempotencyService.cacheResponse hash key operation requestData response s))
       = timers s ++ [(now s + IdempotencyService.TTL_MS, key)]) /\
    (forall hash record,
       cache s !! hash = Some record -> ir_expiresAt record < now s ->
       cache (IdempotencyService.cleanupExpired hash s) = base.delete hash (cache s)) /\
    (forall ms,
       Forall (fun timer => cache s !! snd timer = None) (timers s) ->
       cache (advanceClock ms s) = cache s /\
       forall tasks key operation requestData record fn,
         cache s !! IdempotencyService.generateHash key operation requestData = Some record ->
         IdempotencyService.requestDataMatches requestData (ir_requestData record) = true ->
         let w := mkWorld (advanceClock ms s) tasks in
         IdempotencyService.processWithIdempotency key operation requestData fn w
           = (Return (ir_response record), w)).
Proof.
  intros s. split; [|split].
  - intros hash key operation requestData response Henv.
    unfold IdempotencyService.cacheResponse. cbn [snd].
    rewrite bool_decide_eq_false_2 by exact Henv. reflexivity.
  - intros hash record Hc Hexp. unfold IdempotencyService.cleanupExpired.
    rewrite Hc. apply Z.ltb_lt in Hexp. rewrite Hexp. reflexivity.
  - intros ms Ht. pose proof (advanceClock_cache ms s Ht) as Hcache.
    split; [exact Hcache|].
    intros tasks key operation requestData record fn Hc Hm w.
    apply processWithIdempotency_hit; [|exact Hm].
    subst w. cbn [sys]. rewrite Hcache. exact Hc.
Qed.

Lemma cached_records_do_not_expire_witness :
  let s := sys (snd funded) in
  let data := fundRequest "bob" (fundOf (ofZ 100) "k1") in
  let late := mkWorld (advanceClock (IdempotencyService.TTL_MS + 1) s) [] in
  NODE_ENV (sys world1) <> Some "test" /\
  timers s = [(startTime + IdempotencyService.TTL_MS, "k1")] /\
  Forall (fun timer => cache s !! snd timer = None) (timers s) /\
  exists record,
    cache s !! IdempotencyService.generateHash "k1" "FUND_WALLET" data = Some record /\
    IdempotencyService.requestDataMatches data (ir_requestData record) = true /\
    ir_expiresAt record < now (sys late) /\
    IdempotencyService.processWithIdempotency "k1" "FUND_WALLET" data
      (throw (WalletNotFoundError "nobody")) late
      = (Return (ir_response record), late) /\
    cache (IdempotencyService.cleanupExpired
             (IdempotencyService.generateHash "k1" "FUND_WALLET" data) (sys late))
      = base.delete (IdempotencyService.generateHash "k1" "FUND_WALLET" data) (cache (sys late)).
Proof.
  intros s data late.
  assert (Henv : NODE_ENV (sys world1) <> Some "test") by (vm_compute; discriminate).
  assert (Htimers : timers s = [(startTime + IdempotencyService.TTL_MS, "k1")])
    by (vm_compute; reflexivity).
  assert (Ht : Forall (fun timer => cache s !! snd timer = None) (timers s)).
  { rewrite Htimers. constructor; [vm_compute; reflexivity|constructor]. }
  assert (Hrec : exists record,
            cache s !! IdempotencyService.generateHash "k1" "FUND_WALLET" data = Some record).
  { let v := eval vm_compute in
               (cache s !! IdempotencyService.generateHash "k1" "FUND_WALLET" data) in
    match v with Some ?r => exists r; vm_compute; reflexivity end. }
  destruct Hrec as [record Hrec].
  assert (Hm : IdempotencyService.requestDataMatches data (ir_requestData record) = true).
  { assert (Hd : ir_requestData <$> cache s
                   !! IdempotencyService.generateHash "k1" "FUND_WALLET" data = Some data)
      by (vm_compute; reflexivity).
    rewrite Hrec in Hd. injection Hd as ->. apply requestDataMatches_refl. }
  assert (Hexp : ir_expiresAt record < now (sys late)).
  { assert (Hd : ir_expiresAt <$> cache s
                   !! IdempotencyService.generateHash "k1" "FUND_WALLET" data
                 = Some (startTime + IdempotencyService.TTL_MS))
      by (vm_compute; reflexivity).
    rewrite Hrec in Hd. injection Hd as ->. vm_compute. reflexivity. }
  destruct (cached_records_do_not_expire s) as (_ & _ & Hstay).
  destruct (Hstay (IdempotencyService.TTL_MS + 1) Ht) as [Hcache Hserved].
  destruct (cached_records_do_not_expire (sys late)) as (_ & Hclean & _).
  split; [exact Henv|]. split; [exact Htimers|]. split; [exact Ht|].
  exists record. split; [exact Hrec|]. split; [exact Hm|]. split; [exact Hexp|].
  split; [exact (Hserved [] _ _ _ _ _ Hrec Hm)|].
  apply (Hclean _ record); [|exact Hexp].
  unfold late. cbn [sys]. rewrite Hcache. exact Hrec.
Defined.

(** * Printed numbers, dates and references *)

(** ** Strings *)

Lemma append_nil (b : string) : "" +:+ b = b.
Proof. reflexivity. Qed.

Lemma append_cons (c : ascii) (a b : string) : String c a +:+ b = String c (a +:+ b).
Proof. reflexivity. Qed.

Lemma length_append (a b : string) :
  String.length (a +:+ b) = (String.length a + String.length b)%nat.
Proof.
  induction a as [|c a IH]; [reflexivity|].
  rewrite append_cons. cbn [String.length]. rewrite IH. reflexivity.
Qed.

Lemma append_assoc (a b c : string) : (a +:+ b) +:+ c = a +:+ (b +:+ c).
Proof.
  induction a as [|ch a IH]; [reflexivity|]. rewrite !append_cons, IH. reflexivity.
Qed.

Lemma append_empty (a : string) : a +:+ "" = a.
Proof.
  induction a as [|ch a IH]; [reflexivity|]. rewrite append_cons, IH. reflexivity.
Qed.

Lemma append_cancel (a b c : string) : a +:+ b = a +:+ c -> b = c.
Proof. apply String.app_inj. Qed.

Lemma append_cancel_r (a b c : string) : a +:+ c = b +:+ c -> a = b.
Proof.
  revert b. induction a as [|x a IH]; intros [|y b] H.
  - reflexivity.
  - exfalso. apply (f_equal String.length) in H.
    rewrite append_nil, append_cons in H. cbn [String.length] in H.
    rewrite length_append in H. lia.
  - exfalso. apply (f_equal String.length) in H.
    rewrite append_nil, append_cons in H. cbn [String.length] in H.
    rewrite length_append in H. lia.
  - rewrite !append_cons in H. injection H as -> H. f_equal. apply IH. exact H.
Qed.

Lemma allChars_append p (a b : string) :
  allChars p (a +:+ b) = allChars p a && allChars p b.
Proof.
  induction a as [|c a IH]; [reflexivity|].
  rewrite append_cons. cbn [allChars]. rewrite IH. apply andb_assoc.
Qed.

Lemma allChars_impl (p q : ascii -> bool) (s : string) :
  (forall c, p c = true -> q c = true) -> allChars p s = true -> allChars q s = true.
Proof.
  intros Hpq. induction s as [|c s IH]; cbn; [reflexivity|].
  intros H. apply andb_true_iff in H as [Hc Hs]. rewrite (Hpq c Hc), (IH Hs). reflexivity.
Qed.

Lemma allChars_repeat p (c : ascii) (n : nat) :
  p c = true -> allChars p (repeatString (String c "") n) = true.
Proof.
  intros Hc. induction n as [|n IH]; [reflexivity|].
  cbn [repeatString]. rewrite append_cons, append_nil. cbn [allChars].
  rewrite Hc, IH. reflexivity.
Qed.

Lemma length_repeat (c : ascii) (n : nat) : String.length (repeatString (String c "") n) = n.
Proof.
  induction n as [|n IH]; [reflexivity|].
  cbn [repeatString]. rewrite append_cons, append_nil. cbn [String.length].
  rewrite IH. reflexivity.
Qed.

Lemma substring_length (n m : nat) (s : string) :
  (n + m <= String.length s)%nat -> String.length (String.substring n m s) = m.
Proof.
  revert n m. induction s as [|c s IH]; intros n m H; cbn in H.
  - assert (n = O) by lia. assert (m = O) by lia. subst. reflexivity.
  - destruct n as [|n]; cbn.
    + destruct m as [|m]; cbn; [reflexivity|]. rewrite IH by lia. reflexivity.
    + apply IH. lia.
Qed.

Lemma allChars_substring p (n m : nat) (s : string) :
  allChars p s = true -> allChars p (String.substring n m s) = true.
Proof.
  revert n m. induction s as [|c s IH]; intros n m H; cbn in *.
  - destruct n, m; reflexivity.
  - apply andb_true_iff in H as [Hc Hs]. destruct n as [|n]; cbn.
    + destruct m as [|m]; cbn; [reflexivity|]. rewrite Hc, (IH O m Hs). reflexivity.
    + apply IH. exact Hs.
Qed.

Lemma substring_prefix (a b : string) : String.substring 0 (String.length a) (a +:+ b) = a.
Proof.
  induction a as [|c a IH].
  - destruct b; reflexivity.
  - rewrite append_cons. cbn [String.length String.substring]. rewrite IH. reflexivity.
Qed.

Lemma isDigit_isNot (sep : ascii) :
  isDigit sep = false -> forall c, isDigit c = true -> isNot sep c = true.
Proof.
  intros Hsep c Hc. unfold isNot. destruct (Ascii.eqb_spec c sep) as [->|]; [congruence|reflexivity].
Qed.

(** ** Splitting at a character *)

Lemma split_without sep (a : string) :
  allChars (isNot sep) a = true -> String_split sep a = [a].
Proof.
  induction a as [|c a IH]; cbn; [reflexivity|]. intros H.
  apply andb_true_iff in H as [Hc Ha]. unfold isNot in Hc. apply negb_true_iff in Hc.
  rewrite Hc, (IH Ha). reflexivity.
Qed.

Lemma split_once sep (a b : string) :
  allChars (isNot sep) a = true -> allChars (isNot sep) b = true ->
  String_split sep (a +:+ String sep b) = [a; b].
Proof.
  intros Ha Hb. induction a as [|c a IH].
  - rewrite append_nil. cbn [String_split].
    rewrite Ascii.eqb_refl, (split_without sep b Hb). reflexivity.
  - rewrite append_cons. cbn [String_split].
    cbn [allChars] in Ha. apply andb_true_iff in Ha as [Hc Ha]. unfold isNot in Hc.
    apply negb_true_iff in Hc. rewrite Hc, (IH Ha). reflexivity.
Qed.

(** ** The digits of [pretty] *)

Lemma isDigit_pretty_N_char (x : N) : isDigit (pretty_N_char x) = true.
Proof. unfold pretty_N_char. repeat case_match; reflexivity. Qed.

Lemma pretty_N_go_digits (x : N) : forall s,
  allChars isDigit s = true -> allChars isDigit (pretty_N_go x s) = true.
Proof.
  induction (N.lt_wf_0 x) as [x _ IH]. intros s Hs.
  destruct (N.eq_dec x 0%N) as [->|Hx]; [rewrite pretty_N_go_0; exact Hs|].
  rewrite pretty_N_go_step by lia. apply IH.
  - apply N.div_lt; lia.
  - cbn. rewrite isDigit_pretty_N_char, Hs. reflexivity.
Qed.

(** The number of digits of a positive number. *)
Lemma pretty_N_go_length (x : N) : forall s,
  exists k : nat,
    String.length (pretty_N_go x s) = (k + String.length s)%nat /\
    Z.of_N x < 10 ^ Z.of_nat k /\
    (0 < Z.of_N x -> 10 ^ (Z.of_nat k - 1) <= Z.of_N x).
Proof.
  induction (N.lt_wf_0 x) as [x _ IH]. intros s.
  destruct (N.eq_dec x 0%N) as [->|Hx].
  - exists O. rewrite pretty_N_go_0. split; [reflexivity|]. split; [reflexivity|]. lia.
  - rewrite pretty_N_go_step by lia.
    destruct (IH (x `div` 10)%N ltac:(apply N.div_lt; lia)
                 (String (pretty_N_char (x `mod` 10)) s)) as (k & Hlen & Hup & Hlow).
    exists (S k). cbn [String.length] in Hlen. split; [lia|].
    rewrite N2Z.inj_div in Hup, Hlow. change (Z.of_N 10) with 10 in *.
    replace (Z.of_nat (S k) - 1) with (Z.of_nat k) by lia.
    replace (Z.of_nat (S k)) with (Z.of_nat k + 1) by lia.
    rewrite Z.pow_add_r by lia. change (10 ^ 1) with 10.
    pose proof (Z.pow_pos_nonneg 10 (Z.of_nat k) ltac:(lia) ltac:(lia)) as Hpos.
    split.
    + pose proof (Z.div_mod (Z.of_N x) 10 ltac:(lia)).
      pose proof (Z.mod_pos_bound (Z.of_N x) 10 ltac:(lia)). nia.
    + intros _. destruct (Z.eq_dec (Z.of_N x / 10) 0) as [H0|H0].
      * assert (k = O).
        { destruct k as [|k]; [reflexivity|]. exfalso.
          assert (Hq : (x `div` 10 = 0)%N) by lia.
          rewrite Hq, pretty_N_go_0 in Hlen. cbn in Hlen. lia. }
        subst k. cbn. lia.
      * assert (Hq : 0 < Z.of_N x / 10).
        { pose proof (Z.div_pos (Z.of_N x) 10 ltac:(lia) ltac:(lia)). lia. }
        specialize (Hlow Hq).
        assert (Hk : 1 <= Z.of_nat k).
        { destruct k as [|k]; [|lia]. cbn in Hup. lia. }
        replace (Z.of_nat k) with ((Z.of_nat k - 1) + 1) at 1 by lia.
        rewrite Z.pow_add_r by lia. change (10 ^ 1) with 10.
        pose proof (Z.div_mod (Z.of_N x) 10 ltac:(lia)).
        pose proof (Z.mod_pos_bound (Z.of_N x) 10 ltac:(lia)). nia.
Qed.

Lemma pretty_positive_spec (m : Z) :
  0 < m ->
  allChars isDigit (pretty m) = true /\
  m < 10 ^ Z.of_nat (String.length (pretty m)) /\
  10 ^ (Z.of_nat (String.length (pretty m)) - 1) <= m.
Proof.
  intros Hm. destruct m as [|p|p]; try lia.
  change (pretty (Z.pos p)) with (pretty (N.pos p)).
  unfold pretty, pretty_N. rewrite decide_False by discriminate.
  split; [apply pretty_N_go_digits; reflexivity|].
  destruct (pretty_N_go_length (N.pos p) "") as (k & Hlen & Hup & Hlow).
  cbn [String.length] in Hlen. rewrite Nat.add_0_r in Hlen. rewrite Hlen.
  change (Z.of_N (N.pos p)) with (Z.pos p) in *. split; [exact Hup|apply Hlow; lia].
Qed.

Lemma dropTrailingZeros_digits (s : string) :
  allChars isDigit s = true -> allChars isDigit (dropTrailingZeros s) = true.
Proof.
  induction s as [|c s IH]; cbn; [reflexivity|]. intros H.
  apply andb_true_iff in H as [Hc Hs]. specialize (IH Hs).
  destruct (dropTrailingZeros s) as [|c' s'] eqn:E.
  - destruct (Ascii.eqb c "0"); cbn; [reflexivity|]. rewrite Hc. reflexivity.
  - cbn [allChars] in *. rewrite Hc, IH. reflexivity.
Qed.

Lemma dropTrailingZeros_length (s : string) :
  (String.length (dropTrailingZeros s) <= String.length s)%nat.
Proof.
  induction s as [|c s IH]; cbn; [lia|].
  destruct (dropTrailingZeros s) as [|c' s'] eqn:E.
  - destruct (Ascii.eqb c "0"); cbn; lia.
  - cbn [String.length] in *. lia.
Qed.

(** ** The decimals that [validateAmount] counts *)

Lemma decimals_in_plain_notation (x : Num) :
  0 < mantissa x ->
  -6 < exponent x + Z.of_nat (String.length (pretty (mantissa x))) <= 21 ->
  String.length (nth 1 (String_split "." (Number_toString x)) EmptyString)
  = Z.to_nat (fractionalDigits x).
Proof.
  intros Hm Hn. unfold Number_toString, fractionalDigits.
  rewrite (proj2 (Z.eqb_neq (mantissa x) 0)) by lia.
  rewrite (Z.abs_eq (mantissa x)) by lia.
  destruct (pretty_positive_spec (mantissa x) Hm) as (Hall & _ & _).
  pose proof (dropTrailingZeros_digits _ Hall) as Hs.
  set (all := pretty (mantissa x)) in *.
  set (s := dropTrailingZeros all) in *.
  set (n := exponent x + Z.of_nat (String.length all)) in *.
  rewrite (proj2 (Z.ltb_ge (mantissa x) 0)) by lia. rewrite append_nil.
  rewrite (proj2 (Z.ltb_lt (-6) n)) by lia.
  rewrite (proj2 (Z.leb_le n 21)) by lia. cbn [andb].
  assert (Hdot : forall d, allChars isDigit d = true -> allChars (isNot ".") d = true).
  { intros d. apply allChars_impl. apply isDigit_isNot. reflexivity. }
  destruct (Z.leb_spec (Z.of_nat (String.length s)) n) as [Hkn|Hkn].
  - rewrite split_without.
    + cbn [nth String.length]. lia.
    + apply Hdot. rewrite allChars_append, Hs. apply allChars_repeat. reflexivity.
  - destruct (Z.ltb_spec 0 n) as [Hpos|Hneg].
    + unfold substring.
      change ("." +:+ ?b) with (String "." b).
      rewrite split_once.
      * cbn [nth]. rewrite substring_length by lia. lia.
      * apply Hdot, allChars_substring, Hs.
      * apply Hdot, allChars_substring, Hs.
    + change ("0." +:+ ?b) with ("0" +:+ String "." b).
      rewrite split_once.
      * cbn [nth]. rewrite length_append, length_repeat. lia.
      * reflexivity.
      * apply Hdot. rewrite allChars_append, Hs, andb_true_r.
        apply allChars_repeat. reflexivity.
Qed.

Lemma pow10_le_inv (a b : Z) : 0 <= b -> 10 ^ a <= 10 ^ b -> a <= b.
Proof.
  intros Hb H. destruct (Z.le_gt_cases a b) as [|Hgt]; [assumption|].
  exfalso. assert (10 ^ b < 10 ^ a) by (apply Z.pow_lt_mono_r; lia). lia.
Qed.

Lemma pow10_lt_inv (a b : Z) : 0 <= b -> 10 ^ a < 10 ^ b -> a < b.
Proof.
  intros Hb H. destruct (Z.lt_ge_cases a b) as [|Hge]; [assumption|].
  exfalso. assert (10 ^ b <= 10 ^ a) by (apply Z.pow_le_mono_r; lia). lia.
Qed.

Lemma plain_notation_range (x : Num) :
  (1 # 1000000 <= value x)%Q -> (value x <= 1000000)%Q ->
  0 < mantissa x /\
  -6 < exponent x + Z.of_nat (String.length (pretty (mantissa x))) <= 21.
Proof.
  destruct x as [m e]. unfold value. cbn [mantissa exponent].
  intros Hlow Hup.
  assert (Hm : 0 < m).
  { destruct e as [|p|p]; unfold Qle in Hlow; cbn [Qnum Qden] in Hlow.
    - rewrite Z.pow_0_r in Hlow. lia.
    - pose proof (Z.pow_pos_nonneg 10 (Z.pos p) ltac:(lia) ltac:(lia)). nia.
    - lia. }
  split; [exact Hm|].
  destruct (pretty_positive_spec m Hm) as (_ & Hlt & Hge).
  set (L := Z.of_nat (String.length (pretty m))) in *.
  assert (HL : 1 <= L).
  { assert (10 ^ 0 < 10 ^ L) by (rewrite Z.pow_0_r; lia).
    apply pow10_lt_inv in H; lia. }
  assert (Hsix : 1000000 = 10 ^ 6) by reflexivity.
  destruct e as [|p|p]; unfold Qle in Hlow, Hup; cbn [Qnum Qden] in Hlow, Hup.
  - rewrite Z.pow_0_r in Hup. split; [lia|].
    assert (10 ^ (L - 1) <= 10 ^ 6) by lia. apply pow10_le_inv in H; lia.
  - split; [lia|].
    assert (10 ^ (L - 1 + Z.pos p) <= 10 ^ 6).
    { rewrite Z.pow_add_r by lia.
      pose proof (Z.pow_pos_nonneg 10 (Z.pos p) ltac:(lia) ltac:(lia)). nia. }
    apply pow10_le_inv in H; lia.
  - rewrite Pos2Z.inj_pow in Hlow, Hup. change (Z.pos 10) with 10 in *.
    split.
    + assert (10 ^ Z.pos p < 10 ^ (L + 6)).
      { rewrite Z.pow_add_r by lia. rewrite <- Hsix. lia. }
      apply pow10_lt_inv in H; lia.
    + assert (10 ^ (L - 1) <= 10 ^ (6 + Z.pos p)).
      { rewrite Z.pow_add_r by lia. rewrite <- Hsix. lia. }
      apply pow10_le_inv in H; lia.
Qed.

(** X21: [validateAmount] on amounts that print in plain notation.  An
    amount of zero or less is rejected as not positive, and an amount above
    1000000 as exceeding the maximum.  An amount from 0.000001 to 1000000
    prints in plain notation, and the characters that [validateAmount]
    counts after the decimal point are the fractional digits of the amount:
    it is accepted when it has at most two fractional digits and rejected
    when it has more. *)
Theorem validateAmount_counts_the_fractional_digits :
  forall (amount : Num),
    ((value amount <= 0)%Q ->
     WalletService.validateAmount amount
       = Throw (InvalidTransactionAmountError amount "Amount must be positive")) /\
    ((1000000 < value amount)%Q ->
     WalletService.validateAmount amount
       = Throw (InvalidTransactionAmountError amount "Amount cannot exceed 1000000")) /\
    ((1 # 1000000 <= value amount)%Q -> (value amount <= 1000000)%Q ->
     (fractionalDigits amount <= 2 -> WalletService.validateAmount amount = Return tt) /\
     (2 < fractionalDigits amount ->
      WalletService.validateAmount amount
        = Throw (InvalidTransactionAmountError amount
                   "Amount cannot have more than 2 decimal places"))).
Proof.
  intros amount. unfold WalletService.validateAmount.
  change (value WalletService.MAX_AMOUNT) with (1000000 # 1)%Q.
  split; [|split].
  - intros Hle. apply Qle_bool_iff in Hle. rewrite Hle. reflexivity.
  - intros Hgt.
    assert (Hpos : (0 < value amount)%Q) by lra.
    apply Qle_bool_false in Hpos. rewrite Hpos.
    apply Qltb_true in Hgt. rewrite Hgt. reflexivity.
  - intros Hlow Hup.
    destruct (plain_notation_range amount Hlow Hup) as [Hm Hn].
    assert (Hpos : (0 < value amount)%Q) by lra.
    apply Qle_bool_false in Hpos. rewrite Hpos.
    apply Qltb_false in Hup. rewrite Hup.
    rewrite (decimals_in_plain_notation amount Hm Hn).
    assert (H0 : 0 <= fractionalDigits amount).
    { unfold fractionalDigits. destruct (mantissa amount =? 0); lia. }
    split.
    + intros Hfew. rewrite (proj2 (Nat.ltb_ge 2 _)) by lia. reflexivity.
    + intros Hmany. rewrite (proj2 (Nat.ltb_lt 2 _)) by lia. reflexivity.
Qed.

Lemma validateAmount_counts_the_fractional_digits_witness :
  (value (ofZ 0) <= 0)%Q /\
  WalletService.validateAmount (ofZ 0)
    = Throw (InvalidTransactionAmountError (ofZ 0) "Amount must be positive") /\
  (1000000 < value (mkNum 100000001 (-2)))%Q /\
  WalletService.validateAmount (mkNum 100000001 (-2))
    = Throw (InvalidTransactionAmountError (mkNum 100000001 (-2))
               "Amount cannot exceed 1000000") /\
  (1 # 1000000 <= value (mkNum 1050 (-2)))%Q /\ (value (mkNum 1050 (-2)) <= 1000000)%Q /\
  fractionalDigits (mkNum 1050 (-2)) <= 2 /\
  WalletService.validateAmount (mkNum 1050 (-2)) = Return tt /\
  (1 # 1000000 <= value (mkNum 1 (-6)))%Q /\ (value (mkNum 1 (-6)) <= 1000000)%Q /\
  2 < fractionalDigits (mkNum 1 (-6)) /\
  WalletService.validateAmount (mkNum 1 (-6))
    = Throw (InvalidTransactionAmountError (mkNum 1 (-6))
               "Amount cannot have more than 2 decimal places").
Proof.
  assert (H0 : (value (ofZ 0) <= 0)%Q) by (vm_compute; discriminate).
  assert (Hbig : (1000000 < value (mkNum 100000001 (-2)))%Q) by reflexivity.
  assert (Hl1 : (1 # 1000000 <= value (mkNum 1050 (-2)))%Q) by (vm_compute; discriminate).
  assert (Hu1 : (value (mkNum 1050 (-2)) <= 1000000)%Q) by (vm_compute; discriminate).
  assert (Hf1 : fractionalDigits (mkNum 1050 (-2)) <= 2) by (vm_compute; discriminate).
  assert (Hl2 : (1 # 1000000 <= value (mkNum 1 (-6)))%Q) by (vm_compute; discriminate).
  assert (Hu2 : (value (mkNum 1 (-6)) <= 1000000)%Q) by (vm_compute; discriminate).
  assert (Hf2 : 2 < fractionalDigits (mkNum 1 (-6))) by reflexivity.
  destruct (validateAmount_counts_the_fractional_digits (ofZ 0)) as (Hzero & _ & _).
  destruct (validateAmount_counts_the_fractional_digits (mkNum 100000001 (-2)))
    as (_ & Hmax & _).
  destruct (validateAmount_counts_the_fractional_digits (mkNum 1050 (-2))) as (_ & _ & Hok).
  destruct (validateAmount_counts_the_fractional_digits (mkNum 1 (-6))) as (_ & _ & Hko).
  split; [exact H0|]. split; [exact (Hzero H0)|]. split; [exact Hbig|].
  split; [exact (Hmax Hbig)|]. split; [exact Hl1|]. split; [exact Hu1|]. split; [exact Hf1|].
  split; [exact (proj1 (Hok Hl1 Hu1) Hf1)|]. split; [exact Hl2|]. split; [exact Hu2|].
  split; [exact Hf2|]. exact (proj2 (Hko Hl2 Hu2) Hf2).
Defined.

(** ** The references of one clock reading *)

Lemma generateTransactionReference_eq rnd s :
  TransactionService.generateTransactionReference rnd s
  = (Return (referenceOf rnd s (Z.rem (transactionCounter s) 1000 + 1)),
     setTransactionCounter (Z.rem (transactionCounter s) 1000 + 1) s).
Proof. reflexivity. Qed.

Lemma referenceOf_counter rnd s c counter :
  referenceOf rnd (setTransactionCounter c s) counter = referenceOf rnd s counter.
Proof. reflexivity. Qed.

Lemma generateReferences_eq n rnd : forall s,
  fst (generateReferences n rnd s)
  = map (referenceOf rnd s) (countersFrom n (transactionCounter s)).
Proof.
  induction n as [|n IH]; intros s; [reflexivity|].
  cbn [generateReferences countersFrom]. rewrite generateTransactionReference_eq.
  specialize (IH (setTransactionCounter (Z.rem (transactionCounter s) 1000 + 1) s)).
  destruct (generateReferences n rnd _) as [rest s''] eqn:E.
  cbn [fst map] in *. rewrite IH. cbn [transactionCounter setTransactionCounter].
  reflexivity.
Qed.

Lemma countersFrom_eq n : forall c,
  0 <= c ->
  countersFrom n c = map (fun i => (c + Z.of_nat i) mod 1000 + 1) (seq 0 n).
Proof.
  induction n as [|n IH]; intros c Hc; [reflexivity|].
  cbn [countersFrom seq map]. rewrite Z.rem_mod_nonneg by lia.
  rewrite Z.add_0_r. f_equal.
  rewrite IH by (pose proof (Z.mod_pos_bound c 1000 ltac:(lia)); lia).
  rewrite <- seq_shift, map_map. apply map_ext. intros i.
  f_equal. rewrite Nat2Z.inj_succ.
  replace (c mod 1000 + 1 + Z.of_nat i) with (c mod 1000 + (1 + Z.of_nat i)) by lia.
  rewrite Zplus_mod_idemp_l. f_equal. lia.
Qed.

Lemma countersFrom_range n c counter :
  0 <= c -> In counter (countersFrom n c) -> 1 <= counter <= 1000.
Proof.
  intros Hc Hin. rewrite countersFrom_eq in Hin by exact Hc.
  apply in_map_iff in Hin as (i & <- & _).
  pose proof (Z.mod_pos_bound (c + Z.of_nat i) 1000 ltac:(lia)). lia.
Qed.

Lemma countersFrom_NoDup n c : 0 <= c -> (n <= 1000)%nat -> NoDup (countersFrom n c).
Proof.
  intros Hc Hn. rewrite countersFrom_eq by exact Hc.
  apply NoDup_fmap_2_strong; [|apply NoDup_ListNoDup, seq_NoDup].
  intros i j Hi Hj Heq.
  apply list_elem_of_In, in_seq in Hi. apply list_elem_of_In, in_seq in Hj.
  assert (Hmod : (c + Z.of_nat i) mod 1000 = (c + Z.of_nat j) mod 1000) by lia.
  pose proof (Z.div_mod (c + Z.of_nat i) 1000 ltac:(lia)).
  pose proof (Z.div_mod (c + Z.of_nat j) 1000 ltac:(lia)).
  lia.
Qed.

(** The padded counter is read back as the counter. *)
Lemma padded_counters_parse :
  forallb (fun counter => parseDigits 0 (padStart0 3 (pretty counter)) =? counter)
          (seqZ 1 1000) = true.
Proof. vm_compute. reflexivity. Qed.

Lemma padded_counters_digits :
  forallb (fun counter => allChars isDigit (padStart0 3 (pretty counter))) (seqZ 1 1000) = true.
Proof. vm_compute. reflexivity. Qed.

Lemma padded_counter_inj (a b : Z) :
  1 <= a <= 1000 -> 1 <= b <= 1000 ->
  padStart0 3 (pretty a) = padStart0 3 (pretty b) -> a = b.
Proof.
  intros Ha Hb Heq.
  pose proof padded_counters_parse as Hparse. rewrite forallb_forall in Hparse.
  assert (Hpa := Hparse a). assert (Hpb := Hparse b).
  rewrite <- list_elem_of_In, elem_of_seqZ in Hpa, Hpb.
  specialize (Hpa ltac:(lia)). specialize (Hpb ltac:(lia)).
  apply Z.eqb_eq in Hpa, Hpb. rewrite Heq in Hpa. congruence.
Qed.

(** A string of digits before a dash is found again before the first
    dash. *)
Lemma digits_before_dash (a b r r' : string) :
  allChars isDigit a = true -> allChars isDigit b = true ->
  a +:+ String "-" r = b +:+ String "-" r' -> a = b.
Proof.
  revert b. induction a as [|x a IH]; intros [|y b] Ha Hb H.
  - reflexivity.
  - exfalso. rewrite append_nil, append_cons in H. injection H as <- _.
    cbn [allChars] in Hb. apply andb_true_iff in Hb as [Hy _]. discriminate.
  - exfalso. rewrite append_nil, append_cons in H. injection H as -> _.
    cbn [allChars] in Ha. apply andb_true_iff in Ha as [Hx _]. discriminate.
  - rewrite !append_cons in H. injection H as -> H. f_equal.
    cbn [allChars] in Ha, Hb. apply andb_true_iff in Ha as [_ Ha].
    apply andb_true_iff in Hb as [_ Hb]. exact (IH b Ha Hb H).
Qed.

Lemma referenceOf_inj rnd rnd' s (a b : Z) :
  1 <= a <= 1000 -> 1 <= b <= 1000 ->
  referenceOf rnd s a = referenceOf rnd' s b -> a = b.
Proof.
  intros Ha Hb H. unfold referenceOf in H.
  apply append_cancel in H. apply append_cancel in H. apply (append_cancel "-") in H.
  apply (padded_counter_inj a b Ha Hb).
  pose proof padded_counters_digits as Hd. rewrite forallb_forall in Hd.
  apply (digits_before_dash _ _ _ _
           (Hd a ltac:(apply list_elem_of_In, elem_of_seqZ; lia))
           (Hd b ltac:(apply list_elem_of_In, elem_of_seqZ; lia)) H).
Qed.

Lemma nth_map_in {A B : Type} (f : A -> B) (l : list A) (n : nat) (d : B) (d' : A) :
  (n < length l)%nat -> nth n (map f l) d = f (nth n l d').
Proof.
  intros Hn. rewrite (nth_indep _ d (f d')) by (rewrite length_map; exact Hn).
  apply map_nth.
Qed.

(** X22: the references of one clock reading differ up to a thousand.
    From a counter state of at least zero, up to 1000 references generated
    one after the other while the clock reads the same time differ from
    each other, even when [Math.random] returns the same value every time:
    their counters differ.  The counter then wraps, and reference number
    1001 has the counter of the first: with the same random value the two
    are the same reference. *)
Theorem references_differ_up_to_a_thousand :
  forall (rnd : Entropy) (s : Sys),
    0 <= transactionCounter s ->
    (forall n : nat,
       (n <= 1000)%nat ->
       NoDup (fst (generateReferences n rnd s)) /\
       length (fst (generateReferences n rnd s)) = n) /\
    nth 1000 (fst (generateReferences 1001 rnd s)) EmptyString
    = nth 0 (fst (generateReferences 1001 rnd s)) EmptyString.
Proof.
  intros rnd s Hc. split.
  - intros n Hn. rewrite generateReferences_eq. split.
    + apply NoDup_fmap_2_strong; [|apply countersFrom_NoDup; assumption].
      intros a b Ha Hb. apply list_elem_of_In in Ha, Hb.
      apply referenceOf_inj; eapply countersFrom_range; eassumption.
    + rewrite length_map, countersFrom_eq, length_map, length_seq by exact Hc. reflexivity.
  - rewrite generateReferences_eq, countersFrom_eq by exact Hc.
    rewrite !(nth_map_in (referenceOf rnd s) _ _ _ 0)
      by (rewrite length_map, length_seq; lia).
    rewrite !(nth_map_in _ (seq 0 1001) _ _ O) by (rewrite length_seq; lia).
    rewrite !seq_nth by lia. f_equal. f_equal.
    change (Z.of_nat (0 + 1000)) with (1 * 1000). change (Z.of_nat (0 + 0)) with 0.
    rewrite Z.add_0_r. apply Z_mod_plus_full.
Qed.

Lemma references_differ_up_to_a_thousand_witness :
  0 <= transactionCounter (sys world1) /\
  (NoDup (fst (generateReferences 1000 entropy1 (sys world1))) /\
   length (fst (generateReferences 1000 entropy1 (sys world1))) = 1000%nat) /\
  nth 1000 (fst (generateReferences 1001 entropy1 (sys world1))) EmptyString
  = nth 0 (fst (generateReferences 1001 entropy1 (sys world1))) EmptyString.
Proof.
  assert (Hc : 0 <= transactionCounter (sys world1)) by (vm_compute; discriminate).
  split; [exact Hc|].
  destruct (references_differ_up_to_a_thousand entropy1 (sys world1) Hc) as [Hn Hw].
  split; [apply Hn; lia | exact Hw].
Defined.

(** ** The format of a reference *)

Lemma isDigits_spec n s :
  isDigits n s = true <-> allChars isDigit s = true /\ String.length s = n.
Proof. unfold isDigits. rewrite andb_true_iff, Nat.eqb_eq. reflexivity. Qed.

Lemma isDigits_append n m a b :
  isDigits n a = true -> isDigits m b = true -> isDigits (n + m) (a +:+ b) = true.
Proof.
  rewrite !isDigits_spec. intros [Ha <-] [Hb <-].
  rewrite allChars_append, Ha, Hb, length_append. split; reflexivity.
Qed.

(** A number below [10 ^ n] is padded to [n] digits. *)
Lemma padZ_digits (n : nat) (z : Z) :
  (1 <= n)%nat -> 0 <= z < 10 ^ Z.of_nat n -> isDigits n (padZ n z) = true.
Proof.
  intros Hn Hz. unfold padZ, padStart0. apply isDigits_spec.
  assert (Hp : allChars isDigit (pretty z) = true /\ (String.length (pretty z) <= n)%nat).
  { destruct (Z.eq_dec z 0) as [->|Hne]; [split; [reflexivity|exact Hn]|].
    destruct (pretty_positive_spec z ltac:(lia)) as (Hd & _ & Hlow). split; [exact Hd|].
    assert (Z.of_nat (String.length (pretty z)) - 1 < Z.of_nat n); [|lia].
    apply pow10_lt_inv; lia. }
  destruct Hp as [Hd Hlen].
  rewrite allChars_append, length_append, length_repeat, Hd.
  rewrite allChars_repeat by reflexivity. split; [reflexivity|lia].
Qed.

Lemma civilFromDays_range (days : Z) :
  1 <= snd (fst (civilFromDays days)) <= 12 /\ 1 <= snd (civilFromDays days) <= 31.
Proof.
  unfold civilFromDays. cbn [fst snd].
  set (z := days + 719468). set (doe := z - z / 146097 * 146097).
  assert (Hdoe : 0 <= doe < 146097) by (subst doe; Z.div_mod_to_equations; lia).
  clearbody doe. clear z.
  set (yoe := (doe - doe / 1460 + doe / 36524 - doe / 146096) / 365).
  set (doy := doe - (365 * yoe + yoe / 4 - yoe / 100)).
  assert (Hdoy : 0 <= doy <= 365) by (subst doy yoe; Z.div_mod_to_equations; lia).
  clearbody doy. clear yoe.
  destruct (Z.ltb_spec ((5 * doy + 2) / 153) 10); Z.div_mod_to_equations; lia.
Qed.

Lemma digit_is_no_separator (c : ascii) :
  isDigit c = true -> existsb (Ascii.eqb c) ["-"; ":"; "T"; "."; "Z"]%char = false.
Proof. destruct c as [[] [] [] [] [] [] [] []]; intros H; try discriminate H; reflexivity. Qed.

Lemma removeSeparators_digits (a : string) :
  allChars isDigit a = true -> TransactionService.removeSeparators a = a.
Proof.
  induction a as [|c a IH]; [reflexivity|]. cbn [allChars TransactionService.removeSeparators].
  intros H. apply andb_true_iff in H as [Hc Ha].
  rewrite (digit_is_no_separator c Hc), (IH Ha). reflexivity.
Qed.

Lemma removeSeparators_append (a b : string) :
  TransactionService.removeSeparators (a +:+ b)
  = TransactionService.removeSeparators a +:+ TransactionService.removeSeparators b.
Proof.
  induction a as [|c a IH]; [reflexivity|].
  rewrite append_cons. cbn [TransactionService.removeSeparators].
  destruct (existsb _ _); [exact IH|]. rewrite append_cons, IH. reflexivity.
Qed.

(** The timestamp of a reference: year, month, day, hours, minutes and
    seconds. *)
Lemma timestamp_digits (t : Z) :
  0 <= Date_getUTCFullYear t <= 9999 ->
  isDigits 14 (substring (TransactionService.removeSeparators (Date_toISOString t)) 0 14) = true.
Proof.
  intros Hy. unfold Date_getUTCFullYear in Hy. unfold Date_toISOString.
  pose proof (civilFromDays_range (t / msPerDay)) as [Hm Hd].
  destruct (civilFromDays (t / msPerDay)) as [[y m] d]. cbn [fst snd] in Hy, Hm, Hd.
  pose proof (Z.mod_pos_bound t msPerDay ltac:(reflexivity)) as Hms.
  set (ms := t mod msPerDay) in *. clearbody ms. unfold msPerDay in Hms.
  unfold yearString.
  rewrite (proj2 (andb_true_iff _ _)) by (split; apply Z.leb_le; lia).
  assert (HY : isDigits 4 (padZ 4 y) = true) by (apply padZ_digits; [lia|cbn; lia]).
  assert (HM : isDigits 2 (padZ 2 m) = true) by (apply padZ_digits; [lia|cbn; lia]).
  assert (HD : isDigits 2 (padZ 2 d) = true) by (apply padZ_digits; [lia|cbn; lia]).
  assert (Hh : isDigits 2 (padZ 2 (ms / 3600000)) = true).
  { apply padZ_digits; [lia|]. change (10 ^ Z.of_nat 2) with 100. Z.div_mod_to_equations; lia. }
  assert (Hmi : isDigits 2 (padZ 2 (ms / 60000 mod 60)) = true).
  { apply padZ_digits; [lia|]. change (10 ^ Z.of_nat 2) with 100. Z.div_mod_to_equations; lia. }
  assert (Hs : isDigits 2 (padZ 2 (ms / 1000 mod 60)) = true).
  { apply padZ_digits; [lia|]. change (10 ^ Z.of_nat 2) with 100. Z.div_mod_to_equations; lia. }
  assert (Hmmm : isDigits 3 (padZ 3 (ms mod 1000)) = true).
  { apply padZ_digits; [lia|]. change (10 ^ Z.of_nat 3) with 1000. Z.div_mod_to_equations; lia. }
  generalize dependent (padZ 4 y). generalize dependent (padZ 2 m).
  generalize dependent (padZ 2 d). generalize dependent (padZ 2 (ms / 3600000)).
  generalize dependent (padZ 2 (ms / 60000 mod 60)).
  generalize dependent (padZ 2 (ms / 1000 mod 60)).
  generalize dependent (padZ 3 (ms mod 1000)).
  intros mmm Hmmm ss Hs mi Hmi hh Hh DD HD MM HM YY HY.
  pose proof (isDigits_append _ _ _ _ HY
               (isDigits_append _ _ _ _ HM
                 (isDigits_append _ _ _ _ HD
                   (isDigits_append _ _ _ _ Hh (isDigits_append _ _ _ _ Hmi Hs))))) as HP.
  set (P := YY +:+ MM +:+ DD +:+ hh +:+ mi +:+ ss) in HP.
  assert (E : TransactionService.removeSeparators
                (YY +:+ "-" +:+ MM +:+ "-" +:+ DD +:+ "T" +:+ hh +:+ ":" +:+ mi +:+ ":" +:+
                 ss +:+ "." +:+ mmm +:+ "Z") = P +:+ mmm).
  { apply isDigits_spec in HY as [HY _], HM as [HM _], HD as [HD _], Hh as [Hh _],
      Hmi as [Hmi _], Hs as [Hs _], Hmmm as [Hmmm _].
    rewrite !removeSeparators_append.
    rewrite (removeSeparators_digits YY HY), (removeSeparators_digits MM HM),
      (removeSeparators_digits DD HD), (removeSeparators_digits hh Hh),
      (removeSeparators_digits mi Hmi), (removeSeparators_digits ss Hs),
      (removeSeparators_digits mmm Hmmm).
    change (TransactionService.removeSeparators "-") with EmptyString.
    change (TransactionService.removeSeparators ":") with EmptyString.
    change (TransactionService.removeSeparators "T") with EmptyString.
    change (TransactionService.removeSeparators ".") with EmptyString.
    change (TransactionService.removeSeparators "Z") with EmptyString.
    rewrite !append_nil, append_empty. subst P. rewrite !append_assoc. reflexivity. }
  rewrite E. apply isDigits_spec in HP as [HPd HPl].
  unfold substring. change (14 - 0)%nat with (4 + (2 + (2 + (2 + (2 + 2)))))%nat.
  rewrite <- HPl, substring_prefix. apply isDigits_spec. split; [exact HPd|exact HPl].
Qed.

Lemma length_S (s : string) (n : nat) :
  String.length s = S n -> exists c r, s = String c r /\ String.length r = n.
Proof.
  destruct s as [|c r]; [discriminate|]. cbn [String.length]. intros H.
  exists c, r. split; [reflexivity|lia].
Qed.

Lemma length_O (s : string) : String.length s = O -> s = EmptyString.
Proof. destruct s; [reflexivity|discriminate]. Qed.

Ltac explode H :=
  repeat (let c := fresh "c" in let r := fresh "r" in
          apply length_S in H as (c & r & -> & H));
  apply length_O in H as ->.

Ltac use_digits :=
  repeat match goal with
         | H : _ && _ = true |- _ => apply andb_true_iff in H as [? ?]
         | H : isDigit _ = true |- _ => rewrite H; clear H
         | H : isUpperAlnum _ = true |- _ => rewrite H; clear H
         end.

Lemma length_substring (n m : nat) (s : string) :
  String.length (String.substring n m s) = Nat.min m (String.length s - n).
Proof.
  revert n m. induction s as [|c s IH]; intros n m.
  - destruct n, m; reflexivity.
  - destruct n as [|n]; cbn [String.substring String.length].
    + destruct m as [|m]; [reflexivity|]. cbn [String.length]. rewrite IH. cbn. lia.
    + rewrite IH. reflexivity.
Qed.

Lemma length_toUpperCase (s : string) : String.length (toUpperCase s) = String.length s.
Proof. induction s as [|c s IH]; [reflexivity|]. cbn. rewrite IH. reflexivity. Qed.

Lemma toUpperCaseChar_base36 (c : ascii) :
  isBase36Digit c = true -> isUpperAlnum (toUpperCaseChar c) = true.
Proof. destruct c as [[] [] [] [] [] [] [] []]; intros H; try discriminate H; reflexivity. Qed.

Lemma toUpperCase_base36 (s : string) :
  allChars isBase36Digit s = true -> allChars isUpperAlnum (toUpperCase s) = true.
Proof.
  induction s as [|c s IH]; [reflexivity|]. cbn [allChars toUpperCase]. intros H.
  apply andb_true_iff in H as [Hc Hs]. rewrite (toUpperCaseChar_base36 c Hc), (IH Hs).
  reflexivity.
Qed.

(** With a three-digit counter the reference has the format exactly when
    the random part has four characters. *)
Lemma format_of_parts (ts ctr rand : string) :
  isDigits 14 ts = true -> isDigits 3 ctr = true ->
  allChars isUpperAlnum rand = true -> (String.length rand <= 4)%nat ->
  matchesReferenceFormat ("TXN-" +:+ ts +:+ "-" +:+ ctr +:+ "-" +:+ rand)
  = (String.length rand =? 4)%nat.
Proof.
  intros Hts Hctr Hrand Hlen.
  apply isDigits_spec in Hts as [Hts Lts], Hctr as [Hctr Lctr].
  explode Lts. explode Lctr.
  destruct rand as [|a1 [|a2 [|a3 [|a4 [|a5 rest]]]]];
    try (cbn [String.length] in Hlen; lia);
    cbn [allChars] in Hts, Hctr, Hrand;
    unfold matchesReferenceFormat, substring; rewrite ?append_cons, ?append_nil;
    try reflexivity.
  cbn -[isDigit isUpperAlnum]. use_digits. reflexivity.
Qed.

(** With the counter 1000 it never has. *)
Lemma format_of_long_counter (ts rand : string) :
  isDigits 14 ts = true -> (String.length rand <= 4)%nat ->
  matchesReferenceFormat ("TXN-" +:+ ts +:+ "-" +:+ "1000" +:+ "-" +:+ rand) = false.
Proof.
  intros Hts Hlen. apply isDigits_spec in Hts as [Hts Lts]. explode Lts.
  destruct rand as [|a1 [|a2 [|a3 [|a4 [|a5 rest]]]]];
    try (cbn [String.length] in Hlen; lia);
    cbn [allChars] in Hts;
    unfold matchesReferenceFormat, substring; rewrite ?append_cons, ?append_nil;
    try reflexivity.
  cbn -[isDigit isUpperAlnum]. use_digits. reflexivity.
Qed.

(** X23: when a generated reference has the documented format.  While the
    year of the clock has four digits and the counter state is not negative,
    and [Math.random().toString(36)] has digits of base 36 at the positions
    2 to 5, the reference that [generateTransactionReference] returns matches
    [TXN-14 digits-3 digits-4 alphanumerics] exactly when the counter state
    is not 999 modulo 1000 and the printed random number has at least six
    characters. *)
Theorem reference_has_the_format_iff :
  forall (rnd : Entropy) (s : Sys),
    0 <= Date_getUTCFullYear (now s) <= 9999 ->
    0 <= transactionCounter s ->
    allChars isBase36Digit (substring (random36 rnd) 2 6) = true ->
    exists reference : string,
      fst (TransactionService.generateTransactionReference rnd s) = Return reference /\
      (matchesReferenceFormat reference = true <->
       transactionCounter s mod 1000 <> 999 /\ (6 <= String.length (random36 rnd))%nat).
Proof.
  intros rnd s Hy Hc Hr. eexists. split; [reflexivity|].
  pose proof (timestamp_digits (now s) Hy) as Hts.
  pose proof (toUpperCase_base36 _ Hr) as Hrand.
  assert (Hlen : String.length (toUpperCase (substring (random36 rnd) 2 6))
                 = Nat.min 4 (String.length (random36 rnd) - 2)).
  { rewrite length_toUpperCase. unfold substring. apply length_substring. }
  rewrite Z.rem_mod_nonneg by lia.
  pose proof (Z.mod_pos_bound (transactionCounter s) 1000 ltac:(lia)) as Hmod.
  destruct (Z.eq_dec (transactionCounter s mod 1000) 999) as [E|E].
  - rewrite E. change (padStart0 3 (pretty (999 + 1))) with "1000".
    rewrite format_of_long_counter by (try exact Hts; lia).
    split; [discriminate|]. intros [Hne _]. contradiction.
  - rewrite format_of_parts; try assumption; try lia.
    + rewrite Hlen, Nat.eqb_eq. split; [intros H; split; [exact E|lia]|intros [_ H]; lia].
    + apply padZ_digits; [lia|]. change (10 ^ Z.of_nat 3) with 1000. lia.
Qed.

Lemma reference_has_the_format_iff_witness :
  0 <= Date_getUTCFullYear (now (sys world1)) <= 9999 /\
  0 <= transactionCounter (sys world1) /\
  allChars isBase36Digit (substring (random36 entropy1) 2 6) = true /\
  exists reference : string,
    fst (TransactionService.generateTransactionReference entropy1 (sys world1))
    = Return reference /\
    (matchesReferenceFormat reference = true <->
     transactionCounter (sys world1) mod 1000 <> 999 /\
     (6 <= String.length (random36 entropy1))%nat).
Proof.
  assert (Hy : 0 <= Date_getUTCFullYear (now (sys world1)) <= 9999)
    by (vm_compute; split; discriminate).
  assert (Hc : 0 <= transactionCounter (sys world1)) by (vm_compute; discriminate).
  assert (Hr : allChars isBase36Digit (substring (random36 entropy1) 2 6) = true)
    by (vm_compute; reflexivity).
  split; [exact Hy|]. split; [exact Hc|]. split; [exact Hr|].
  exact (reference_has_the_format_iff entropy1 (sys world1) Hy Hc Hr).
Defined.

(** * Properties of the state that every operation keeps

    A property of the state that is kept by each write of the
    repositories and of the idempotency service, as the services make them,
    is kept by every computation of the services, under any interleaving
    with tasks that keep it. *)

Section SystemInvariant.

Variable Inv : Sys -> Prop.

Hypothesis Inv_wallets : forall s m, Inv s -> Inv (setWallets m s).
Hypothesis Inv_counter : forall s c, Inv s -> Inv (setTransactionCounter c s).
Hypothesis Inv_now : forall s t, Inv s -> Inv (setNow t s).
Hypothesis Inv_timers : forall s t, Inv s -> Inv (setTimers t s).
Hypothesis Inv_append :
  forall s tx, accepted tx = true -> Inv s -> Inv (setTransactions (transactions s ++ [tx]) s).
Hypothesis Inv_index : forall s m, Inv s -> Inv (setTransactionIndex m s).
Hypothesis Inv_cache_insert :
  forall s key operation requestData response,
    Inv s ->
    Inv (setCache (<[IdempotencyService.generateHash key operation requestData :=
                       recordOf key operation requestData response (now s)]> (cache s)) s).
Hypothesis Inv_cache_delete :
  forall s hash, Inv s -> Inv (setCache (base.delete hash (cache s)) s).

Lemma steady_ret {A} (a : A) : steady Inv (ret a).
Proof. intros w H. exact H. Qed.

Lemma steady_throw {A} e : steady Inv (@throw World A e).
Proof. intros w H. exact H. Qed.

Lemma steady_outcome {A} (o : Outcome A) : steady Inv (outcome o).
Proof. intros w H. exact H. Qed.

Lemma steady_newDate : steady Inv newDate.
Proof. intros w H. exact H. Qed.

Lemma steady_bind {A B} (m : Async A) (k : A -> Async B) :
  steady Inv m -> (forall a, steady Inv (k a)) -> steady Inv (bind m k).
Proof.
  intros Hm Hk w Hw. unfold bind. specialize (Hm w Hw).
  destruct (m w) as [[a|e] w']; cbn [snd] in *; [apply Hk|]; assumption.
Qed.

(** What follows a value knows where the value comes from. *)
Lemma steady_bind_outcome {A B} (o : Outcome A) (k : A -> Async B) :
  (forall a, o = Return a -> steady Inv (k a)) -> steady Inv (bind (outcome o) k).
Proof.
  intros Hk w Hw. unfold bind, outcome.
  destruct o as [a|e]; [apply (Hk a eq_refl); exact Hw|exact Hw].
Qed.

Lemma steady_tryCatch {A} (body : Async A) (handler : Error -> Async A) :
  steady Inv body -> (forall e, steady Inv (handler e)) -> steady Inv (tryCatch body handler).
Proof.
  intros Hm Hk w Hw. unfold tryCatch. specialize (Hm w Hw).
  destruct (body w) as [[a|e] w']; cbn [snd] in *; [|apply Hk]; assumption.
Qed.

Lemma Steady_suspend w : Steady Inv w -> Steady Inv (suspend w).
Proof.
  intros [Hs Hp]. unfold suspend. destruct (pending w) as [|task rest] eqn:E.
  - split; [assumption|]. rewrite E. constructor.
  - inversion Hp; subst. split; cbn [sys pending]; auto.
Qed.

Lemma steady_await {A} (m : Async A) : steady Inv m -> steady Inv (await m).
Proof.
  intros Hm w Hw. unfold await. specialize (Hm w Hw).
  destruct (m w) as [r w']. cbn [snd] in *. apply Steady_suspend. assumption.
Qed.

Lemma steady_run {A} (m : Sync A) : steadySync Inv m -> steady Inv (run m).
Proof.
  intros Hm w [Hs Hp]. unfold run. specialize (Hm (sys w) Hs).
  destruct (m (sys w)) as [r s']. split; cbn [snd sys pending] in *; assumption.
Qed.

Lemma wallet_create_steady wallet : steadySync Inv (WalletRepository.create wallet).
Proof.
  intros s Hs. unfold WalletRepository.create.
  destruct (wallets s !! Wallet.id wallet); [exact Hs|].
  destruct (WalletRepository.cloneWallet wallet s); [|exact Hs].
  cbn [snd]. apply Inv_wallets. exact Hs.
Qed.

Lemma findById_steady id : steadySync Inv (WalletRepository.findById id).
Proof.
  intros s Hs. unfold WalletRepository.findById.
  destruct (wallets s !! id) as [w|]; [|exact Hs].
  destruct (WalletRepository.cloneWallet w s); exact Hs.
Qed.

Lemma findByIds_steady ids : steadySync Inv (WalletRepository.findByIds ids).
Proof. intros s Hs. exact Hs. Qed.

Lemma findAll_steady stored : steadySync Inv (WalletRepository.findAll stored).
Proof. intros s Hs. exact Hs. Qed.

Lemma update_steady wallet expectedVersion :
  steadySync Inv (WalletRepository.update wallet expectedVersion).
Proof.
  intros s Hs. unfold WalletRepository.update.
  destruct (wallets s !! Wallet.id wallet) as [existingWallet|]; [|exact Hs].
  destruct (negb _); [exact Hs|].
  destruct (WalletRepository.cloneWallet _ s); [|exact Hs].
  cbn [snd]. apply Inv_wallets. exact Hs.
Qed.

Lemma new_accepted now id reference type sourceWalletId targetWalletId amount currency status
    metadata tx :
  Transaction.new now id reference type sourceWalletId targetWalletId amount currency status
    metadata = Return tx ->
  accepted tx = true.
Proof.
  unfold Transaction.new, Transaction.validateAmount, accepted.
  destruct (Qle_bool amount 0) eqn:Ea; [discriminate|].
  destruct (Transaction.validateTransactionType type sourceWalletId) as [[]|e] eqn:Et;
    [|discriminate].
  intros [= <-]. cbn [Transaction.amount Transaction.type Transaction.sourceWalletId].
  rewrite Ea, Et. reflexivity.
Qed.

Lemma transaction_create_steady transaction :
  steadySync Inv (TransactionRepository.create transaction).
Proof.
  intros s Hs. unfold TransactionRepository.create.
  destruct (TransactionRepository.cloneTransaction transaction s) as [cloned|e] eqn:E;
    [|exact Hs].
  cbn [snd]. apply Inv_index, Inv_append; [|exact Hs].
  exact (new_accepted _ _ _ _ _ _ _ _ _ _ _ E).
Qed.

Lemma findByWalletId_steady walletId options :
  steadySync Inv (TransactionRepository.findByWalletId walletId options).
Proof. intros s Hs. exact Hs. Qed.

Lemma countByWalletId_steady walletId :
  steadySync Inv (TransactionRepository.countByWalletId walletId).
Proof. intros s Hs. exact Hs. Qed.

Lemma generateTransactionReference_steady rnd :
  steadySync Inv (TransactionService.generateTransactionReference rnd).
Proof. intros s Hs. cbn [TransactionService.generateTransactionReference snd]. apply Inv_counter. exact Hs. Qed.

Lemma cacheResponse_steady key operation requestData response :
  steadySync Inv
    (IdempotencyService.cacheResponse
       (IdempotencyService.generateHash key operation requestData)
       key operation requestData response).
Proof.
  intros s Hs. unfold IdempotencyService.cacheResponse. cbn [snd].
  pose proof (Inv_cache_insert s key operation requestData response Hs) as H.
  destruct (bool_decide _); [exact H|]. apply Inv_timers. exact H.
Qed.

Lemma cleanupExpired_maintains hash : maintains Inv (IdempotencyService.cleanupExpired hash).
Proof.
  intros s Hs. unfold IdempotencyService.cleanupExpired.
  destruct (cache s !! hash) as [record|]; [|exact Hs].
  destruct (ir_expiresAt record <? now s); [|exact Hs].
  apply Inv_cache_delete. exact Hs.
Qed.

Lemma cleanupAll_maintains (due : list (Z * string)) :
  maintains Inv (fun s => foldl (fun s' t => IdempotencyService.cleanupExpired (snd t) s') s due).
Proof.
  induction due as [|t rest IH]; intros s Hs; [exact Hs|].
  cbn [foldl]. apply IH. apply cleanupExpired_maintains. exact Hs.
Qed.

Lemma advanceClock_maintains ms : maintains Inv (advanceClock ms).
Proof.
  intros s Hs. unfold advanceClock, runTimers.
  apply cleanupAll_maintains. apply Inv_timers, Inv_now. exact Hs.
Qed.

Lemma steady_sleep ms : steady Inv (WalletService.sleep ms).
Proof.
  intros w [Hs Hp]. split; cbn [snd sys pending WalletService.sleep]; [|assumption].
  apply advanceClock_maintains. assumption.
Qed.

Create HintDb steady.

#[local] Hint Resolve steady_ret steady_throw steady_outcome steady_newDate steady_sleep
  wallet_create_steady findById_steady findByIds_steady findAll_steady update_steady
  findByWalletId_steady countByWalletId_steady
  generateTransactionReference_steady cacheResponse_steady : steady.

Ltac steady_step :=
  match goal with
  | |- steady Inv (bind (outcome _) _) => apply steady_bind_outcome; intros ? ?
  | |- steady Inv (bind _ _) => apply steady_bind; [|intros ?]
  | |- steady Inv (tryCatch _ _) => apply steady_tryCatch; [|intros ?]
  | |- steady Inv (await _) => apply steady_await
  | |- steady Inv (run (TransactionRepository.create _)) =>
      apply steady_run, transaction_create_steady
  | |- steady Inv (run _) => apply steady_run
  | |- steady Inv (match ?x with _ => _ end) => destruct x
  | |- steady Inv (let _ := _ in _) => cbv zeta
  | |- _ => solve [auto with steady]
  end.

Ltac steady_steps := repeat steady_step.

Lemma createFundingTransaction_steady rnd targetWalletId amount currency metadata :
  steady Inv
    (TransactionService.createFundingTransaction rnd targetWalletId amount currency metadata).
Proof. unfold TransactionService.createFundingTransaction. steady_steps. Qed.

Lemma createTransferTransaction_steady rnd sourceWalletId targetWalletId amount currency
    metadata :
  steady Inv
    (TransactionService.createTransferTransaction rnd sourceWalletId targetWalletId amount
       currency metadata).
Proof. unfold TransactionService.createTransferTransaction. steady_steps. Qed.

Lemma processWithIdempotency_steady key operation requestData fn :
  steady Inv fn ->
  steady Inv (IdempotencyService.processWithIdempotency key operation requestData fn).
Proof.
  intros Hfn w Hw. unfold IdempotencyService.processWithIdempotency.
  destruct (cache (sys w) !! _) as [cached|].
  - destruct (negb _); exact Hw.
  - revert w Hw. change (steady Inv
      (tryCatch
         (do response <- await fn in
          do _ <- run (IdempotencyService.cacheResponse
                         (IdempotencyService.generateHash key operation requestData)
                         key operation requestData response) in
          ret response)
         (fun error => throw error))).
    steady_steps.
Qed.

#[local] Hint Resolve createFundingTransaction_steady createTransferTransaction_steady : steady.

Ltac steady_steps ::=
  repeat first
    [ apply processWithIdempotency_steady
    | steady_step ].

Lemma getWalletOrThrow_steady walletId : steady Inv (WalletService.getWalletOrThrow walletId).
Proof. unfold WalletService.getWalletOrThrow. steady_steps. Qed.

#[local] Hint Resolve getWalletOrThrow_steady : steady.

Lemma createWallet_steady walletId dto : steady Inv (WalletService.createWallet walletId dto).
Proof. unfold WalletService.createWallet. steady_steps. Qed.

Lemma getWallet_steady walletId : steady Inv (WalletService.getWallet walletId).
Proof. unfold WalletService.getWallet. steady_steps. Qed.

Lemma listWallets_steady stored : steady Inv (WalletService.listWallets stored).
Proof. unfold WalletService.listWallets. steady_steps. Qed.

Lemma getWalletDetails_steady walletId : steady Inv (WalletService.getWalletDetails walletId).
Proof.
  unfold WalletService.getWalletDetails, TransactionService.getWalletTransactions,
    TransactionService.countWalletTransactions.
  steady_steps.
Qed.

Lemma executeFunding_steady rnd walletId dto :
  steady Inv (WalletService.executeFunding rnd walletId dto).
Proof. unfold WalletService.executeFunding. steady_steps. Qed.

#[local] Hint Resolve executeFunding_steady : steady.

Lemma fundWallet_steady rnd walletId dto : steady Inv (WalletService.fundWallet rnd walletId dto).
Proof. unfold WalletService.fundWallet. steady_steps. Qed.

Lemma rollbackSourceWallet_steady sourceWallet originalBalance currentVersion :
  steady Inv (WalletService.rollbackSourceWallet sourceWallet originalBalance currentVersion).
Proof. unfold WalletService.rollbackSourceWallet. steady_steps. Qed.

#[local] Hint Resolve rollbackSourceWallet_steady : steady.

Lemma executeTransfer_steady rnd sourceWalletId dto :
  steady Inv (WalletService.executeTransfer rnd sourceWalletId dto).
Proof. unfold WalletService.executeTransfer. steady_steps. Qed.

#[local] Hint Resolve executeTransfer_steady : steady.

Lemma executeTransferWithRetry_from_steady remaining rnd sourceWalletId dto : forall attempt,
  steady Inv
    (WalletService.executeTransferWithRetry_from remaining rnd sourceWalletId dto attempt).
Proof.
  induction remaining as [|remaining IH]; intros attempt;
    cbn [WalletService.executeTransferWithRetry_from]; steady_steps.
Qed.

Lemma executeTransferWithRetry_steady rnd sourceWalletId dto attempt :
  steady Inv (WalletService.executeTransferWithRetry rnd sourceWalletId dto attempt).
Proof. apply executeTransferWithRetry_from_steady. Qed.

#[local] Hint Resolve executeTransferWithRetry_steady : steady.

Lemma transferFunds_steady rnd sourceWalletId dto :
  steady Inv (WalletService.transferFunds rnd sourceWalletId dto).
Proof. unfold WalletService.transferFunds. steady_steps. Qed.

Lemma perform_Steady op w : Steady Inv w -> Steady Inv (perform op w).
Proof.
  destruct op; cbn [perform].
  - apply createWallet_steady.
  - apply fundWallet_steady.
  - apply transferFunds_steady.
Qed.

Lemma performAll_Steady ops : forall w, Steady Inv w -> Steady Inv (performAll ops w).
Proof.
  unfold performAll.
  induction ops as [|op ops IH]; intros w Hw; cbn [foldl]; [assumption|].
  apply IH. apply perform_Steady. assumption.
Qed.

End SystemInvariant.

(** ** The log *)

Lemma LogAccepted_app s tx :
  accepted tx = true -> LogAccepted s -> LogAccepted (setTransactions (transactions s ++ [tx]) s).
Proof.
  unfold LogAccepted. intros Ha Hs. cbn [transactions setTransactions].
  rewrite forallb_app, Hs. cbn [forallb]. rewrite Ha. reflexivity.
Qed.

Lemma performAll_LogAccepted ops w :
  Steady LogAccepted w -> Steady LogAccepted (performAll ops w).
Proof.
  apply performAll_Steady; try (intros; assumption).
  apply LogAccepted_app.
Qed.

Lemma world0_Steady (Inv : Sys -> Prop) : Inv (sys world0) -> Steady Inv world0.
Proof. intros H. split; [exact H|constructor]. Qed.

(** X24: the log holds well-formed transactions only.  In every state
    reached by any sequence of [createWallet], [fundWallet] and
    [transferFunds] calls, returning or throwing, from a state where it is
    so, whatever the other tasks do at the suspension points as long as
    they keep it so, every transaction of the log has a positive amount, a
    funding has no source wallet and a transfer has one: the constructor
    accepts it again, so that the queries that clone the log do not
    throw. *)
Theorem log_holds_well_formed_transactions :
  forall (w : World) (ops : list Operation),
    Steady LogAccepted w ->
    forall tx,
      tx ∈ transactions (sys (performAll ops w)) ->
      (0 < Transaction.amount tx)%Q /\
      (Transaction.type tx = FUNDING ->
       Transaction.truthy (Transaction.sourceWalletId tx) = false) /\
      (Transaction.type tx = TRANSFER ->
       Transaction.truthy (Transaction.sourceWalletId tx) = true) /\
      (forall s, TransactionRepository.cloneTransaction tx s = Return (copyOf tx s)).
Proof.
  intros w ops Hw tx Hin.
  destruct (performAll_LogAccepted ops w Hw) as [Hlog _].
  unfold LogAccepted in Hlog. rewrite forallb_forall in Hlog.
  apply list_elem_of_In in Hin. specialize (Hlog tx Hin).
  split; [|split; [|split]].
  - unfold accepted in Hlog. apply andb_true_iff in Hlog as [Ha _].
    apply negb_true_iff in Ha. apply Qle_bool_false. exact Ha.
  - intros Ht. unfold accepted in Hlog. apply andb_true_iff in Hlog as [_ Hv].
    rewrite Ht in Hv. cbn [Transaction.validateTransactionType] in Hv.
    destruct (Transaction.truthy _); [discriminate|reflexivity].
  - intros Ht. unfold accepted in Hlog. apply andb_true_iff in Hlog as [_ Hv].
    rewrite Ht in Hv. cbn [Transaction.validateTransactionType] in Hv.
    destruct (Transaction.truthy _); [reflexivity|discriminate].
  - intros s. apply cloneTransaction_accepted. exact Hlog.
Qed.

Lemma log_holds_well_formed_transactions_witness :
  let ops :=
    openAccounts ++
    [ FundWallet entropy1 "bob" (fundOf (ofZ 100) "k1");
      TransferFunds entropy2 "alice" (transferTo "bob" (ofZ 20) "k2") ] in
  Steady LogAccepted world0 /\
  length (transactions (sys (performAll ops world0))) = 2%nat /\
  Forall (fun tx => (0 < Transaction.amount tx)%Q) (transactions (sys (performAll ops world0))).
Proof.
  intros ops.
  assert (H0 : Steady LogAccepted world0) by (apply world0_Steady; reflexivity).
  split; [exact H0|]. split; [vm_compute; reflexivity|].
  apply Forall_forall. intros tx Hin.
  exact (proj1 (log_holds_well_formed_transactions world0 ops H0 tx Hin)).
Defined.

(** ** The cache *)

Lemma Fingerprinted_insert s key operation requestData response :
  Fingerprinted s ->
  Fingerprinted
    (setCache (<[IdempotencyService.generateHash key operation requestData :=
                   recordOf key operation requestData response (now s)]> (cache s)) s).
Proof.
  intros Hs hash record. cbn [cache setCache].
  destruct (decide (IdempotencyService.generateHash key operation requestData = hash))
    as [<-|Hne].
  - rewrite lookup_insert_eq. intros [= <-].
    cbn [recordOf ir_key ir_operation ir_requestData ir_hash ir_expiresAt ir_createdAt].
    repeat split.
  - rewrite lookup_insert_ne by exact Hne. apply Hs.
Qed.

Lemma Fingerprinted_delete s hash :
  Fingerprinted s -> Fingerprinted (setCache (base.delete hash (cache s)) s).
Proof.
  intros Hs h record. cbn [cache setCache]. intros Hl.
  apply lookup_delete_Some in Hl as [_ Hl]. exact (Hs h record Hl).
Qed.

Lemma performAll_Fingerprinted ops w :
  Steady Fingerprinted w -> Steady Fingerprinted (performAll ops w).
Proof.
  apply performAll_Steady; try (intros; assumption).
  - intros s key operation requestData response. apply Fingerprinted_insert.
  - apply Fingerprinted_delete.
Qed.

(** X25: the duplicate-key error needs a collision of fingerprints.  In
    every state reached by the operations of the service from a state in
    which every cached record is filed under the fingerprint of its own key,
    operation and request data, whatever the other tasks do as long as they
    keep it so, the cache is of that kind.  On such a cache, when a record
    is found for a request, [processWithIdempotency] either returns the
    cached response, or throws [DuplicateTransactionError]; in the second
    case the sorted request data of the record and of the request print
    differently while the two strings that were hashed have the same SHA-256
    digest.  Two requests under the same key and operation whose sorted
    request data print differently are hashed from different strings. *)
Theorem duplicate_key_error_needs_a_collision :
  (forall (w : World) (ops : list Operation),
     Steady Fingerprinted w -> Fingerprinted (sys (performAll ops w))) /\
  (forall (w : World) (key operation : string) (requestData : JSON) (fn : Async Response)
          (record : IdempotencyRecord),
     Fingerprinted (sys w) ->
     cache (sys w) !! IdempotencyService.generateHash key operation requestData = Some record ->
     IdempotencyService.processWithIdempotency key operation requestData fn w
       = (Return (ir_response record), w) \/
     IdempotencyService.processWithIdempotency key operation requestData fn w
       = (Throw (DuplicateTransactionError key (ir_requestData record)), w) /\
     JSON_stringify (IdempotencyService.sortObjectKeys requestData)
       <> JSON_stringify (IdempotencyService.sortObjectKeys (ir_requestData record)) /\
     Sha256.digest (fingerprintInput key operation requestData)
       = Sha256.digest (fingerprintInput (ir_key record) (ir_operation record)
                          (ir_requestData record))) /\
  (forall (key operation : string) (requestData requestData' : JSON),
     JSON_stringify (IdempotencyService.sortObjectKeys requestData)
       <> JSON_stringify (IdempotencyService.sortObjectKeys requestData') ->
     fingerprintInput key operation requestData <> fingerprintInput key operation requestData').
Proof.
  split; [|split].
  - intros w ops Hw. exact (proj1 (performAll_Fingerprinted ops w Hw)).
  - intros w key operation requestData fn record Hf Hc.
    unfold IdempotencyService.processWithIdempotency. rewrite Hc.
    unfold IdempotencyService.requestDataMatches.
    destruct (String.eqb_spec
                (JSON_stringify (IdempotencyService.sortObjectKeys requestData))
                (JSON_stringify (IdempotencyService.sortObjectKeys (ir_requestData record))))
      as [Heq|Hne]; cbn [negb].
    + left. reflexivity.
    + right. split; [reflexivity|]. split; [exact Hne|].
      destruct (Hf _ _ Hc) as (Hhash & _ & _). exact Hhash.
  - intros key operation requestData requestData' Hne Heq. apply Hne.
    unfold fingerprintInput in Heq.
    apply append_cancel in Heq. apply (append_cancel "|") in Heq.
    apply append_cancel in Heq. apply (append_cancel "|") in Heq. exact Heq.
Qed.

Lemma duplicate_key_error_needs_a_collision_witness :
  let ops := openAccounts ++ [FundWallet entropy1 "bob" (fundOf (ofZ 100) "k1")] in
  let w := performAll ops world0 in
  let data := fundRequest "bob" (fundOf (ofZ 100) "k1") in
  let data' := fundRequest "bob" (fundOf (ofZ 200) "k1") in
  Steady Fingerprinted world0 /\
  Fingerprinted (sys w) /\
  (exists record,
     cache (sys w) !! IdempotencyService.generateHash "k1" "FUND_WALLET" data = Some record /\
     IdempotencyService.processWithIdempotency "k1" "FUND_WALLET" data
       (throw (WalletNotFoundError "nobody")) w
       = (Return (ir_response record), w)) /\
  JSON_stringify (IdempotencyService.sortObjectKeys data)
    <> JSON_stringify (IdempotencyService.sortObjectKeys data') /\
  fingerprintInput "k1" "FUND_WALLET" data <> fingerprintInput "k1" "FUND_WALLET" data'.
Proof.
  intros ops w data data'.
  assert (H0 : Steady Fingerprinted world0).
  { apply world0_Steady. intros hash record H. cbn in H. rewrite lookup_empty in H.
    discriminate. }
  destruct duplicate_key_error_needs_a_collision as (Hinv & Hhit & Hdiff).
  assert (Hf : Fingerprinted (sys w)) by exact (Hinv world0 ops H0).
  assert (Hrec : exists record,
            cache (sys w) !! IdempotencyService.generateHash "k1" "FUND_WALLET" data
            = Some record).
  { let v := eval vm_compute in
               (cache (sys w) !! IdempotencyService.generateHash "k1" "FUND_WALLET" data) in
    match v with Some ?r => exists r; vm_compute; reflexivity end. }
  assert (Hne : JSON_stringify (IdempotencyService.sortObjectKeys data)
                <> JSON_stringify (IdempotencyService.sortObjectKeys data'))
    by (vm_compute; discriminate).
  split; [exact H0|]. split; [exact Hf|]. split.
  - destruct Hrec as [record Hrec]. exists record. split; [exact Hrec|].
    destruct (Hhit w "k1" "FUND_WALLET" data (throw (WalletNotFoundError "nobody")) record
                Hf Hrec) as [Hserved|(_ & Hdiffers & _)]; [exact Hserved|].
    exfalso. apply Hdiffers.
    assert (Hd : ir_requestData <$> cache (sys w)
                   !! IdempotencyService.generateHash "k1" "FUND_WALLET" data = Some data)
      by (vm_compute; reflexivity).
    rewrite Hrec in Hd. injection Hd as ->. reflexivity.
  - split; [exact Hne|]. exact (Hdiff "k1" "FUND_WALLET" data data' Hne).
Defined.

(** * Lookups by reference, and the life of a wallet *)

Lemma find_none_iff (reference : string) (log : list Transaction.t) :
  find (fun t => String.eqb (Transaction.reference t) reference) log = None
  <-> forall tx, tx ∈ log -> Transaction.reference tx <> reference.
Proof.
  induction log as [|t log IH]; cbn [find].
  - split; [intros _ tx Hin; inversion Hin|reflexivity].
  - destruct (String.eqb_spec (Transaction.reference t) reference) as [E|E].
    + split; [discriminate|]. intros H. exfalso. apply (H t); [left|exact E].
    + rewrite IH. split.
      * intros H tx Hin. apply elem_of_cons in Hin as [->|Hin]; [exact E|exact (H tx Hin)].
      * intros H tx Hin. apply H. right. exact Hin.
Qed.

Lemma find_first (reference : string) (before after : list Transaction.t) (tx : Transaction.t) :
  Transaction.reference tx = reference ->
  (forall t, t ∈ before -> Transaction.reference t <> reference) ->
  find (fun t => String.eqb (Transaction.reference t) reference) (before ++ tx :: after)
  = Some tx.
Proof.
  intros Htx. induction before as [|t before IH]; intros Hne; cbn [find app].
  - rewrite (proj2 (String.eqb_eq _ _) Htx). reflexivity.
  - rewrite (proj2 (String.eqb_neq _ _) (Hne t ltac:(left))).
    apply IH. intros t' Hin. apply Hne. right. exact Hin.
Qed.

(** X26: [findByReference] returns the first transaction of the log with
    the reference.  On a log of transactions that the constructor accepts,
    the query returns [null] exactly when no transaction of the log has the
    reference, and otherwise a clone of the first one that has it; it never
    throws and the state is unchanged.  A transaction that
    [createFundingTransaction] has returned, run with nothing else running
    on such a log in which no transaction has its reference, is then found
    by its reference: the clone carries its fields, and the time of the
    query as its creation and update time. *)
Theorem findByReference_finds_the_first :
  forall (s : Sys),
    LogAccepted s ->
    (forall reference,
       TransactionRepository.findByReference reference s = (Return None, s)
       <-> forall tx, tx ∈ transactions s -> Transaction.reference tx <> reference) /\
    (forall reference before tx after,
       transactions s = before ++ tx :: after ->
       Transaction.reference tx = reference ->
       (forall t, t ∈ before -> Transaction.reference t <> reference) ->
       TransactionRepository.findByReference reference s = (Return (Some (copyOf tx s)), s)) /\
    (forall rnd targetWalletId amount currency metadata tx w',
       TransactionService.createFundingTransaction rnd targetWalletId amount currency metadata
         (alone s) = (Return tx, w') ->
       (forall t, t ∈ transactions s -> Transaction.reference t <> Transaction.reference tx) ->
       TransactionRepository.findByReference (Transaction.reference tx) (sys w')
         = (Return (Some (copyOf tx (sys w'))), sys w')).
Proof.
  intros s Hacc. unfold LogAccepted in Hacc.
  assert (Hfound : forall s' reference before tx after,
            forallb accepted (transactions s') = true ->
            transactions s' = before ++ tx :: after ->
            Transaction.reference tx = reference ->
            (forall t, t ∈ before -> Transaction.reference t <> reference) ->
            TransactionRepository.findByReference reference s'
            = (Return (Some (copyOf tx s')), s')).
  { intros s' reference before tx after Hacc' Hlog Htx Hne.
    unfold TransactionRepository.findByReference.
    rewrite Hlog, (find_first reference before after tx Htx Hne).
    rewrite cloneTransaction_accepted; [reflexivity|].
    rewrite forallb_forall in Hacc'. apply Hacc'. rewrite Hlog.
    apply in_or_app. right. left. reflexivity. }
  split; [|split].
  - intros reference. rewrite <- find_none_iff.
    unfold TransactionRepository.findByReference.
    destruct (find _ (transactions s)) as [tx|] eqn:E.
    + split; [|discriminate].
      rewrite cloneTransaction_accepted; [discriminate|].
      rewrite forallb_forall in Hacc. apply Hacc. apply (find_some _ _ E).
    + split; reflexivity.
  - intros reference before tx after. apply Hfound. exact Hacc.
  - intros rnd targetWalletId amount currency metadata tx w' Hcreate Hfresh.
    unfold TransactionService.createFundingTransaction, bind, run, newDate, outcome, await,
      alone in Hcreate.
    cbn [sys pending fst snd TransactionService.generateTransactionReference] in Hcreate.
    destruct (Transaction.new _ _ _ _ _ _ _ _ _ _) as [t|e] eqn:Enew; [|discriminate].
    pose proof (new_accepted _ _ _ _ _ _ _ _ _ _ _ Enew) as Ht.
    unfold TransactionRepository.create in Hcreate.
    rewrite (cloneTransaction_accepted t _ Ht) in Hcreate. cbv zeta in Hcreate.
    rewrite cloneTransaction_accepted in Hcreate by exact Ht.
    cbn [sys pending suspend ret fst snd] in Hcreate. injection Hcreate as <- <-.
    cbn [sys].
    match goal with
    | |- TransactionRepository.findByReference _ ?s' = _ =>
        apply (Hfound s' _ (transactions s) (copyOf t s') [])
    end.
    + change (forallb accepted (transactions s ++ [copyOf t s]) = true).
      rewrite forallb_app. cbn [forallb].
      change (accepted (copyOf t s)) with (accepted t). rewrite Hacc, Ht. reflexivity.
    + reflexivity.
    + reflexivity.
    + exact Hfresh.
Qed.

Lemma findByReference_finds_the_first_witness :
  let rnd := {| uuid := "tx-0004"; random36 := "0.8d3fa01c" |} in
  let created :=
    TransactionService.createFundingTransaction rnd "bob" 9 "USD" None (alone (sys history)) in
  LogAccepted (sys history) /\
  TransactionRepository.findByReference "TXN-20250115123045-009-ZZZZ" (sys history)
    = (Return None, sys history) /\
  (exists first second third,
     transactions (sys history) = [first] ++ second :: [third] /\
     Transaction.reference second = "TXN-20250115123046-002-ZZ91" /\
     Transaction.reference first <> "TXN-20250115123046-002-ZZ91" /\
     TransactionRepository.findByReference "TXN-20250115123046-002-ZZ91" (sys history)
       = (Return (Some (copyOf second (sys history))), sys history)) /\
  (exists tx,
     fst created = Return tx /\
     Transaction.reference tx = "TXN-20250115123047-004-8D3F" /\
     (forall t, t ∈ transactions (sys history) ->
                Transaction.reference t <> Transaction.reference tx) /\
     length (transactions (sys (snd created))) = 4%nat /\
     TransactionRepository.findByReference (Transaction.reference tx) (sys (snd created))
       = (Return (Some (copyOf tx (sys (snd created)))), sys (snd created))).
Proof.
  intros rnd created.
  assert (Hacc : LogAccepted (sys history)) by (vm_compute; reflexivity).
  destruct (findByReference_finds_the_first (sys history) Hacc) as (Hnone & Hfirst & Hcreated).
  assert (Hdiffer : forall reference,
            forallb (fun t => negb (String.eqb (Transaction.reference t) reference))
                    (transactions (sys history)) = true ->
            forall t, t ∈ transactions (sys history) -> Transaction.reference t <> reference).
  { intros reference Hall t Hin. rewrite forallb_forall in Hall.
    specialize (Hall t (proj1 (list_elem_of_In _ _) Hin)).
    apply negb_true_iff, String.eqb_neq in Hall. exact Hall. }
  assert (Habsent : TransactionRepository.findByReference "TXN-20250115123045-009-ZZZZ"
                      (sys history) = (Return None, sys history))
    by (apply Hnone, Hdiffer; vm_compute; reflexivity).
  assert (Hsecond : exists first second third,
            transactions (sys history) = [first] ++ second :: [third] /\
            Transaction.reference second = "TXN-20250115123046-002-ZZ91" /\
            Transaction.reference first <> "TXN-20250115123046-002-ZZ91" /\
            TransactionRepository.findByReference "TXN-20250115123046-002-ZZ91" (sys history)
              = (Return (Some (copyOf second (sys history))), sys history)).
  { let v := eval vm_compute in (transactions (sys history)) in
    match v with
    | [?a; ?b; ?c] =>
        assert (Hlog : transactions (sys history) = [a] ++ b :: [c]) by (vm_compute; reflexivity);
        exists a, b, c
    end.
    split; [exact Hlog|]. split; [reflexivity|]. split; [discriminate|].
    apply (Hfirst _ _ _ _ Hlog); [reflexivity|].
    intros t Hin. apply list_elem_of_singleton in Hin as ->. discriminate. }
  assert (Hfound : exists tx,
            fst created = Return tx /\
            Transaction.reference tx = "TXN-20250115123047-004-8D3F" /\
            (forall t, t ∈ transactions (sys history) ->
                       Transaction.reference t <> Transaction.reference tx) /\
            length (transactions (sys (snd created))) = 4%nat /\
            TransactionRepository.findByReference (Transaction.reference tx) (sys (snd created))
              = (Return (Some (copyOf tx (sys (snd created)))), sys (snd created))).
  { let v := eval vm_compute in (fst created) in
    match v with
    | Return ?t =>
        assert (Ef : fst created = Return t) by (vm_compute; reflexivity);
        exists t
    end.
    assert (Hnew : forall t, t ∈ transactions (sys history) ->
                     Transaction.reference t <> "TXN-20250115123047-004-8D3F")
      by (apply Hdiffer; vm_compute; reflexivity).
    assert (Hlen : length (transactions (sys (snd created))) = 4%nat)
      by (vm_compute; reflexivity).
    split; [exact Ef|]. split; [reflexivity|]. split; [exact Hnew|]. split; [exact Hlen|].
    exact (Hcreated rnd "bob" 9%Q "USD" None _ _ (pair_of_fst _ _ Ef) Hnew). }
  exact (conj Hacc (conj Habsent (conj Hsecond Hfound))).
Defined.

(** ** The life of a wallet *)

Lemma createWallet_alone walletId dto s :
  exists r s',
    WalletService.createWallet walletId dto (alone s) = (r, alone s') /\
    (wallets s' = wallets s \/
     exists created,
       wallets s !! walletId = None /\
       wallets s' = <[walletId := created]> (wallets s)).
Proof.
  unfold WalletService.createWallet, bind, newDate, outcome, Wallet.new.
  destruct (Wallet.validateBalance _) as [[]|e].
  2:{ exists (Throw e), s. split; [reflexivity|left; reflexivity]. }
  unfold await, run, WalletRepository.create. cbn [sys alone pending Wallet.id].
  destruct (wallets s !! walletId) as [existing|] eqn:E.
  { eexists _, s. split; [reflexivity|left; reflexivity]. }
  destruct (WalletRepository.cloneWallet _ s) as [stored|e] eqn:Ec.
  2:{ eexists _, s. split; [reflexivity|left; reflexivity]. }
  cbn [fst snd suspend pending].
  destruct (WalletRepository.cloneWallet _ (setWallets _ s)) as [c|e];
    (eexists _, _; split; [reflexivity|right; exists stored; split; reflexivity]).
Qed.

(** One operation, run without interleaving: every stored wallet is still
    stored, with its id and its currency, at its version or the next. *)
Lemma perform_alone_persists op s :
  WellKeyed s ->
  exists s',
    perform op (alone s) = alone s' /\ WellKeyed s' /\
    forall id w0,
      wallets s !! id = Some w0 ->
      exists w1,
        wallets s' !! id = Some w1 /\
        Wallet.currency w1 = Wallet.currency w0 /\
        Wallet.version w0 <= Wallet.version w1 <= Wallet.version w0 + 1.
Proof.
  intros Hk.
  assert (Hsafe : Safe keyed (alone s)) by (split; [exact Hk|constructor]).
  pose proof (proj1 (perform_Safe keyed keyed_clone op (alone s) Hsafe)) as Hk'.
  assert (Hsame : forall s' : Sys, wallets s' = wallets s ->
            forall id w0, wallets s !! id = Some w0 ->
            exists w1, wallets s' !! id = Some w1 /\
                       Wallet.currency w1 = Wallet.currency w0 /\
                       Wallet.version w0 <= Wallet.version w1 <= Wallet.version w0 + 1).
  { intros s' E id w0 H. exists w0. rewrite E. split; [exact H|]. split; [reflexivity|lia]. }
  destruct op as [walletId dto|rnd walletId dto|rnd sourceWalletId dto]; cbn [perform] in *.
  - destruct (createWallet_alone walletId dto s) as (r & s' & E & Hw).
    rewrite E in *. cbn [snd sys alone] in *. exists s'. split; [reflexivity|].
    split; [exact Hk'|]. destruct Hw as [Hw|(created & Hfresh & Hw)]; [exact (Hsame s' Hw)|].
    intros id w0 H. exists w0. rewrite Hw.
    rewrite lookup_insert_ne by (intros ->; congruence).
    split; [exact H|]. split; [reflexivity|lia].
  - destruct (fundWallet_alone rnd walletId dto s Hk) as (r & s' & E & Hw).
    rewrite E in *. cbn [snd sys alone] in *. exists s'. split; [reflexivity|].
    split; [exact Hk'|].
    destruct Hw as [[-> _]|(_ & funded & Hf & _ & Hw & _)]; [exact (Hsame s eq_refl)|].
    intros id w0 H. rewrite Hw. destruct (decide (walletId = id)) as [->|Hne].
    + rewrite lookup_insert_eq. eexists. split; [reflexivity|].
      assert (funded = w0) as -> by congruence. cbn. split; [reflexivity|lia].
    + rewrite lookup_insert_ne by exact Hne. exists w0.
      split; [exact H|]. split; [reflexivity|lia].
  - destruct (transferFunds_alone rnd sourceWalletId dto s Hk) as (r & s' & E & Hw).
    rewrite E in *. cbn [snd sys alone] in *. exists s'. split; [reflexivity|].
    split; [exact Hk'|].
    destruct Hw as [[-> _]|(_ & Hne & (sw & tw & Hs & Ht & _ & _ & Hw) & _)];
      [exact (Hsame s eq_refl)|].
    intros id w0 H. rewrite Hw.
    destruct (decide (tf_targetWalletId dto = id)) as [Et|Hnt].
    + rewrite Et in Ht |- *. rewrite lookup_insert_eq. eexists. split; [reflexivity|].
      assert (tw = w0) as -> by congruence. cbn. split; [reflexivity|lia].
    + rewrite lookup_insert_ne by exact Hnt.
      destruct (decide (sourceWalletId = id)) as [->|Hns].
      * rewrite lookup_insert_eq. eexists. split; [reflexivity|].
        assert (sw = w0) as -> by congruence. cbn. split; [reflexivity|lia].
      * rewrite lookup_insert_ne by exact Hns. exists w0.
        split; [exact H|]. split; [reflexivity|lia].
Qed.

(** X27: wallets stay, and their versions only grow.  On a store in
    which every wallet is filed under its id, after any sequence of
    [createWallet], [fundWallet] and [transferFunds] calls, returning or
    throwing, each completed before the next starts, every wallet that was
    stored is still stored under its id, with the same id and currency; its
    version is not lower than before and has grown by at most one for each
    call. *)
Theorem wallets_stay_and_versions_grow :
  forall (ops : list Operation) (s : Sys),
    WellKeyed s ->
    forall id w0,
      wallets s !! id = Some w0 ->
      exists w1,
        wallets (sys (performAll ops (alone s))) !! id = Some w1 /\
        Wallet.id w1 = Wallet.id w0 /\
        Wallet.currency w1 = Wallet.currency w0 /\
        Wallet.version w0 <= Wallet.version w1 <= Wallet.version w0 + Z.of_nat (length ops).
Proof.
  induction ops as [|op ops IH]; intros s Hk id w0 H.
  - exists w0. split; [exact H|]. split; [reflexivity|]. split; [reflexivity|cbn; lia].
  - destruct (perform_alone_persists op s Hk) as (s' & E & Hk' & Hstep).
    destruct (Hstep id w0 H) as (w1 & H1 & Hc1 & Hv1).
    destruct (IH s' Hk' id w1 H1) as (w2 & H2 & Hi2 & Hc2 & Hv2).
    exists w2. change (performAll (op :: ops) (alone s)) with (performAll ops (perform op (alone s))).
    rewrite E. split; [exact H2|].
    split; [rewrite (Hk' _ _ H1) in Hi2; rewrite Hi2; symmetry; exact (Hk _ _ H)|].
    split; [congruence|]. cbn [length]. lia.
Qed.

Lemma wallets_stay_and_versions_grow_witness :
  let ops :=
    [ FundWallet entropy1 "bob" (fundOf (ofZ 100) "k1");
      TransferFunds entropy2 "alice" (transferTo "bob" (ofZ 20) "k2");
      TransferFunds entropy3 "alice" (transferTo "bob" (ofZ 1000) "k3") ] in
  let alice := Wallet.mk "alice" USD 50 1 startTime startTime in
  WellKeyed (sys world1) /\
  wallets (sys world1) !! "alice" = Some alice /\
  exists w1,
    wallets (sys (performAll ops (alone (sys world1)))) !! "alice" = Some w1 /\
    Wallet.currency w1 = USD /\
    1 <= Wallet.version w1 <= 4.
Proof.
  intros ops alice.
  assert (Hs : wallets (sys world1) !! "alice" = Some alice) by (vm_compute; reflexivity).
  split; [exact world1_WellKeyed|]. split; [exact Hs|].
  destruct (wallets_stay_and_versions_grow ops (sys world1) world1_WellKeyed "alice" alice Hs)
    as (w1 & H1 & _ & Hc & Hv).
  exists w1. split; [exact H1|]. split; [exact Hc|exact Hv].
Defined.

(** ** The log is append-only *)

Lemma performAll_LogExtends log ops w :
  Steady (LogExtends log) w -> Steady (LogExtends log) (performAll ops w).
Proof.
  apply performAll_Steady; try (intros; assumption).
  intros s tx _ [appended E]. exists (appended ++ [tx]).
  cbn [transactions setTransactions]. rewrite E, app_assoc. reflexivity.
Qed.

(** X28: the log of transactions is append-only.  Whatever sequence of
    [createWallet], [fundWallet] and [transferFunds] calls is made,
    returning or throwing, and whatever the other tasks do at the suspension
    points as long as they only add to the log, the log at the end is the
    log at the start followed by the transactions that were added: no
    operation removes, reorders or replaces a logged transaction, and what
    [count] returns never falls. *)
Theorem log_is_append_only :
  forall (w : World) (ops : list Operation),
    Forall (maintains (LogExtends (transactions (sys w)))) (pending w) ->
    exists appended,
      transactions (sys (performAll ops w)) = transactions (sys w) ++ appended /\
      fst (TransactionRepository.count (sys (performAll ops w)))
      = Return (Z.of_nat (length (transactions (sys w))) + Z.of_nat (length appended)).
Proof.
  intros w ops Hp.
  assert (Hw : Steady (LogExtends (transactions (sys w))) w).
  { split; [|exact Hp]. exists []. rewrite app_nil_r. reflexivity. }
  destruct (proj1 (performAll_LogExtends _ ops w Hw)) as [appended E].
  exists appended. split; [exact E|].
  unfold TransactionRepository.count. cbn [fst].
  rewrite E, length_app, Nat2Z.inj_add. reflexivity.
Qed.

Lemma log_is_append_only_witness :
  let ops :=
    [ FundWallet entropy1 "bob" (fundOf (ofZ 100) "k1");
      TransferFunds entropy2 "alice" (transferTo "bob" (ofZ 1000) "k2") ] in
  Forall (maintains (LogExtends (transactions (sys world1)))) (pending world1) /\
  exists appended,
    transactions (sys (performAll ops world1)) = transactions (sys world1) ++ appended /\
    length appended = 1%nat.
Proof.
  intros ops.
  assert (Hp : Forall (maintains (LogExtends (transactions (sys world1)))) (pending world1))
    by (vm_compute; constructor).
  split; [exact Hp|].
  destruct (log_is_append_only world1 ops Hp) as (appended & E & _).
  exists appended. split; [exact E|].
  apply (f_equal (@length _)) in E. rewrite length_app in E.
  assert (H2 : length (transactions (sys (performAll ops world1))) = 1%nat)
    by (vm_compute; reflexivity).
  assert (H1 : length (transactions (sys world1)) = 0%nat) by (vm_compute; reflexivity).
  lia.
Defined.
